(** * XImage: the pixel buffer of cam2web (src/core/XImage.cpp)

    A shallow embedding of the image entity: the format metadata
    functions, the byte memory the pixel buffers live in, the store of
    reference-counted image objects behind [shared_ptr<XImage>], and the
    operations Allocate, Create, Clone, CopyData and CopyDataOrClone.

    Conventions.
    - C integers are [Z] with the conversions of the language written out:
      [u32] for [uint32_t], [i32] for [int32_t], [usize] for [size_t].
    - Memory is a list of blocks indexed by block number; a freed block
      stays in the list as [None], so block numbers are never reused.
    - A computation is a function [World -> option (A * World)]; [None]
      stands for undefined behaviour (an access outside a live block, a
      dereference of a dead object, a read past the end of an array). *)

From Stdlib Require Import ZArith Lia Bool.
From Stdlib Require Strings.Byte.
From stdpp Require Import base option list.

Local Open Scope Z_scope.

(** ** Machine integers *)

(** Conversion to [uint32_t]. *)
Definition u32 (x : Z) : Z := x mod 2 ^ 32.

(** Conversion to [int32_t] (two's complement). The only signed operation
    of the file whose result can leave the range is [height * stride] in
    [Allocate]; it is given the wrap-around result every supported target
    computes. *)
Definition i32 (x : Z) : Z := (x + 2 ^ 31) mod 2 ^ 32 - 2 ^ 31.

(** Conversion to [size_t], 64 bits wide. *)
Definition usize (x : Z) : Z := x mod 2 ^ 64.

(** The values an [int] can hold. *)
Definition is_int32 (x : Z) : bool := (- 2 ^ 31 <=? x) && (x <? 2 ^ 31).

(** ** Format metadata *)

(** [static int sizes[] = { 0, 8, 24, 32, 8 };] *)
Definition sizes : list Z := [0; 8; 24; 32; 8].

(** [XImageBitsPerPixel]. The tag is converted to [int]; the comparison
    against [sizeof(sizes)/sizeof(sizes[0])] is made in [size_t], so the
    index is converted with [usize]. The array read is a lookup: [None]
    would be a read outside the table. *)
Definition XImageBitsPerPixel (format : Z) : option Z :=
  let formatIndex := format in
  if usize formatIndex >=? Z.of_nat (length sizes)
  then Some (u32 0)
  else u32 <$> sizes !! Z.to_nat formatIndex.

(** [XImageBytesPerStride]: [( ( bitsPerLine + 31 ) & ~31 ) >> 3] on
    [uint32_t]; [~31] is the [int] -32, converted to [uint32_t] for the
    conjunction. *)
Definition XImageBytesPerStride (bitsPerLine : Z) : Z :=
  Z.shiftr (Z.land (u32 (bitsPerLine + 31)) (u32 (Z.lnot 31))) 3.

(** [XImageBytesPerLine]: [( bitsPerLine + 7 ) >> 3] on [uint32_t]. *)
Definition XImageBytesPerLine (bitsPerLine : Z) : Z :=
  Z.shiftr (u32 (bitsPerLine + 7)) 3.

(** [width * XImageBitsPerPixel( format )]: an [int32_t] times a
    [uint32_t], computed in [uint32_t]. *)
Definition bits_per_line (width bpp : Z) : Z := u32 (u32 width * bpp).

(** ** Memory and pointers *)

(** A memory cell: a byte, or the indeterminate content [malloc] leaves. *)
Inductive memval : Type :=
  | Undef
  | Val (b : Byte.byte).

(** A [uint8_t*]: null, or an offset into a block. Offsets are not
    checked when a pointer is formed, only when it is accessed. *)
Inductive pointer : Type :=
  | Null
  | Ptr (b : nat) (ofs : Z).

Definition is_null (p : pointer) : bool :=
  match p with Null => true | Ptr _ _ => false end.

(** [p += d] *)
Definition ptr_add (p : pointer) (d : Z) : pointer :=
  match p with Null => Null | Ptr b o => Ptr b (o + d) end.

(** ** The image entity *)

(** Modelled from the spec: the enumeration [XPixelFormat] is declared in
    XImage.hpp, which is not among the sources. A format is its tag, an
    [int]; the spec names 0 (unknown) and the four formats 1 to 4. *)
Definition XPixelFormat : Type := Z.

(** Modelled from the spec: the enumeration [XError] is declared outside
    the sources; these are the four values XImage.cpp uses. *)
Inductive XError : Type :=
  | Success
  | NullPointer
  | ImageParametersMismatch
  | OutOfMemory.

(** The data members of [XImage], as the constructor initialises them. *)
Record XImage : Type := mkXImage {
  mData : pointer;
  mWidth : Z;
  mHeight : Z;
  mStride : Z;
  mFormat : XPixelFormat;
  mOwnMemory : bool
}.

(** A [shared_ptr<XImage>]: empty, or the number of an image object. *)
Definition handle : Type := option nat.

(** ** The world: memory, image objects and the allocator *)

(** [mem]: the blocks, [None] once freed. [objs]: the image objects with
    their number of holders, [None] once destroyed. [grants]: what the
    allocator will answer to the coming requests of [malloc], [calloc]
    and [new (nothrow)], [true] for a granted request; an exhausted list
    refuses. *)
Record World : Type := mkWorld {
  mem : list (option (list memval));
  objs : list (option (XImage * nat));
  grants : list bool
}.

Definition M (A : Type) : Type := World -> option (A * World).

#[global] Instance M_ret : MRet M := fun A (x : A) w => Some (x, w).
#[global] Instance M_bind : MBind M := fun A B (k : A -> M B) (m : M A) w =>
  match m w with
  | Some (x, w') => k x w'
  | None => None
  end.

(** Undefined behaviour. *)
Definition undefined {A : Type} : M A := fun _ => None.

Definition lift {A : Type} (o : option A) : M A := fun w =>
  match o with
  | Some x => Some (x, w)
  | None => None
  end.

(** The allocator's answer to the next request. *)
Definition next_grant : M bool := fun w =>
  match grants w with
  | [] => Some (false, w)
  | g :: gs => Some (g, mkWorld (mem w) (objs w) gs)
  end.

Definition new_block (content : list memval) : M pointer := fun w =>
  Some (Ptr (length (mem w)) 0, mkWorld (mem w ++ [Some content]) (objs w) (grants w)).

(** [malloc( size )]: a fresh block of indeterminate content, or null. *)
Definition malloc (size : Z) : M pointer :=
  g ← next_grant;
  if g : bool then new_block (replicate (Z.to_nat size) Undef) else mret Null.

(** [calloc( n, size )]: a fresh block of zero bytes, or null. *)
Definition calloc (n size : Z) : M pointer :=
  g ← next_grant;
  if g : bool
  then new_block (replicate (Z.to_nat (n * size)) (Val Byte.x00))
  else mret Null.

Definition read_block (b : nat) : M (list memval) := fun w =>
  match mem w !! b with
  | Some (Some buf) => Some (buf, w)
  | _ => None
  end.

Definition write_block (b : nat) (buf : list memval) : M unit := fun w =>
  Some (tt, mkWorld (<[b := Some buf]> (mem w)) (objs w) (grants w)).

(** [free( p )]: [p] must be null or the start of a live block. *)
Definition free (p : pointer) : M unit := fun w =>
  match p with
  | Null => Some (tt, w)
  | Ptr b 0 =>
      match mem w !! b with
      | Some (Some _) => Some (tt, mkWorld (<[b := None]> (mem w)) (objs w) (grants w))
      | _ => None
      end
  | Ptr _ _ => None
  end.

Definition in_bounds (buf : list memval) (ofs n : Z) : bool :=
  (0 <=? ofs) && (0 <=? n) && (ofs + n <=? Z.of_nat (length buf)).

Definition load_bytes (buf : list memval) (ofs n : Z) : option (list memval) :=
  if in_bounds buf ofs n
  then Some (take (Z.to_nat n) (drop (Z.to_nat ofs) buf))
  else None.

Definition store_bytes (buf : list memval) (ofs : Z) (bytes : list memval)
  : option (list memval) :=
  if in_bounds buf ofs (Z.of_nat (length bytes))
  then Some (take (Z.to_nat ofs) buf ++ bytes
             ++ drop (Z.to_nat ofs + length bytes) buf)
  else None.

(** Two ranges of [n] bytes that share a byte. *)
Definition overlap (b1 : nat) (o1 : Z) (b2 : nat) (o2 : Z) (n : Z) : bool :=
  (b1 =? b2)%nat && (0 <? n) && (o1 <? o2 + n) && (o2 <? o1 + n).

(** [memcpy( dst, src, n )]: both ranges must lie in live blocks and must
    not overlap. *)
Definition memcpy (dst src : pointer) (n : Z) : M unit :=
  match dst, src with
  | Ptr bd od, Ptr bs os =>
      if overlap bd od bs os n then undefined else
      sbuf ← read_block bs;
      bytes ← lift (load_bytes sbuf os n);
      dbuf ← read_block bd;
      dbuf' ← lift (store_bytes dbuf od bytes);
      write_block bd dbuf'
  | _, _ => undefined
  end.

(** ** Image objects and their holders *)

Definition new_object (img : XImage) : M handle := fun w =>
  Some (Some (length (objs w)),
        mkWorld (mem w) (objs w ++ [Some (img, 1%nat)]) (grants w)).

(** [new (nothrow) XImage( ... )] handed to a [shared_ptr]: a fresh object
    with one holder, or the empty handle. *)
Definition new_XImage (img : XImage) : M handle :=
  g ← next_grant;
  if g : bool then new_object img else mret None.

(** [*h] for a non-empty handle. *)
Definition deref (o : nat) : M XImage := fun w =>
  match objs w !! o with
  | Some (Some (img, _)) => Some (img, w)
  | _ => None
  end.

(** [XImage::~XImage] *)
Definition XImage_destroy (self : XImage) : M unit :=
  if mOwnMemory self && negb (is_null (mData self))
  then free (mData self)
  else mret tt.

(** One holder lets go of its handle ([reset], or the handle is assigned
    or goes out of scope); the last one destroys the object. *)
Definition release (h : handle) : M unit :=
  match h with
  | None => mret tt
  | Some o => fun w =>
      match objs w !! o with
      | Some (Some (img, S (S n))) =>
          Some (tt, mkWorld (mem w) (<[o := Some (img, S n)]> (objs w)) (grants w))
      | Some (Some (img, 1%nat)) =>
          XImage_destroy img (mkWorld (mem w) (<[o := None]> (objs w)) (grants w))
      | _ => None
      end
  end.

(** ** The operations *)

(** [XImage::Allocate] *)
Definition Allocate (width height : Z) (format : XPixelFormat) (zeroInitialize : bool)
  : M handle :=
  bpp ← lift (XImageBitsPerPixel format);
  let stride := i32 (XImageBytesPerStride (bits_per_line width bpp)) in
  data ← (if zeroInitialize
          then calloc 1 (usize (i32 (height * stride)))
          else malloc (usize (i32 (height * stride))));
  if is_null data
  then mret None
  else new_XImage (mkXImage data width height stride format true).

(** [XImage::Create] *)
Definition Create (data : pointer) (width height stride : Z) (format : XPixelFormat)
  : M handle :=
  new_XImage (mkXImage data width height stride format false).

(** The loop of [CopyData]: [rows] iterations are left. *)
Fixpoint copy_rows (rows : nat) (dstPtr srcPtr : pointer)
    (lineSize srcStride dstStride : Z) : M unit :=
  match rows with
  | O => mret tt
  | S rows' =>
      memcpy dstPtr srcPtr lineSize;;
      copy_rows rows' (ptr_add dstPtr dstStride) (ptr_add srcPtr srcStride)
                lineSize srcStride dstStride
  end.

Definition same_parameters (a b : XImage) : bool :=
  (mWidth a =? mWidth b) && (mHeight a =? mHeight b) && (mFormat a =? mFormat b).

(** [XImage::CopyData] *)
Definition CopyData (self : XImage) (copyTo : handle) : M XError :=
  match mData self, copyTo with
  | Null, _ => mret NullPointer
  | Ptr _ _, None => mret NullPointer
  | Ptr _ _, Some o =>
      dst ← deref o;
      if is_null (mData dst) then mret NullPointer
      else if negb (same_parameters self dst) then mret ImageParametersMismatch
      else
        bpp ← lift (XImageBitsPerPixel (mFormat self));
        let lineSize := XImageBytesPerLine (bits_per_line (mWidth self) bpp) in
        copy_rows (Z.to_nat (mHeight self)) (mData dst) (mData self)
                  lineSize (mStride self) (mStride dst);;
        mret Success
  end.

(** [XImage::Clone] *)
Definition Clone (self : XImage) : M handle :=
  if is_null (mData self) then mret None
  else
    clone ← Allocate (mWidth self) (mHeight self) (mFormat self) false;
    match clone with
    | None => mret None
    | Some _ =>
        r ← CopyData self clone;
        match r with
        | Success => mret clone
        | _ => release clone;; mret None
        end
    end.

(** [XImage::CopyDataOrClone]. The handle is passed by reference: the
    result carries its value on return. *)
Definition CopyDataOrClone (self : XImage) (copyTo : handle) : M (XError * handle) :=
  replace ← match copyTo with
            | None => mret true
            | Some o => dst ← deref o; mret (negb (same_parameters dst self))
            end;
  if replace : bool
  then
    clone ← Clone self;
    release copyTo;;
    mret (match clone with None => OutOfMemory | Some _ => Success end, clone)
  else
    r ← CopyData self copyTo;
    mret (r, copyTo).

(** [I.Clone( )->CopyDataOrClone( I2 )]. The handle of the clone is a
    temporary: it is dropped once the call has returned. A call through an
    empty handle is undefined. *)
Definition clone_then_copy (I : XImage) (I2 : handle) : M (XError * handle) :=
  clone ← Clone I;
  match clone with
  | None => undefined
  | Some c =>
      self ← deref c;
      r ← CopyDataOrClone self I2;
      release clone;;
      mret r
  end.

(** * Vocabulary of the properties *)

(** ** Rows of a buffer *)

(** The rows [0 .. rows-1] of [line] bytes, [stride] bytes apart from
    offset [ofs], lie inside [buf]. *)
Definition rows_in (buf : list memval) (ofs stride line rows : Z) : Prop :=
  forall y, 0 <= y < rows ->
    0 <= ofs + y * stride /\ ofs + y * stride + line <= Z.of_nat (length buf).

(** Offset [i] belongs to none of the rows. *)
Definition outside_rows (ofs stride line rows : Z) (i : nat) : Prop :=
  forall y, 0 <= y < rows ->
    ~ (ofs + y * stride <= Z.of_nat i < ofs + y * stride + line).

(** ** The layout [Allocate] computes *)

(** The stride and the byte count [Allocate] computes. *)
Definition Allocate_stride (width bpp : Z) : Z :=
  i32 (XImageBytesPerStride (bits_per_line width bpp)).

Definition Allocate_size (width height bpp : Z) : Z :=
  usize (i32 (height * Allocate_stride width bpp)).

(** The content of a fresh block of [n] bytes. *)
Definition fresh_content (zeroInitialize : bool) (n : Z) : list memval :=
  replicate (Z.to_nat n) (if zeroInitialize then Val Byte.x00 else Undef).

(** The world after a granted [Allocate]. *)
Definition Allocate_world (width height : Z) (format : XPixelFormat)
    (zeroInitialize : bool) (W : World) (bpp : Z) (gs : list bool) : World :=
  mkWorld (mem W ++ [Some (fresh_content zeroInitialize (Allocate_size width height bpp))])
          (objs W ++ [Some (mkXImage (Ptr (length (mem W)) 0) width height
                                     (Allocate_stride width bpp) format true, 1%nat)])
          gs.

(** The world after the buffer was granted and the object refused: the
    buffer stays allocated. *)
Definition Allocate_leak (width height : Z) (zeroInitialize : bool) (W : World)
    (bpp : Z) (gs : list bool) : World :=
  mkWorld (mem W ++ [Some (fresh_content zeroInitialize (Allocate_size width height bpp))])
          (objs W) gs.

(** The computations of [Allocate] stay within 32 bits: [bits + 31] does
    not wrap in [XImageBytesPerStride] and [height * stride] does not
    leave [int32_t]. *)
Definition fits_allocation (width height bpp : Z) : Prop :=
  bits_per_line width bpp + 31 < 2 ^ 32
  /\ height * XImageBytesPerStride (bits_per_line width bpp) < 2 ^ 31.

(** The buffer [Allocate] makes holds the rows [CopyData] writes: the
    stride it computes covers a line and every row ends inside the block. *)
Definition allocation_holds_rows (width height bpp : Z) : Prop :=
  XImageBytesPerLine (bits_per_line width bpp) <= Allocate_stride width bpp
  /\ rows_in (fresh_content false (Allocate_size width height bpp)) 0
             (Allocate_stride width bpp)
             (XImageBytesPerLine (bits_per_line width bpp)) height.

(** The image object a clone of [self] made in [W] is. *)
Definition clone_image (self : XImage) (W : World) (bpp : Z) : XImage :=
  mkXImage (Ptr (length (mem W)) 0) (mWidth self) (mHeight self)
           (Allocate_stride (mWidth self) bpp) (mFormat self) true.

(** The world after a clone with pixel buffer [cbuf]. *)
Definition Clone_world (self : XImage) (W : World) (bpp : Z) (cbuf : list memval)
    (gs : list bool) : World :=
  mkWorld (mem W ++ [Some cbuf]) (objs W ++ [Some (clone_image self W bpp, 1%nat)]) gs.

(** ** Handles *)

(** The image a handle holds. *)
Definition image_of (W : World) (h : handle) : option XImage :=
  match h with
  | None => None
  | Some o =>
      match objs W !! o with
      | Some (Some (img, _)) => Some img
      | _ => None
      end
  end.

(** The handle can be dropped: its object is alive, and where this is the
    last holder of an image that owns a buffer, the buffer is the start of
    a live block (as [free] requires). *)
Definition releasable (W : World) (h : handle) : Prop :=
  match h with
  | None => True
  | Some o =>
      exists img n, objs W !! o = Some (Some (img, S n))
        /\ (n = 0%nat -> mOwnMemory img = true -> is_null (mData img) = false ->
            exists b buf, mData img = Ptr b 0 /\ mem W !! b = Some (Some buf))
  end.

(** The destination has to be replaced: the handle is empty, or its image
    differs from the source in width, height or format. *)
Definition must_replace (W : World) (self : XImage) (copyTo : handle) : Prop :=
  copyTo = None
  \/ exists dst, image_of W copyTo = Some dst
       /\ (mWidth dst <> mWidth self \/ mHeight dst <> mHeight self
           \/ mFormat dst <> mFormat self).

(** A destination of the same parameters as [self] with room for its rows. *)
Definition has_room (W : World) (self : XImage) (bpp : Z) (copyTo : handle) : Prop :=
  exists dst bd od dbuf,
    image_of W copyTo = Some dst
    /\ mWidth dst = mWidth self /\ mHeight dst = mHeight self
    /\ mFormat dst = mFormat self
    /\ mData dst = Ptr bd od
    /\ mem W !! bd = Some (Some dbuf)
    /\ rows_in dbuf od (mStride dst)
               (XImageBytesPerLine (bits_per_line (mWidth self) bpp)) (mHeight self)
    /\ XImageBytesPerLine (bits_per_line (mWidth self) bpp) <= mStride dst.

(** The image of the handle, if any, has no pointer into block [b]. *)
Definition apart_from (W : World) (copyTo : handle) (b : nat) : Prop :=
  forall dst ofs, image_of W copyTo = Some dst -> mData dst <> Ptr b ofs.

(** What the round trip leaves: handle [o2] holds an image of the
    parameters of [I] whose rows are the rows [ibuf] has at [oI]. *)
Definition copy_of (W' : World) (I : XImage) (bpp : Z) (oI : Z) (ibuf : list memval)
    (o2 : nat) : Prop :=
  exists img2 b2 ofs2 buf2,
    image_of W' (Some o2) = Some img2
    /\ mWidth img2 = mWidth I /\ mHeight img2 = mHeight I /\ mFormat img2 = mFormat I
    /\ mData img2 = Ptr b2 ofs2
    /\ mem W' !! b2 = Some (Some buf2)
    /\ forall y k, 0 <= y < mHeight I ->
         0 <= k < XImageBytesPerLine (bits_per_line (mWidth I) bpp) ->
         buf2 !! Z.to_nat (ofs2 + y * mStride img2 + k)
           = ibuf !! Z.to_nat (oI + y * mStride I + k).

(** ** Relations between worlds *)

(** Every run of [m] relates the world it starts in to the world it ends
    in by [R]. *)
Definition preserves (R : World -> World -> Prop) {A : Type} (m : M A) : Prop :=
  forall w a w', m w = Some (a, w') -> R w w'.

(** Same objects, same allocator state, same number of blocks. *)
Definition same_allocation (W W' : World) : Prop :=
  objs W' = objs W /\ grants W' = grants W /\ length (mem W') = length (mem W).

(** From [W] to [W']: an object that is alive in [W] is in [W'] either
    destroyed or alive with the same data members; a destroyed object
    stays destroyed. *)
Definition evolves (W W' : World) : Prop :=
  forall o,
    match objs W !! o with
    | Some (Some (img, _)) =>
        objs W' !! o = Some None \/ exists n', objs W' !! o = Some (Some (img, n'))
    | Some None => objs W' !! o = Some None
    | None => True
    end.

(** ** Sequences of calls *)

(** The calls a holder of images can make. An image is named by the number
    of its object. *)
Inductive call : Type :=
  | CallAllocate (width height : Z) (format : XPixelFormat) (zeroInitialize : bool)
  | CallCreate (data : pointer) (width height stride : Z) (format : XPixelFormat)
  | CallClone (self : nat)
  | CallCopyData (self : nat) (copyTo : handle)
  | CallCopyDataOrClone (self : nat) (copyTo : handle)
  | CallRelease (h : handle).

Definition exec (c : call) : M unit :=
  match c with
  | CallAllocate width height format zi =>
      Allocate width height format zi;; mret tt
  | CallCreate data width height stride format =>
      Create data width height stride format;; mret tt
  | CallClone o => self ← deref o; Clone self;; mret tt
  | CallCopyData o copyTo => self ← deref o; CopyData self copyTo;; mret tt
  | CallCopyDataOrClone o copyTo =>
      self ← deref o; CopyDataOrClone self copyTo;; mret tt
  | CallRelease h => release h
  end.

Fixpoint run (cs : list call) : M unit :=
  match cs with
  | [] => mret tt
  | c :: cs' => exec c;; run cs'
  end.

(** ** Sample data *)

(** The scenario of the description: a 3x3 RGBA32 source of stride 12 is
    copied into a 3x3 RGBA32 destination of stride 16. The source holds the
    bytes 1 to 36, the destination 48 bytes 0xff. *)
Definition scenario_source_bytes : list memval :=
  (fun n => Val (default Byte.x00 (Byte.of_nat n))) <$> seq 1 36.

Definition scenario_source : XImage := mkXImage (Ptr 0 0) 3 3 12 3 false.

Definition scenario_destination : XImage := mkXImage (Ptr 1 0) 3 3 16 3 false.

Definition scenario_world : World :=
  mkWorld [Some scenario_source_bytes; Some (replicate 48 (Val Byte.xff))]
          [Some (scenario_destination, 1%nat)] [].

(** A wrapped 2x2 image of one byte a pixel and stride 4 is cloned. *)
Definition sample_bytes : list memval :=
  [Val Byte.x01; Val Byte.x02; Val Byte.xee; Val Byte.xee;
   Val Byte.x03; Val Byte.x04; Val Byte.xee; Val Byte.xee].

Definition sample_image : XImage := mkXImage (Ptr 0 0) 2 2 4 1 false.

Definition sample_world (gs : list bool) : World := mkWorld [Some sample_bytes] [] gs.

(** The same bytes as the buffer of an owned 2x2 image, held by one handle. *)
Definition sample_owned : XImage := mkXImage (Ptr 0 0) 2 2 4 1 true.

Definition sample_owned_world (gs : list bool) : World :=
  mkWorld [Some sample_bytes] [Some (sample_owned, 1%nat)] gs.

(** A destination for the sample image: a wrapped 2x2 image over a second
    block of 8 indeterminate bytes, and the world once the sample is
    copied into it. *)
Definition sample_destination : XImage := mkXImage (Ptr 1 0) 2 2 4 1 false.

Definition sample_pair_world : World :=
  mkWorld [Some sample_bytes; Some (replicate 8 Undef)]
          [Some (sample_destination, 1%nat)] [].

Definition sample_pair_copied : World :=
  mkWorld [Some sample_bytes;
           Some [Val Byte.x01; Val Byte.x02; Undef; Undef;
                 Val Byte.x03; Val Byte.x04; Undef; Undef]]
          [Some (sample_destination, 1%nat)] [].




(** The owned sample and, beside it, a wrapped image of the same width,
    height and format that has no buffer. *)
Definition sample_without_data : XImage := mkXImage Null 2 2 4 1 false.

Definition sample_without_data_world (gs : list bool) : World :=
  mkWorld [Some sample_bytes]
          [Some (sample_owned, 1%nat); Some (sample_without_data, 1%nat)] gs.

(** * Lemmas *)

(** ** Machine integers and format metadata *)

Section Integers.

Lemma u32_range x : 0 <= u32 x < 2 ^ 32.
Proof. unfold u32. apply Z.mod_pos_bound. lia. Qed.

Lemma u32_small x : 0 <= x < 2 ^ 32 -> u32 x = x.
Proof. intros H. unfold u32. now apply Z.mod_small. Qed.

Lemma i32_small x : - 2 ^ 31 <= x < 2 ^ 31 -> i32 x = x.
Proof. intros H. unfold i32. rewrite Z.mod_small; lia. Qed.

Lemma usize_small x : 0 <= x < 2 ^ 64 -> usize x = x.
Proof. intros H. unfold usize. now apply Z.mod_small. Qed.

Lemma is_int32_spec x : is_int32 x = true <-> - 2 ^ 31 <= x < 2 ^ 31.
Proof. unfold is_int32. rewrite andb_true_iff, Z.leb_le, Z.ltb_lt. tauto. Qed.

Lemma bits_per_line_range w b : 0 <= bits_per_line w b < 2 ^ 32.
Proof. apply u32_range. Qed.

Lemma bits_per_line_small w b :
  0 <= w -> 0 <= b -> w * b < 2 ^ 32 -> bits_per_line w b = w * b.
Proof.
  intros Hw Hb Hwb. unfold bits_per_line.
  destruct (Z.eq_dec b 0) as [->|Hb0].
  - rewrite !Z.mul_0_r. reflexivity.
  - assert (w < 2 ^ 32) by nia.
    rewrite (u32_small w) by lia. apply u32_small. nia.
Qed.

Lemma bits_per_line_0_l b : bits_per_line 0 b = 0.
Proof. reflexivity. Qed.

Lemma bits_per_line_0_r w : bits_per_line w 0 = 0.
Proof. unfold bits_per_line. now rewrite Z.mul_0_r. Qed.

(** Clearing the five low bits of a 32-bit value. *)
Lemma land_not31 x : 0 <= x < 2 ^ 32 -> Z.land x (u32 (Z.lnot 31)) = 32 * (x / 32).
Proof.
  intros Hx.
  assert (E : u32 (Z.lnot 31) = Z.land (Z.lnot (Z.ones 5)) (Z.ones 32)).
  { unfold u32. rewrite Z.land_ones by lia. reflexivity. }
  rewrite E, Z.land_assoc, (Z.land_comm x), <- Z.land_assoc.
  rewrite (Z.land_ones x 32), (Z.mod_small x) by lia.
  rewrite Z.land_comm, <- Z.ldiff_land, Z.ldiff_ones_r by lia.
  rewrite Z.shiftr_div_pow2, Z.shiftl_mul_pow2 by lia.
  change (2 ^ 5) with 32. lia.
Qed.

Lemma XImageBytesPerStride_eq bits :
  XImageBytesPerStride bits = 4 * (u32 (bits + 31) / 32).
Proof.
  unfold XImageBytesPerStride.
  rewrite land_not31 by apply u32_range.
  rewrite Z.shiftr_div_pow2 by lia. change (2 ^ 3) with 8.
  replace (32 * (u32 (bits + 31) / 32)) with (4 * (u32 (bits + 31) / 32) * 8) by lia.
  apply Z.div_mul. lia.
Qed.

Lemma XImageBytesPerLine_eq bits :
  XImageBytesPerLine bits = u32 (bits + 7) / 8.
Proof. unfold XImageBytesPerLine. now rewrite Z.shiftr_div_pow2 by lia. Qed.

Lemma XImageBytesPerStride_range bits : 0 <= XImageBytesPerStride bits < 2 ^ 29.
Proof.
  rewrite XImageBytesPerStride_eq. pose proof (u32_range (bits + 31)) as H.
  assert (0 <= u32 (bits + 31) / 32 < 2 ^ 27).
  { split; [apply Z.div_pos; lia | apply Z.div_lt_upper_bound; lia]. }
  lia.
Qed.

Lemma XImageBytesPerLine_range bits : 0 <= XImageBytesPerLine bits < 2 ^ 29.
Proof.
  rewrite XImageBytesPerLine_eq. pose proof (u32_range (bits + 7)) as H.
  split; [apply Z.div_pos; lia | apply Z.div_lt_upper_bound; lia].
Qed.

(** Without wrap-around of [bits + 31] the stride covers the line. *)
Lemma stride_covers_line bits :
  0 <= bits -> bits + 31 < 2 ^ 32 ->
  XImageBytesPerLine bits <= XImageBytesPerStride bits.
Proof.
  intros H0 H1. rewrite XImageBytesPerStride_eq, XImageBytesPerLine_eq.
  rewrite !u32_small by lia.
  pose proof (Z.div_mod (bits + 31) 32 ltac:(lia)) as E1.
  pose proof (Z.mod_pos_bound (bits + 31) 32 ltac:(lia)) as B1.
  enough ((bits + 7) / 8 < 4 * ((bits + 31) / 32) + 1) by lia.
  apply Z.div_lt_upper_bound; lia.
Qed.

Lemma XImageBitsPerPixel_some format :
  is_int32 format = true -> is_Some (XImageBitsPerPixel format).
Proof.
  intros H. apply is_int32_spec in H. unfold XImageBitsPerPixel.
  destruct (usize format >=? Z.of_nat (length sizes)) eqn:E; [eauto|].
  rewrite Z.geb_leb in E. apply Z.leb_gt in E. simpl in E.
  assert (0 <= format < 5) as Hf.
  { unfold usize in E. destruct (Z_lt_dec format 0).
    - rewrite <- (Z.mod_add format 1) in E by lia.
      rewrite Z.mod_small in E; lia.
    - rewrite Z.mod_small in E; lia. }
  apply fmap_is_Some, lookup_lt_is_Some. simpl. lia.
Qed.

End Integers.

(** ** Reading and writing ranges of a block *)

Section Bytes.

Implicit Types buf bytes : list memval.

Lemma in_bounds_spec buf ofs n :
  in_bounds buf ofs n = true <->
  0 <= ofs /\ 0 <= n /\ ofs + n <= Z.of_nat (length buf).
Proof.
  unfold in_bounds. rewrite !andb_true_iff, !Z.leb_le. tauto.
Qed.

Lemma load_bytes_some buf ofs n :
  0 <= ofs -> 0 <= n -> ofs + n <= Z.of_nat (length buf) ->
  exists bytes, load_bytes buf ofs n = Some bytes
    /\ length bytes = Z.to_nat n
    /\ forall k : nat, (k < Z.to_nat n)%nat ->
         bytes !! k = buf !! (Z.to_nat ofs + k)%nat.
Proof.
  intros H0 H1 H2. unfold load_bytes.
  assert (in_bounds buf ofs n = true) as -> by (apply in_bounds_spec; lia).
  eexists. split; [reflexivity|]. split.
  - rewrite length_take, length_drop. lia.
  - intros k Hk. rewrite lookup_take_lt by lia. apply lookup_drop.
Qed.

Lemma store_bytes_some buf ofs bytes :
  0 <= ofs -> ofs + Z.of_nat (length bytes) <= Z.of_nat (length buf) ->
  exists buf', store_bytes buf ofs bytes = Some buf'
    /\ length buf' = length buf
    /\ (forall k : nat, (k < length bytes)%nat ->
          buf' !! (Z.to_nat ofs + k)%nat = bytes !! k)
    /\ (forall i : nat,
          (i < Z.to_nat ofs)%nat \/ (Z.to_nat ofs + length bytes <= i)%nat ->
          buf' !! i = buf !! i).
Proof.
  intros H0 H1. unfold store_bytes.
  assert (in_bounds buf ofs (Z.of_nat (length bytes)) = true) as ->
    by (apply in_bounds_spec; lia).
  eexists. split; [reflexivity|].
  assert (length (take (Z.to_nat ofs) buf) = Z.to_nat ofs) as Ht
    by (rewrite length_take; lia).
  split; [|split].
  - rewrite !length_app, Ht, length_drop. lia.
  - intros k Hk. rewrite lookup_app_r by lia.
    rewrite Ht, lookup_app_l by lia. f_equal. lia.
  - intros i [Hi|Hi].
    + rewrite lookup_app_l by lia. apply lookup_take_lt. lia.
    + rewrite lookup_app_r by lia. rewrite lookup_app_r by lia.
      rewrite lookup_drop, Ht. f_equal. lia.
Qed.

End Bytes.

(** ** Running computations *)

Section Monad.

Context {A B : Type}.

Lemma bind_run (m : M A) (k : A -> M B) w a w1 :
  m w = Some (a, w1) -> (m ≫= k) w = k a w1.
Proof. intros H. unfold mbind, M_bind. now rewrite H. Qed.

Lemma bind_inv (m : M A) (k : A -> M B) w b w2 :
  (m ≫= k) w = Some (b, w2) ->
  exists a w1, m w = Some (a, w1) /\ k a w1 = Some (b, w2).
Proof.
  unfold mbind, M_bind. destruct (m w) as [[a w1]|]; [|discriminate].
  intros H. now exists a, w1.
Qed.

Lemma lift_run (o : option A) (x : A) w : o = Some x -> lift o w = Some (x, w).
Proof. now intros ->. Qed.

Lemma lift_inv (o : option A) (x : A) w w' :
  lift o w = Some (x, w') -> o = Some x /\ w' = w.
Proof. unfold lift. destruct o; [|discriminate]. intros [= -> ->]. auto. Qed.

End Monad.

Lemma World_eta w : mkWorld (mem w) (objs w) (grants w) = w.
Proof. now destruct w. Qed.

(** ** [memcpy] and the row loop between two distinct blocks *)

Section Copy.

Lemma memcpy_distinct W bd od bs os n sbuf dbuf :
  bs <> bd ->
  mem W !! bs = Some (Some sbuf) -> mem W !! bd = Some (Some dbuf) ->
  0 <= n ->
  0 <= os -> os + n <= Z.of_nat (length sbuf) ->
  0 <= od -> od + n <= Z.of_nat (length dbuf) ->
  exists dbuf',
    memcpy (Ptr bd od) (Ptr bs os) n W
      = Some (tt, mkWorld (<[bd := Some dbuf']> (mem W)) (objs W) (grants W))
    /\ length dbuf' = length dbuf
    /\ (forall k : nat, (k < Z.to_nat n)%nat ->
          dbuf' !! (Z.to_nat od + k)%nat = sbuf !! (Z.to_nat os + k)%nat)
    /\ (forall i : nat,
          (i < Z.to_nat od)%nat \/ (Z.to_nat od + Z.to_nat n <= i)%nat ->
          dbuf' !! i = dbuf !! i).
Proof.
  intros Hne Hs Hd Hn Hos1 Hos2 Hod1 Hod2.
  destruct (load_bytes_some sbuf os n) as (bytes & Hl & Hlen & Hb); try lia.
  destruct (store_bytes_some dbuf od bytes) as (dbuf' & Hst & Hlen' & Hin & Hout);
    try lia.
  exists dbuf'. split; [|split; [exact Hlen'|split]].
  - unfold memcpy, overlap.
    assert ((bd =? bs)%nat = false) as -> by (apply Nat.eqb_neq; congruence).
    cbn [andb].
    unfold mbind, M_bind, read_block, write_block. rewrite Hs. cbn.
    unfold lift at 1. rewrite Hl, Hd. cbn. rewrite Hst. reflexivity.
  - intros k Hk. rewrite Hin by lia. apply Hb. lia.
  - intros i Hi. apply Hout. lia.
Qed.

Lemma copy_rows_distinct rows :
  forall W bd od bs os line ss ds sbuf dbuf,
  bs <> bd ->
  mem W !! bs = Some (Some sbuf) -> mem W !! bd = Some (Some dbuf) ->
  0 <= line <= ds ->
  rows_in sbuf os ss line (Z.of_nat rows) ->
  rows_in dbuf od ds line (Z.of_nat rows) ->
  exists dbuf',
    copy_rows rows (Ptr bd od) (Ptr bs os) line ss ds W
      = Some (tt, mkWorld (<[bd := Some dbuf']> (mem W)) (objs W) (grants W))
    /\ length dbuf' = length dbuf
    /\ (forall y k, 0 <= y < Z.of_nat rows -> 0 <= k < line ->
          dbuf' !! Z.to_nat (od + y * ds + k) = sbuf !! Z.to_nat (os + y * ss + k))
    /\ (forall i, outside_rows od ds line (Z.of_nat rows) i -> dbuf' !! i = dbuf !! i).
Proof.
  induction rows as [|rows IH];
    intros W bd od bs os line ss ds sbuf dbuf Hne Hs Hd Hline Hsrc Hdst.
  - exists dbuf. split; [|split; [reflexivity|split]].
    + cbn. unfold mret, M_ret. rewrite list_insert_id by exact Hd.
      now rewrite World_eta.
    + intros y k Hy. lia.
    + reflexivity.
  - pose proof (Hsrc 0 ltac:(lia)) as Hs0. pose proof (Hdst 0 ltac:(lia)) as Hd0.
    destruct (memcpy_distinct W bd od bs os line sbuf dbuf)
      as (dbuf1 & Hcpy & Hlen1 & Hrow1 & Hout1); try assumption; try lia.
    set (W1 := mkWorld (<[bd := Some dbuf1]> (mem W)) (objs W) (grants W)) in *.
    assert (bd < length (mem W))%nat as Hbd by (eapply lookup_lt_Some; eauto).
    destruct (IH W1 bd (od + ds) bs (os + ss) line ss ds sbuf dbuf1)
      as (dbuf' & Hrun & Hlen' & Hrows & Hout); try assumption.
    + cbn. rewrite list_lookup_insert_ne by congruence. exact Hs.
    + cbn. now apply list_lookup_insert_eq.
    + intros y Hy. specialize (Hsrc (y + 1) ltac:(lia)). lia.
    + intros y Hy. specialize (Hdst (y + 1) ltac:(lia)). lia.
    + exists dbuf'. split; [|split; [congruence|split]].
      * cbn [copy_rows ptr_add]. rewrite (bind_run _ _ _ _ _ Hcpy), Hrun.
        cbn. now rewrite list_insert_insert_eq.
      * intros y k Hy Hk. destruct (Z.eq_dec y 0) as [->|Hy0].
        -- rewrite Hout.
           ++ replace (Z.to_nat (od + 0 * ds + k)) with (Z.to_nat od + Z.to_nat k)%nat
                by lia.
              replace (Z.to_nat (os + 0 * ss + k)) with (Z.to_nat os + Z.to_nat k)%nat
                by lia.
              apply Hrow1. lia.
           ++ intros y' Hy'. assert (0 <= y' * ds) by nia. lia.
        -- specialize (Hrows (y - 1) k ltac:(lia) Hk).
           replace (od + ds + (y - 1) * ds + k) with (od + y * ds + k) in Hrows by lia.
           replace (os + ss + (y - 1) * ss + k) with (os + y * ss + k) in Hrows by lia.
           exact Hrows.
      * intros i Hi. rewrite Hout.
        -- apply Hout1. specialize (Hi 0 ltac:(lia)). lia.
        -- intros y Hy. specialize (Hi (y + 1) ltac:(lia)). lia.
Qed.

End Copy.

(** ** What [CopyData] returns *)

Section CopyDataCases.

Variables (self : XImage) (W : World).

Lemma same_parameters_true (a b : XImage) :
  same_parameters a b = true <->
  mWidth a = mWidth b /\ mHeight a = mHeight b /\ mFormat a = mFormat b.
Proof.
  unfold same_parameters. rewrite !andb_true_iff, !Z.eqb_eq. tauto.
Qed.

Lemma same_parameters_false (a b : XImage) :
  same_parameters a b = false <->
  mWidth a <> mWidth b \/ mHeight a <> mHeight b \/ mFormat a <> mFormat b.
Proof.
  unfold same_parameters. rewrite !andb_false_iff, !Z.eqb_neq. tauto.
Qed.

Lemma same_parameters_sym (a b : XImage) :
  same_parameters a b = same_parameters b a.
Proof.
  unfold same_parameters.
  now rewrite (Z.eqb_sym (mWidth a)), (Z.eqb_sym (mHeight a)), (Z.eqb_sym (mFormat a)).
Qed.

Lemma deref_run o img n :
  objs W !! o = Some (Some (img, n)) -> deref o W = Some (img, W).
Proof. intros H. unfold deref. now rewrite H. Qed.

Lemma CopyData_null_source copyTo :
  is_null (mData self) = true -> CopyData self copyTo W = Some (NullPointer, W).
Proof. unfold CopyData. now destruct (mData self). Qed.

Lemma CopyData_empty_handle : CopyData self None W = Some (NullPointer, W).
Proof. unfold CopyData. now destruct (mData self). Qed.

Lemma CopyData_null_destination o dst n :
  objs W !! o = Some (Some (dst, n)) -> is_null (mData dst) = true ->
  CopyData self (Some o) W = Some (NullPointer, W).
Proof.
  intros Ho Hd. unfold CopyData. destruct (mData self); [reflexivity|].
  rewrite (bind_run _ _ _ _ _ (deref_run _ _ _ Ho)). now rewrite Hd.
Qed.

Lemma CopyData_mismatch o dst n :
  objs W !! o = Some (Some (dst, n)) ->
  is_null (mData self) = false -> is_null (mData dst) = false ->
  same_parameters self dst = false ->
  CopyData self (Some o) W = Some (ImageParametersMismatch, W).
Proof.
  intros Ho Hs Hd Hp. unfold CopyData. destruct (mData self); [discriminate|].
  rewrite (bind_run _ _ _ _ _ (deref_run _ _ _ Ho)). now rewrite Hd, Hp.
Qed.

(** Past the two checks [CopyData] is its loop. *)
Lemma CopyData_loop o dst n bpp :
  objs W !! o = Some (Some (dst, n)) ->
  is_null (mData self) = false -> is_null (mData dst) = false ->
  same_parameters self dst = true ->
  XImageBitsPerPixel (mFormat self) = Some bpp ->
  CopyData self (Some o) W =
    match copy_rows (Z.to_nat (mHeight self)) (mData dst) (mData self)
            (XImageBytesPerLine (bits_per_line (mWidth self) bpp))
            (mStride self) (mStride dst) W with
    | Some (_, W') => Some (Success, W')
    | None => None
    end.
Proof.
  intros Ho Hs Hd Hp Hb. unfold CopyData. destruct (mData self); [discriminate|].
  rewrite (bind_run _ _ _ _ _ (deref_run _ _ _ Ho)). rewrite Hd, Hp. cbn [negb].
  rewrite (bind_run _ _ _ _ _ (lift_run _ _ _ Hb)).
  unfold mbind, M_bind. now destruct (copy_rows _ _ _ _ _ _ W) as [[[] ?]|].
Qed.

(** A failed [CopyData] has touched nothing. *)
Lemma CopyData_failure_unchanged copyTo r W' :
  CopyData self copyTo W = Some (r, W') -> r <> Success -> W' = W.
Proof.
  unfold CopyData. destruct (mData self) as [|bs os].
  { intros [= <- <-]. reflexivity. }
  destruct copyTo as [o|]; [|intros [= <- <-]; reflexivity].
  intros H Hr. apply bind_inv in H as (dst & W1 & Hde & H).
  unfold deref in Hde.
  destruct (objs W !! o) as [[[img n]|]|]; try discriminate.
  injection Hde as -> <-.
  destruct (is_null (mData dst)); [injection H as <- <-; reflexivity|].
  destruct (negb (same_parameters _ dst)); [injection H as <- <-; reflexivity|].
  apply bind_inv in H as (bpp & W2 & _ & H).
  apply bind_inv in H as (u & W3 & _ & H).
  injection H as <- <-. congruence.
Qed.

End CopyDataCases.

(** ** What [Allocate] does *)

Section AllocateCases.

Variables (width height : Z) (format : XPixelFormat) (zeroInitialize : bool).
Variable W : World.

(** [Allocate] by the answers of the allocator. *)
Lemma Allocate_cases bpp :
  XImageBitsPerPixel format = Some bpp ->
  Allocate width height format zeroInitialize W =
    match grants W with
    | true :: true :: gs =>
        Some (Some (length (objs W)),
              Allocate_world width height format zeroInitialize W bpp gs)
    | true :: false :: gs => Some (None, Allocate_leak width height zeroInitialize W bpp gs)
    | [true] => Some (None, Allocate_leak width height zeroInitialize W bpp [])
    | false :: gs => Some (None, mkWorld (mem W) (objs W) gs)
    | [] => Some (None, W)
    end.
Proof.
  intros Hb. unfold Allocate.
  rewrite (bind_run _ _ _ _ _ (lift_run _ _ _ Hb)).
  fold (Allocate_stride width bpp). fold (Allocate_size width height bpp).
  unfold Allocate_world, Allocate_leak, fresh_content.
  destruct (grants W) as [|[] [|[] gs]] eqn:Hg;
    destruct zeroInitialize;
    unfold calloc, malloc, new_XImage, new_block, new_object,
      mbind, M_bind, next_grant, mret, M_ret;
    rewrite Hg; cbn; rewrite ?Z.mul_1_l; try reflexivity.
  all: now destruct (Allocate_size width height bpp).
Qed.

Lemma Allocate_granted bpp gs :
  XImageBitsPerPixel format = Some bpp ->
  grants W = true :: true :: gs ->
  Allocate width height format zeroInitialize W
    = Some (Some (length (objs W)),
            Allocate_world width height format zeroInitialize W bpp gs).
Proof. intros Hb Hg. rewrite (Allocate_cases bpp Hb), Hg. reflexivity. Qed.

Lemma Allocate_defined r W' :
  Allocate width height format zeroInitialize W = Some (r, W') ->
  exists bpp, XImageBitsPerPixel format = Some bpp.
Proof.
  intros H. unfold Allocate in H.
  apply bind_inv in H as (bpp & W1 & Hb & H). apply lift_inv in Hb as [Hb ->].
  eauto.
Qed.

(** A successful [Allocate] was granted both requests. *)
Lemma Allocate_inv o W' :
  Allocate width height format zeroInitialize W = Some (Some o, W') ->
  exists bpp gs,
    XImageBitsPerPixel format = Some bpp
    /\ grants W = true :: true :: gs
    /\ o = length (objs W)
    /\ W' = Allocate_world width height format zeroInitialize W bpp gs.
Proof.
  intros H. destruct (Allocate_defined _ _ H) as [bpp Hb].
  rewrite (Allocate_cases bpp Hb) in H.
  destruct (grants W) as [|[] [|[] gs]]; try discriminate.
  injection H as <- <-. exists bpp, gs. auto.
Qed.

(** A failed [Allocate] has created no object; it has at most left a
    block behind. *)
Lemma Allocate_refused W' :
  Allocate width height format zeroInitialize W = Some (None, W') ->
  objs W' = objs W /\ (mem W' = mem W \/ exists x, mem W' = mem W ++ [x]).
Proof.
  intros H. destruct (Allocate_defined _ _ H) as [bpp Hb].
  rewrite (Allocate_cases bpp Hb) in H.
  destruct (grants W) as [|[] [|[] gs]]; try discriminate;
    injection H as <-; cbn; eauto.
Qed.

End AllocateCases.

(** ** What [Clone] does *)

Lemma rows_in_to_nat buf ofs stride line rows :
  rows_in buf ofs stride line rows ->
  rows_in buf ofs stride line (Z.of_nat (Z.to_nat rows)).
Proof. intros H y Hy. apply H. lia. Qed.

Section AllocateLayout.

Variables (width height bpp : Z).
Hypothesis Hfits : fits_allocation width height bpp.

Local Abbreviation bits := (bits_per_line width bpp).

Lemma Allocate_stride_fits : Allocate_stride width bpp = XImageBytesPerStride bits.
Proof.
  unfold Allocate_stride. apply i32_small.
  pose proof (XImageBytesPerStride_range bits). lia.
Qed.

Lemma Allocate_line_le_stride :
  0 <= XImageBytesPerLine bits <= Allocate_stride width bpp.
Proof.
  rewrite Allocate_stride_fits. destruct Hfits as [H1 _].
  pose proof (bits_per_line_range width bpp) as Hr.
  pose proof (XImageBytesPerLine_range bits).
  pose proof (stride_covers_line bits). lia.
Qed.

Lemma Allocate_size_fits :
  0 <= height -> Allocate_size width height bpp = height * XImageBytesPerStride bits.
Proof.
  intros Hh. unfold Allocate_size. rewrite Allocate_stride_fits.
  destruct Hfits as [_ H2].
  pose proof (XImageBytesPerStride_range bits) as Hr.
  assert (0 <= height * XImageBytesPerStride bits) by nia.
  rewrite i32_small by lia. apply usize_small. lia.
Qed.

(** The rows fit in the buffer [Allocate] sizes for them. *)
Lemma Allocate_rows_in (zi : bool) :
  rows_in (fresh_content zi (Allocate_size width height bpp)) 0
          (Allocate_stride width bpp) (XImageBytesPerLine bits) height.
Proof.
  intros y Hy. unfold fresh_content. rewrite length_replicate.
  rewrite Allocate_size_fits by lia.
  pose proof Allocate_line_le_stride as Hl. rewrite Allocate_stride_fits in *.
  pose proof (XImageBytesPerStride_range bits) as Hr.
  assert (0 <= y * XImageBytesPerStride bits) by nia.
  assert ((y + 1) * XImageBytesPerStride bits <= height * XImageBytesPerStride bits)
    by nia.
  lia.
Qed.

End AllocateLayout.

Lemma fits_allocation_holds_rows width height bpp :
  fits_allocation width height bpp -> allocation_holds_rows width height bpp.
Proof.
  intros Hfits. split.
  - now apply (Allocate_line_le_stride width height bpp).
  - now apply Allocate_rows_in.
Qed.

(** [rows_in] looks at the length of the buffer only. *)
Lemma rows_in_length buf buf' ofs stride line rows :
  length buf' = length buf ->
  rows_in buf ofs stride line rows -> rows_in buf' ofs stride line rows.
Proof. intros Hlen H y Hy. rewrite Hlen. now apply H. Qed.

Section CloneCases.

Variables (self : XImage) (W : World).

Lemma Clone_null : is_null (mData self) = true -> Clone self W = Some (None, W).
Proof. intros H. unfold Clone. now rewrite H. Qed.

Lemma Clone_refused W1 :
  is_null (mData self) = false ->
  Allocate (mWidth self) (mHeight self) (mFormat self) false W = Some (None, W1) ->
  Clone self W = Some (None, W1).
Proof.
  intros Hn Ha. unfold Clone. rewrite Hn. now rewrite (bind_run _ _ _ _ _ Ha).
Qed.

Lemma Clone_success bs os sbuf bpp gs :
  mData self = Ptr bs os ->
  mem W !! bs = Some (Some sbuf) ->
  XImageBitsPerPixel (mFormat self) = Some bpp ->
  rows_in sbuf os (mStride self)
          (XImageBytesPerLine (bits_per_line (mWidth self) bpp)) (mHeight self) ->
  allocation_holds_rows (mWidth self) (mHeight self) bpp ->
  grants W = true :: true :: gs ->
  exists cbuf,
    Clone self W = Some (Some (length (objs W)), Clone_world self W bpp cbuf gs)
    /\ rows_in cbuf 0 (Allocate_stride (mWidth self) bpp)
               (XImageBytesPerLine (bits_per_line (mWidth self) bpp)) (mHeight self)
    /\ (forall y k, 0 <= y < mHeight self ->
          0 <= k < XImageBytesPerLine (bits_per_line (mWidth self) bpp) ->
          cbuf !! Z.to_nat (0 + y * Allocate_stride (mWidth self) bpp + k)
            = sbuf !! Z.to_nat (os + y * mStride self + k)).
Proof.
  intros Hd Hs Hb Hrows [Hline Hroom] Hg.
  set (line := XImageBytesPerLine (bits_per_line (mWidth self) bpp)) in *.
  set (stride := Allocate_stride (mWidth self) bpp) in *.
  set (W1 := Allocate_world (mWidth self) (mHeight self) (mFormat self) false W bpp gs).
  set (fresh := fresh_content false (Allocate_size (mWidth self) (mHeight self) bpp)).
  assert (bs < length (mem W))%nat as Hbs by (eapply lookup_lt_Some; eauto).
  destruct (copy_rows_distinct (Z.to_nat (mHeight self)) W1 (length (mem W)) 0
              bs os line (mStride self) stride sbuf fresh)
    as (cbuf & Hrun & Hlen & Hcopied & _).
  - lia.
  - cbn. now apply lookup_app_l_Some.
  - cbn. now apply list_lookup_middle.
  - split; [apply XImageBytesPerLine_range|exact Hline].
  - now apply rows_in_to_nat.
  - apply rows_in_to_nat. exact Hroom.
  - exists cbuf. split; [|split].
    + unfold Clone. rewrite Hd. cbn [is_null].
      rewrite (bind_run _ _ _ _ _ (Allocate_granted _ _ _ false W bpp gs Hb Hg)).
      fold W1.
      assert (CopyData self (Some (length (objs W))) W1
              = Some (Success, Clone_world self W bpp cbuf gs)) as Hcd.
      { rewrite (CopyData_loop self W1 _ (clone_image self W bpp) 1%nat bpp).
        - cbn [mData clone_image]. rewrite Hd. fold line. fold stride.
          change (mStride (clone_image self W bpp)) with stride. rewrite Hrun.
          unfold Clone_world. f_equal. f_equal.
          cbn. f_equal.
          replace (length (mem W)) with (length (mem W) + 0)%nat at 1 by lia.
          now rewrite insert_app_r.
        - cbn. now apply list_lookup_middle.
        - now rewrite Hd.
        - reflexivity.
        - apply same_parameters_true. cbn. auto.
        - exact Hb. }
      now rewrite (bind_run _ _ _ _ _ Hcd).
    + exact (rows_in_length _ _ _ _ _ _ Hlen Hroom).
    + intros y k Hy Hk. apply Hcopied; lia.
Qed.

End CloneCases.

(** ** Letting go of a handle *)

Section Release.

Variable W : World.

Lemma release_shared o img n :
  objs W !! o = Some (Some (img, S (S n))) ->
  release (Some o) W
    = Some (tt, mkWorld (mem W) (<[o := Some (img, S n)]> (objs W)) (grants W)).
Proof. intros H. unfold release. now rewrite H. Qed.

Lemma release_last o img :
  objs W !! o = Some (Some (img, 1%nat)) ->
  release (Some o) W
    = XImage_destroy img (mkWorld (mem W) (<[o := None]> (objs W)) (grants W)).
Proof. intros H. unfold release. now rewrite H. Qed.

(** The last holder of an image that does not own its buffer: memory is
    not touched. *)
Lemma release_last_borrowed o img :
  objs W !! o = Some (Some (img, 1%nat)) ->
  mOwnMemory img = false ->
  release (Some o) W
    = Some (tt, mkWorld (mem W) (<[o := None]> (objs W)) (grants W)).
Proof.
  intros H Hown. rewrite (release_last _ _ H). unfold XImage_destroy.
  now rewrite Hown.
Qed.

(** The last holder of an image that owns its buffer: the block is freed. *)
Lemma release_last_owned o img b buf :
  objs W !! o = Some (Some (img, 1%nat)) ->
  mOwnMemory img = true ->
  mData img = Ptr b 0 ->
  mem W !! b = Some (Some buf) ->
  release (Some o) W
    = Some (tt, mkWorld (<[b := None]> (mem W)) (<[o := None]> (objs W)) (grants W)).
Proof.
  intros H Hown Hd Hb. rewrite (release_last _ _ H). unfold XImage_destroy.
  rewrite Hown, Hd. cbn. now rewrite Hb.
Qed.

Lemma release_spec h :
  releasable W h ->
  exists W',
    release h W = Some (tt, W')
    /\ grants W' = grants W
    /\ length (objs W') = length (objs W)
    /\ length (mem W') = length (mem W)
    /\ (forall o, h <> Some o -> objs W' !! o = objs W !! o)
    /\ (forall o img n, h = Some o -> objs W !! o = Some (Some (img, S n)) ->
          objs W' !! o = Some (match n with O => None | S _ => Some (img, n) end))
    /\ (forall b,
          (forall o img, h = Some o -> objs W !! o = Some (Some (img, 1%nat)) ->
             mOwnMemory img = true -> mData img <> Ptr b 0) ->
          mem W' !! b = mem W !! b).
Proof.
  destruct h as [o|]; cbn [releasable].
  2:{ intros _. exists W. repeat split; try reflexivity. intros ? ? ? [=]. }
  intros (img & n & Ho & Hfree).
  assert (o < length (objs W))%nat as Hlt by (eapply lookup_lt_Some; eauto).
  assert (forall x o', Some o <> Some o' -> <[o := x]> (objs W) !! o' = objs W !! o')
    as Hother by (intros x o' Hne; apply list_lookup_insert_ne; congruence).
  destruct n as [|n].
  - destruct (mOwnMemory img && negb (is_null (mData img))) eqn:E.
    + apply andb_true_iff in E as [Hown Hnn]. apply negb_true_iff in Hnn.
      destruct (Hfree eq_refl Hown Hnn) as (b & buf & Hd & Hb).
      eexists. split; [exact (release_last_owned o img b buf Ho Hown Hd Hb)|].
      cbn. rewrite !length_insert. repeat split; auto.
      * intros o' img' n' [= <-] Ho'. rewrite Ho in Ho'. injection Ho' as <- <-.
        now apply list_lookup_insert_eq.
      * intros b' Hb'. apply list_lookup_insert_ne.
        specialize (Hb' o img eq_refl Ho Hown). congruence.
    + eexists. split.
      { rewrite (release_last _ _ Ho). unfold XImage_destroy. rewrite E. reflexivity. }
      cbn. rewrite !length_insert. repeat split; auto.
      intros o' img' n' [= <-] Ho'. rewrite Ho in Ho'. injection Ho' as <- <-.
      now apply list_lookup_insert_eq.
  - eexists. split; [exact (release_shared o img n Ho)|].
    cbn. rewrite !length_insert. repeat split; auto.
    intros o' img' n' [= <-] Ho'. rewrite Ho in Ho'. injection Ho' as <- <-.
    now apply list_lookup_insert_eq.
Qed.

End Release.

(** Appending objects and blocks, or rewriting a live block, keeps a
    handle releasable. *)
Lemma releasable_mono W W' h :
  (forall o x, objs W !! o = Some (Some x) -> objs W' !! o = Some (Some x)) ->
  (forall b buf, mem W !! b = Some (Some buf) ->
                 exists buf', mem W' !! b = Some (Some buf')) ->
  releasable W h -> releasable W' h.
Proof.
  intros Hobjs Hmem. destruct h as [o|]; [|trivial].
  intros (img & n & Ho & Hfree). exists img, n. split; [now apply Hobjs|].
  intros Hn Hown Hnn. destruct (Hfree Hn Hown Hnn) as (b & buf & Hd & Hb).
  destruct (Hmem b buf Hb) as [buf' Hb']. eauto.
Qed.

(** ** Relations every step of a computation preserves *)

Section Preservation.

Variable R : World -> World -> Prop.
Hypothesis R_refl : forall w, R w w.
Hypothesis R_trans : forall a b c, R a b -> R b c -> R a c.
(** [R] admits every rewriting of memory that keeps the number of blocks. *)
Hypothesis R_mem : forall w m',
  length m' = length (mem w) -> R w (mkWorld m' (objs w) (grants w)).

Lemma preserves_ret {A : Type} (x : A) : preserves R (mret x : M A).
Proof. intros w a w' [= _ <-]. apply R_refl. Qed.

Lemma preserves_bind {A B : Type} (m : M A) (k : A -> M B) :
  preserves R m -> (forall a, preserves R (k a)) -> preserves R (m ≫= k).
Proof.
  intros Hm Hk w b w2 H. apply bind_inv in H as (a & w1 & H1 & H2).
  eapply R_trans; [eapply Hm | eapply Hk]; eauto.
Qed.

Lemma preserves_lift {A : Type} (o : option A) : preserves R (lift o).
Proof. intros w a w' H. apply lift_inv in H as [_ ->]. apply R_refl. Qed.

Lemma preserves_undefined {A : Type} : preserves R (undefined : M A).
Proof. intros w a w' [=]. Qed.

Lemma preserves_deref o : preserves R (deref o).
Proof.
  intros w a w' H. unfold deref in H.
  destruct (objs w !! o) as [[[img n]|]|]; try discriminate.
  injection H as _ <-. apply R_refl.
Qed.

Lemma preserves_read_block b : preserves R (read_block b).
Proof.
  intros w a w' H. unfold read_block in H.
  destruct (mem w !! b) as [[buf|]|]; try discriminate.
  injection H as _ <-. apply R_refl.
Qed.

Lemma preserves_write_block b buf : preserves R (write_block b buf).
Proof.
  intros w a w' [= _ <-]. apply R_mem. apply length_insert.
Qed.

Lemma preserves_memcpy dst src n : preserves R (memcpy dst src n).
Proof.
  unfold memcpy. destruct dst as [|bd od]; [apply preserves_undefined|].
  destruct src as [|bs os]; [apply preserves_undefined|].
  destruct (overlap bd od bs os n); [apply preserves_undefined|].
  repeat (apply preserves_bind; [|intros ?]);
    auto using preserves_read_block, preserves_lift, preserves_write_block.
Qed.

Lemma preserves_copy_rows rows : forall dst src line ss ds,
  preserves R (copy_rows rows dst src line ss ds).
Proof.
  induction rows as [|rows IH]; intros dst src line ss ds; cbn [copy_rows].
  - apply preserves_ret.
  - apply preserves_bind; [apply preserves_memcpy|]. intros _. apply IH.
Qed.

Lemma preserves_CopyData self copyTo : preserves R (CopyData self copyTo).
Proof.
  unfold CopyData. destruct (mData self); [apply preserves_ret|].
  destruct copyTo as [o|]; [|apply preserves_ret].
  apply preserves_bind; [apply preserves_deref|]. intros dst.
  destruct (is_null (mData dst)); [apply preserves_ret|].
  destruct (negb (same_parameters _ dst)); [apply preserves_ret|].
  apply preserves_bind; [apply preserves_lift|]. intros bpp.
  apply preserves_bind; [apply preserves_copy_rows|]. intros _.
  apply preserves_ret.
Qed.

End Preservation.

(** *** No reallocation *)

Lemma CopyData_same_allocation self copyTo W r W' :
  CopyData self copyTo W = Some (r, W') -> same_allocation W W'.
Proof.
  apply (preserves_CopyData same_allocation).
  - intros w. unfold same_allocation. auto.
  - intros a b c (H1 & H2 & H3) (H4 & H5 & H6). unfold same_allocation.
    repeat split; congruence.
  - intros w m' Hm. unfold same_allocation. cbn. auto.
Qed.

(** *** The data members of an object never change *)

Section Evolves.

Lemma evolves_refl W : evolves W W.
Proof. intros o. destruct (objs W !! o) as [[[img n]|]|]; eauto. Qed.

Lemma evolves_trans W1 W2 W3 : evolves W1 W2 -> evolves W2 W3 -> evolves W1 W3.
Proof.
  intros H12 H23 o. specialize (H12 o). specialize (H23 o).
  destruct (objs W1 !! o) as [[[img n]|]|]; [| |trivial].
  - destruct H12 as [H|[n' H]]; rewrite H in H23; auto.
  - now rewrite H12 in H23.
Qed.

Lemma evolves_same_objs W W' : objs W' = objs W -> evolves W W'.
Proof. intros H o. rewrite H. destruct (objs W !! o) as [[[img n]|]|]; eauto. Qed.

Lemma evolves_mem W m' :
  length m' = length (mem W) -> evolves W (mkWorld m' (objs W) (grants W)).
Proof. intros _. now apply evolves_same_objs. Qed.

Lemma evolves_new_object W x m g : evolves W (mkWorld m (objs W ++ [x]) g).
Proof.
  intros o. cbn. destruct (objs W !! o) as [[[img n]|]|] eqn:E; [| |trivial].
  - right. exists n. now apply lookup_app_l_Some.
  - now apply lookup_app_l_Some.
Qed.

Lemma evolves_update W o img n x m g :
  objs W !! o = Some (Some (img, n)) ->
  (x = None \/ exists n', x = Some (img, n')) ->
  evolves W (mkWorld m (<[o := x]> (objs W)) g).
Proof.
  intros Ho Hx o'. cbn. destruct (Nat.eq_dec o o') as [<-|Hne].
  - rewrite Ho. rewrite list_lookup_insert_eq by (eapply lookup_lt_Some; eauto).
    destruct Hx as [->|[n' ->]]; eauto.
  - rewrite list_lookup_insert_ne by exact Hne.
    destruct (objs W !! o') as [[[img' n']|]|]; eauto.
Qed.

Abbreviation keeps := (preserves evolves).

Lemma keeps_ret {A : Type} (x : A) : keeps (mret x : M A).
Proof. apply preserves_ret, evolves_refl. Qed.

Lemma keeps_bind {A B : Type} (m : M A) (k : A -> M B) :
  keeps m -> (forall a, keeps (k a)) -> keeps (m ≫= k).
Proof. apply preserves_bind, evolves_trans. Qed.

Lemma keeps_deref o : keeps (deref o).
Proof. apply preserves_deref, evolves_refl. Qed.

Lemma keeps_next_grant : keeps next_grant.
Proof.
  intros w a w' H. unfold next_grant in H. apply evolves_same_objs.
  destruct (grants w); injection H as _ <-; reflexivity.
Qed.

Lemma keeps_new_block content : keeps (new_block content).
Proof. intros w a w' [= _ <-]. now apply evolves_same_objs. Qed.

Lemma keeps_malloc size : keeps (malloc size).
Proof.
  apply keeps_bind; [apply keeps_next_grant|]. intros [|].
  - apply keeps_new_block.
  - apply keeps_ret.
Qed.

Lemma keeps_calloc n size : keeps (calloc n size).
Proof.
  apply keeps_bind; [apply keeps_next_grant|]. intros [|].
  - apply keeps_new_block.
  - apply keeps_ret.
Qed.

Lemma keeps_free p : keeps (free p).
Proof.
  intros w a w' H. apply evolves_same_objs. unfold free in H.
  destruct p as [|b [| |]]; try discriminate.
  - now injection H as _ <-.
  - destruct (mem w !! b) as [[buf|]|]; try discriminate. now injection H as _ <-.
Qed.

Lemma keeps_new_XImage img : keeps (new_XImage img).
Proof.
  apply keeps_bind; [apply keeps_next_grant|]. intros [|].
  - intros w a w' [= _ <-]. apply evolves_new_object.
  - apply keeps_ret.
Qed.

Lemma keeps_XImage_destroy img : keeps (XImage_destroy img).
Proof.
  unfold XImage_destroy. destruct (_ && _); [apply keeps_free|apply keeps_ret].
Qed.

Lemma keeps_release h : keeps (release h).
Proof.
  destruct h as [o|]; [|apply keeps_ret].
  intros w a w' H. unfold release in H.
  destruct (objs w !! o) as [[[img [|[|n]]]|]|] eqn:Ho; try discriminate.
  - eapply evolves_trans; [|eapply keeps_XImage_destroy; exact H].
    eapply evolves_update; eauto.
  - injection H as _ <-. eapply evolves_update; eauto.
Qed.

Lemma keeps_Allocate width height format zi : keeps (Allocate width height format zi).
Proof.
  unfold Allocate. apply keeps_bind; [apply preserves_lift, evolves_refl|]. intros bpp.
  apply keeps_bind.
  - destruct zi; [apply keeps_calloc|apply keeps_malloc].
  - intros data. destruct (is_null data); [apply keeps_ret|apply keeps_new_XImage].
Qed.

Lemma keeps_Create data width height stride format :
  keeps (Create data width height stride format).
Proof. apply keeps_new_XImage. Qed.

Lemma keeps_CopyData self copyTo : keeps (CopyData self copyTo).
Proof.
  apply preserves_CopyData; [apply evolves_refl|apply evolves_trans|apply evolves_mem].
Qed.

Lemma keeps_Clone self : keeps (Clone self).
Proof.
  unfold Clone. destruct (is_null (mData self)); [apply keeps_ret|].
  apply keeps_bind; [apply keeps_Allocate|]. intros [c|]; [|apply keeps_ret].
  apply keeps_bind; [apply keeps_CopyData|]. intros r.
  destruct r; try apply keeps_ret;
    (apply keeps_bind; [apply keeps_release|intros _; apply keeps_ret]).
Qed.

Lemma keeps_CopyDataOrClone self copyTo : keeps (CopyDataOrClone self copyTo).
Proof.
  unfold CopyDataOrClone. apply keeps_bind.
  - destruct copyTo as [o|]; [|apply keeps_ret].
    apply keeps_bind; [apply keeps_deref|].
    intros dst. apply keeps_ret.
  - intros [|].
    + apply keeps_bind; [apply keeps_Clone|]. intros clone.
      apply keeps_bind; [apply keeps_release|]. intros _. apply keeps_ret.
    + apply keeps_bind; [apply keeps_CopyData|]. intros r. apply keeps_ret.
Qed.

End Evolves.

(** * The properties *)

(** ** Format metadata *)

Lemma XImageBitsPerPixel_nonneg format bpp :
  XImageBitsPerPixel format = Some bpp -> 0 <= bpp < 2 ^ 32.
Proof.
  unfold XImageBitsPerPixel. destruct (_ >=? _).
  - intros [= <-]. apply u32_range.
  - destruct (sizes !! Z.to_nat format); [|discriminate].
    intros [= <-]. apply u32_range.
Qed.

(** C6. For every format tag [t] an [int] can hold, [XImageBitsPerPixel]
    reads inside its table (the result is [Some]) and returns 0, 8, 24, 32,
    8 for the tags 0 to 4 and 0 for every other tag, the negative ones
    included. *)
Theorem XImageBitsPerPixel_table (t : Z) :
  is_int32 t = true ->
  XImageBitsPerPixel t
    = Some (match t with 0 => 0 | 1 => 8 | 2 => 24 | 3 => 32 | 4 => 8 | _ => 0 end).
Proof.
  intros H. apply is_int32_spec in H.
  destruct (Z_lt_dec t 0) as [Hneg|Hpos].
  - unfold XImageBitsPerPixel.
    assert ((usize t >=? Z.of_nat (length sizes)) = true) as ->.
    { rewrite Z.geb_leb. apply Z.leb_le. unfold usize.
      rewrite <- (Z.mod_add t 1) by lia. rewrite Z.mod_small; cbn; lia. }
    destruct t; try lia. reflexivity.
  - destruct (Z_lt_dec t 5) as [Hlt|Hge].
    + assert (t = 0 \/ t = 1 \/ t = 2 \/ t = 3 \/ t = 4) as Ht by lia.
      destruct Ht as [->|[->|[->|[->| ->]]]]; reflexivity.
    + unfold XImageBitsPerPixel.
      assert ((usize t >=? Z.of_nat (length sizes)) = true) as ->.
      { rewrite Z.geb_leb. apply Z.leb_le. unfold usize.
        rewrite Z.mod_small; cbn; lia. }
      destruct t as [|p|p]; try lia.
      do 3 (destruct p as [p|p|]; try lia; try reflexivity).
  Qed.

Lemma XImageBitsPerPixel_table_negative :
  is_int32 (-1) = true /\ XImageBitsPerPixel (-1) = Some 0.
Proof.
  split; [reflexivity|]. exact (XImageBitsPerPixel_table (-1) eq_refl).
Defined.

(** ** Allocation *)

Lemma Allocate_world_object width height format zi W bpp gs :
  objs (Allocate_world width height format zi W bpp gs) !! length (objs W)
    = Some (Some (mkXImage (Ptr (length (mem W)) 0) width height
                           (Allocate_stride width bpp) format true, 1%nat)).
Proof. cbn. now apply list_lookup_middle. Qed.

Lemma Allocate_world_block width height format zi W bpp gs :
  mem (Allocate_world width height format zi W bpp gs) !! length (mem W)
    = Some (Some (fresh_content zi (Allocate_size width height bpp))).
Proof. cbn. now apply list_lookup_middle. Qed.

(** C5, as stated, fails. [Allocate( 536870909, 1, Grayscale8 )]: the line
    has 4294967272 bits, [bitsPerLine + 31] wraps to 7 in [uint32_t], the
    stride is 0 and the buffer has 0 bytes, while the line needs 536870909
    bytes. So it is not true that every successful [Allocate] with
    [width, height >= 0] and a recognized format gives a stride of at
    least the bytes of a line. *)
Lemma Allocate_stride_wraps :
  Allocate 536870909 1 1 false (mkWorld [] [] [true; true])
    = Some (Some 0%nat,
            mkWorld [Some []]
                    [Some (mkXImage (Ptr 0 0) 536870909 1 0 1 true, 1%nat)] [])
  /\ XImageBitsPerPixel 1 = Some 8
  /\ XImageBytesPerLine (bits_per_line 536870909 8) = 536870909
  /\ ~ (forall width height format zi W o W' img n bpp,
          0 <= width -> 0 <= height -> 1 <= format <= 4 ->
          Allocate width height format zi W = Some (Some o, W') ->
          objs W' !! o = Some (Some (img, n)) ->
          XImageBitsPerPixel format = Some bpp ->
          XImageBytesPerLine (bits_per_line width bpp) <= mStride img).
Proof.
  assert (Allocate 536870909 1 1 false (mkWorld [] [] [true; true])
    = Some (Some 0%nat,
            mkWorld [Some []]
                    [Some (mkXImage (Ptr 0 0) 536870909 1 0 1 true, 1%nat)] []))
    as Hrun by (vm_compute; reflexivity).
  split; [exact Hrun|]. split; [reflexivity|]. split; [reflexivity|].
  intros Hall.
  specialize (Hall 536870909 1 1 false _ _ _ _ _ 8 ltac:(lia) ltac:(lia) ltac:(lia)
                Hrun eq_refl eq_refl).
  vm_compute in Hall. now apply Hall.
Qed.

(** The image of that call cannot be cloned: the clone gets a buffer of 0
    bytes as well, and the copy of the first row, 536870909 bytes long,
    leaves both blocks. *)
Example Clone_leaves_block :
  Clone (mkXImage (Ptr 0 0) 536870909 1 0 1 true)
        (mkWorld [Some []] [Some (mkXImage (Ptr 0 0) 536870909 1 0 1 true, 1%nat)]
                 [true; true])
    = None.
Proof. vm_compute. reflexivity. Qed.

(** The byte count has its own limit. [Allocate( 16384, 65536, RGBA32 )]
    has stride 65536; [height * stride] is 2^32, which the [int32_t]
    product gives as 0: 0 bytes are asked for, not 2^32. *)
Example Allocate_size_wraps :
  Allocate 16384 65536 3 false (mkWorld [] [] [true; true])
    = Some (Some 0%nat,
            mkWorld [Some []]
                    [Some (mkXImage (Ptr 0 0) 16384 65536 65536 3 true, 1%nat)] []).
Proof. vm_compute. reflexivity. Qed.

(** C5, amended. For all [width, height >= 0] and every format whose
    computations stay within 32 bits ([width * bitsPerPixel + 31 < 2^32]
    and [height * stride < 2^31]), a successful [Allocate] produces an
    owned image with the given width, height and format whose stride is
    [XImageBytesPerStride( width * bitsPerPixel )], at least the bytes of
    a line, a multiple of 4, the bit width rounded up to the next multiple
    of 32 and counted in bytes, and whose buffer is a fresh block of
    exactly [height * stride] bytes. *)
Theorem Allocate_layout (width height : Z) (format : XPixelFormat) (zi : bool)
    (bpp : Z) (W W' : World) (o : nat) :
  0 <= width -> 0 <= height ->
  XImageBitsPerPixel format = Some bpp ->
  width * bpp + 31 < 2 ^ 32 ->
  height * XImageBytesPerStride (width * bpp) < 2 ^ 31 ->
  Allocate width height format zi W = Some (Some o, W') ->
  let stride := XImageBytesPerStride (width * bpp) in
  exists b buf,
    objs W' !! o
      = Some (Some (mkXImage (Ptr b 0) width height stride format true, 1%nat))
    /\ mem W !! b = None
    /\ mem W' !! b = Some (Some buf)
    /\ Z.of_nat (length buf) = height * stride
    /\ XImageBytesPerLine (width * bpp) <= stride
    /\ stride mod 4 = 0
    /\ (width * bpp <= 8 * stride < width * bpp + 32 /\ (8 * stride) mod 32 = 0).
Proof.
  intros Hw Hh Hb Hbits Hsize Hrun stride.
  pose proof (XImageBitsPerPixel_nonneg _ _ Hb) as Hbpp.
  assert (bits_per_line width bpp = width * bpp) as Hbl
    by (apply bits_per_line_small; nia).
  assert (fits_allocation width height bpp) as Hfits
    by (unfold fits_allocation; rewrite Hbl; lia).
  apply Allocate_inv in Hrun as (bpp' & gs & Hb' & Hg & -> & ->).
  rewrite Hb in Hb'. injection Hb' as <-.
  exists (length (mem W)), (fresh_content zi (Allocate_size width height bpp)).
  rewrite Allocate_world_object, Allocate_world_block.
  rewrite (Allocate_stride_fits width bpp), (Allocate_size_fits _ _ _ Hfits Hh), Hbl.
  fold stride.
  assert (0 <= width * bpp) as Hnn by nia.
  assert (stride = 4 * ((width * bpp + 31) / 32)) as Hs.
  { unfold stride. rewrite XImageBytesPerStride_eq. now rewrite u32_small by lia. }
  pose proof (Z.div_mod (width * bpp + 31) 32 ltac:(lia)) as Hdm.
  pose proof (Z.mod_pos_bound (width * bpp + 31) 32 ltac:(lia)) as Hmb.
  repeat split.
  - apply lookup_ge_None_2. lia.
  - unfold fresh_content. rewrite length_replicate.
    assert (0 <= height * stride) by (rewrite Hs; nia). lia.
  - apply (stride_covers_line (width * bpp)); lia.
  - rewrite Hs, Z.mul_comm. apply Z.mod_mul. lia.
  - lia.
  - lia.
  - rewrite Hs. replace (8 * (4 * ((width * bpp + 31) / 32)))
      with ((width * bpp + 31) / 32 * 32) by lia.
    apply Z.mod_mul. lia.
Qed.

(** The second scenario of the description: [Allocate( 5, 2, RGB24 )] has 120
    bits a line, 15 bytes a line, stride 16 and a buffer of 32 bytes. *)
Lemma Allocate_layout_5x2_RGB24 :
  exists b buf,
    objs (Allocate_world 5 2 2 false (mkWorld [] [] [true; true]) 24 []) !! 0%nat
      = Some (Some (mkXImage (Ptr b 0) 5 2 16 2 true, 1%nat))
    /\ mem (Allocate_world 5 2 2 false (mkWorld [] [] [true; true]) 24 []) !! b
       = Some (Some buf)
    /\ Z.of_nat (length buf) = 32
    /\ XImageBytesPerLine (5 * 24) = 15.
Proof.
  destruct (Allocate_layout 5 2 2 false 24 (mkWorld [] [] [true; true])
              (Allocate_world 5 2 2 false (mkWorld [] [] [true; true]) 24 []) 0%nat)
    as (b & buf & Ho & _ & Hm & Hlen & _); try reflexivity; try lia.
  exists b, buf. split; [exact Ho|]. split; [exact Hm|]. split; [exact Hlen|reflexivity].
Defined.

(** C9. When the width is 0 or the format has 0 bits per pixel (an
    unrecognized tag), [Allocate] computes stride 0 and a buffer size of 0
    for every height; granted by the allocator, it returns a valid owned
    image whose buffer is a fresh block of zero bytes, and the line of such
    an image has 0 bytes, so no row holds a byte to copy. *)
Theorem Allocate_zero_size (width height : Z) (format : XPixelFormat) (zi : bool)
    (bpp : Z) (W : World) (gs : list bool) :
  XImageBitsPerPixel format = Some bpp ->
  width = 0 \/ bpp = 0 ->
  grants W = true :: true :: gs ->
  Allocate_stride width bpp = 0
  /\ Allocate_size width height bpp = 0
  /\ Allocate width height format zi W
     = Some (Some (length (objs W)),
             mkWorld (mem W ++ [Some []])
                     (objs W ++ [Some (mkXImage (Ptr (length (mem W)) 0) width height 0
                                                format true, 1%nat)])
                     gs)
  /\ XImageBytesPerLine (bits_per_line width bpp) = 0.
Proof.
  intros Hb Hz Hg.
  assert (bits_per_line width bpp = 0) as Hbits.
  { destruct Hz as [-> | ->]; [apply bits_per_line_0_l|apply bits_per_line_0_r]. }
  assert (Allocate_stride width bpp = 0) as Hs
    by (unfold Allocate_stride; rewrite Hbits; reflexivity).
  assert (Allocate_size width height bpp = 0) as Hsz
    by (unfold Allocate_size; rewrite Hs, Z.mul_0_r; reflexivity).
  split; [exact Hs|]. split; [exact Hsz|]. split.
  - rewrite (Allocate_granted _ _ _ _ _ bpp gs Hb Hg).
    unfold Allocate_world, fresh_content. rewrite Hs, Hsz. reflexivity.
  - rewrite Hbits. reflexivity.
Qed.

(** An unrecognized tag (7) with a large width and height. *)
Lemma Allocate_zero_size_unrecognized :
  Allocate 640 480 7 false (mkWorld [] [] [true; true])
    = Some (Some 0%nat,
            mkWorld [Some []] [Some (mkXImage (Ptr 0 0) 640 480 0 7 true, 1%nat)] []).
Proof.
  exact (proj1 (proj2 (proj2
    (Allocate_zero_size 640 480 7 false 0 (mkWorld [] [] [true; true]) []
       eq_refl (or_intror eq_refl) eq_refl)))).
Defined.

(** ** Ownership *)

Section Ownership.

Lemma keeps_exec c : preserves evolves (exec c).
Proof.
  destruct c; cbn [exec].
  - apply keeps_bind; [apply keeps_Allocate|intros _; apply keeps_ret].
  - apply keeps_bind; [apply keeps_Create|intros _; apply keeps_ret].
  - apply keeps_bind; [apply keeps_deref|intros img].
    apply keeps_bind; [apply keeps_Clone|intros _; apply keeps_ret].
  - apply keeps_bind; [apply keeps_deref|intros img].
    apply keeps_bind; [apply keeps_CopyData|intros _; apply keeps_ret].
  - apply keeps_bind; [apply keeps_deref|intros img].
    apply keeps_bind; [apply keeps_CopyDataOrClone|intros _; apply keeps_ret].
  - apply keeps_release.
Qed.

Lemma keeps_run cs : preserves evolves (run cs).
Proof.
  induction cs as [|c cs IH]; cbn [run].
  - apply keeps_ret.
  - apply keeps_bind; [apply keeps_exec|]. intros _. exact IH.
Qed.

Lemma Create_cases data width height stride format W :
  Create data width height stride format W =
    match grants W with
    | true :: gs =>
        Some (Some (length (objs W)),
              mkWorld (mem W)
                      (objs W ++ [Some (mkXImage data width height stride format false,
                                        1%nat)]) gs)
    | false :: gs => Some (None, mkWorld (mem W) (objs W) gs)
    | [] => Some (None, W)
    end.
Proof.
  unfold Create, new_XImage, new_object, mbind, M_bind, next_grant, mret, M_ret.
  destruct (grants W) as [|[] gs]; reflexivity.
Qed.

Lemma XImage_destroy_memory img W W' :
  XImage_destroy img W = Some (tt, W') ->
  objs W' = objs W
  /\ (mem W' <> mem W <-> mOwnMemory img = true /\ is_null (mData img) = false).
Proof.
  unfold XImage_destroy. destruct (mOwnMemory img); cbn [andb].
  - destruct (mData img) as [|b ofs]; cbn [negb is_null].
    + intros [= <-]. split; [reflexivity|]. split; [congruence|]. intros [_ [=]].
    + unfold free. destruct ofs; try discriminate.
      destruct (mem W !! b) as [[buf|]|] eqn:Hb; try discriminate.
      intros [= <-]. cbn. split; [reflexivity|]. split; [auto|]. intros _ Heq.
      assert (<[b := None]> (mem W) !! b = Some None) as Hl
        by (apply list_lookup_insert_eq; eapply lookup_lt_Some; eauto).
      rewrite Heq, Hb in Hl. discriminate.
  - intros [= <-]. split; [reflexivity|]. split; [congruence|]. intros [[=] _].
Qed.

End Ownership.

(** C7. An image made by [Allocate] has [mOwnMemory = true], one made by
    [Create] has [mOwnMemory = false]. No sequence of calls changes a data
    member of an object that is alive before and after it, [mOwnMemory]
    among them. The destructor changes memory if and only if the image
    owns its buffer and the buffer is not null. Dropping the only handle
    of a wrapped image leaves memory as it was before [Create]; dropping
    the only handle of an allocated image frees its block; dropping a
    handle that is not the last frees nothing. *)
Theorem ownership_flag :
  (forall width height format zi W o W',
      Allocate width height format zi W = Some (Some o, W') ->
      exists img, objs W' !! o = Some (Some (img, 1%nat)) /\ mOwnMemory img = true)
  /\ (forall data width height stride format W o W',
      Create data width height stride format W = Some (Some o, W') ->
      exists img, objs W' !! o = Some (Some (img, 1%nat))
                  /\ mOwnMemory img = false /\ mData img = data)
  /\ (forall cs W W' o img n img' n',
      run cs W = Some (tt, W') ->
      objs W !! o = Some (Some (img, n)) -> objs W' !! o = Some (Some (img', n')) ->
      img' = img)
  /\ (forall img W W',
      XImage_destroy img W = Some (tt, W') ->
      (mem W' <> mem W <-> mOwnMemory img = true /\ is_null (mData img) = false))
  /\ (forall data width height stride format W o W1,
      Create data width height stride format W = Some (Some o, W1) ->
      exists W2, release (Some o) W1 = Some (tt, W2)
                 /\ mem W2 = mem W /\ objs W2 !! o = Some None)
  /\ (forall width height format zi W o W1,
      Allocate width height format zi W = Some (Some o, W1) ->
      exists img b buf W2,
        objs W1 !! o = Some (Some (img, 1%nat)) /\ mData img = Ptr b 0
        /\ mem W1 !! b = Some (Some buf)
        /\ release (Some o) W1 = Some (tt, W2)
        /\ mem W2 !! b = Some None /\ objs W2 !! o = Some None)
  /\ (forall W o img n,
      objs W !! o = Some (Some (img, S (S n))) ->
      exists W', release (Some o) W = Some (tt, W')
                 /\ mem W' = mem W /\ objs W' !! o = Some (Some (img, S n))).
Proof.
  repeat apply conj.
  - intros width height format zi W o W' H.
    apply Allocate_inv in H as (bpp & gs & _ & _ & -> & ->).
    eexists. split; [apply Allocate_world_object|reflexivity].
  - intros data width height stride format W o W' H.
    rewrite Create_cases in H. destruct (grants W) as [|[] gs]; try discriminate.
    injection H as <- <-. eexists. split; [cbn; now apply list_lookup_middle|auto].
  - intros cs W W' o img n img' n' Hrun Ho Ho'.
    pose proof (keeps_run cs W tt W' Hrun o) as He. rewrite Ho in He.
    destruct He as [He|[n'' He]]; congruence.
  - intros img W W' H. now apply XImage_destroy_memory in H.
  - intros data width height stride format W o W1 H.
    rewrite Create_cases in H. destruct (grants W) as [|[] gs]; try discriminate.
    injection H as <- <-. eexists. split.
    + apply release_last_borrowed
        with (img := mkXImage data width height stride format false);
        [cbn; now apply list_lookup_middle|reflexivity].
    + cbn. split; [reflexivity|]. apply list_lookup_insert_eq.
      rewrite length_app. cbn. lia.
  - intros width height format zi W o W1 H.
    apply Allocate_inv in H as (bpp & gs & _ & _ & -> & ->).
    eexists _, (length (mem W)), _, _.
    split; [apply Allocate_world_object|]. split; [reflexivity|].
    split; [apply Allocate_world_block|]. split.
    + eapply release_last_owned;
        [apply Allocate_world_object|reflexivity|reflexivity|apply Allocate_world_block].
    + cbn. split; apply list_lookup_insert_eq; rewrite length_app; cbn; lia.
  - intros W o img n H. eexists. split; [exact (release_shared W o img n H)|].
    cbn. split; [reflexivity|]. apply list_lookup_insert_eq.
    eapply lookup_lt_Some; eauto.
Qed.

(** A wrapped block survives the only handle of its image; the block of an
    allocated image does not. *)
Lemma ownership_flag_wrap_and_allocate :
  (exists W2,
     release (Some 0%nat)
       (mkWorld [Some [Val Byte.x2a]]
                [Some (mkXImage (Ptr 0 0) 1 1 4 1 false, 1%nat)] [])
       = Some (tt, W2)
     /\ mem W2 = [Some [Val Byte.x2a]] /\ objs W2 !! 0%nat = Some None)
  /\ (exists img b buf W2,
        objs (Allocate_world 1 1 1 true (mkWorld [] [] [true; true]) 8 []) !! 0%nat
          = Some (Some (img, 1%nat)) /\ mData img = Ptr b 0
        /\ mem (Allocate_world 1 1 1 true (mkWorld [] [] [true; true]) 8 []) !! b
           = Some (Some buf)
        /\ release (Some 0%nat)
             (Allocate_world 1 1 1 true (mkWorld [] [] [true; true]) 8 [])
           = Some (tt, W2)
        /\ mem W2 !! b = Some None /\ objs W2 !! 0%nat = Some None).
Proof.
  destruct ownership_flag as (_ & _ & _ & _ & Hwrap & Halloc & _).
  split.
  - exact (Hwrap (Ptr 0 0) 1 1 4 1 (mkWorld [Some [Val Byte.x2a]] [] [true]) 0%nat _
             eq_refl).
  - exact (Halloc 1 1 1 true (mkWorld [] [] [true; true]) 0%nat _ eq_refl).
Defined.

(** ** Copying *)

Lemma image_of_some W h img :
  image_of W h = Some img -> exists o n, h = Some o /\ objs W !! o = Some (Some (img, n)).
Proof.
  destruct h as [o|]; [|discriminate]. cbn.
  destruct (objs W !! o) as [[[img' n]|]|] eqn:E; try discriminate.
  intros [= ->]. exists o, n. auto.
Qed.

(** The loop runs to its end when every row lies inside its block. *)
Lemma copy_rows_defined rows :
  forall W bd od bs os line ss ds sbuf dbuf,
  bs <> bd ->
  mem W !! bs = Some (Some sbuf) -> mem W !! bd = Some (Some dbuf) ->
  0 <= line ->
  rows_in sbuf os ss line (Z.of_nat rows) ->
  rows_in dbuf od ds line (Z.of_nat rows) ->
  exists dbuf',
    copy_rows rows (Ptr bd od) (Ptr bs os) line ss ds W
      = Some (tt, mkWorld (<[bd := Some dbuf']> (mem W)) (objs W) (grants W))
    /\ length dbuf' = length dbuf.
Proof.
  induction rows as [|rows IH];
    intros W bd od bs os line ss ds sbuf dbuf Hne Hs Hd Hline Hsrc Hdst.
  - exists dbuf. split; [|reflexivity].
    cbn. unfold mret, M_ret. rewrite list_insert_id by exact Hd. now rewrite World_eta.
  - pose proof (Hsrc 0 ltac:(lia)) as Hs0. pose proof (Hdst 0 ltac:(lia)) as Hd0.
    destruct (memcpy_distinct W bd od bs os line sbuf dbuf)
      as (dbuf1 & Hcpy & Hlen1 & _); try assumption; try lia.
    assert (bd < length (mem W))%nat as Hbd by (eapply lookup_lt_Some; eauto).
    destruct (IH (mkWorld (<[bd := Some dbuf1]> (mem W)) (objs W) (grants W))
                 bd (od + ds) bs (os + ss) line ss ds sbuf dbuf1)
      as (dbuf' & Hrun & Hlen'); try assumption.
    + cbn. rewrite list_lookup_insert_ne by congruence. exact Hs.
    + cbn. now apply list_lookup_insert_eq.
    + intros y Hy. specialize (Hsrc (y + 1) ltac:(lia)). lia.
    + intros y Hy. specialize (Hdst (y + 1) ltac:(lia)). rewrite Hlen1. lia.
    + exists dbuf'. split; [|congruence].
      cbn [copy_rows ptr_add]. rewrite (bind_run _ _ _ _ _ Hcpy), Hrun.
      cbn. now rewrite list_insert_insert_eq.
Qed.

(** C3. [CopyData] returns [NullPointer] when the destination handle is
    empty or the buffer of the source or of the destination is null;
    otherwise [ImageParametersMismatch] when the two images differ in
    width, height or format; otherwise, the rows of both images lying
    inside their (distinct) blocks, [Success]. Whenever it returns
    something else than [Success] the world, the bytes of the destination
    among it, is the one it started from. *)
Theorem CopyData_result (self : XImage) (copyTo : handle) (W : World) :
  (copyTo = None -> CopyData self copyTo W = Some (NullPointer, W))
  /\ (forall dst, image_of W copyTo = Some dst ->
        is_null (mData self) = true \/ is_null (mData dst) = true ->
        CopyData self copyTo W = Some (NullPointer, W))
  /\ (forall dst, image_of W copyTo = Some dst ->
        is_null (mData self) = false -> is_null (mData dst) = false ->
        mWidth self <> mWidth dst \/ mHeight self <> mHeight dst
          \/ mFormat self <> mFormat dst ->
        CopyData self copyTo W = Some (ImageParametersMismatch, W))
  /\ (forall dst bs os bd od sbuf dbuf bpp,
        image_of W copyTo = Some dst ->
        mData self = Ptr bs os -> mData dst = Ptr bd od ->
        mWidth self = mWidth dst -> mHeight self = mHeight dst ->
        mFormat self = mFormat dst ->
        XImageBitsPerPixel (mFormat self) = Some bpp ->
        mem W !! bs = Some (Some sbuf) -> mem W !! bd = Some (Some dbuf) -> bs <> bd ->
        rows_in sbuf os (mStride self)
                (XImageBytesPerLine (bits_per_line (mWidth self) bpp)) (mHeight self) ->
        rows_in dbuf od (mStride dst)
                (XImageBytesPerLine (bits_per_line (mWidth self) bpp)) (mHeight self) ->
        exists W', CopyData self copyTo W = Some (Success, W'))
  /\ (forall r W', CopyData self copyTo W = Some (r, W') -> r <> Success -> W' = W).
Proof.
  repeat apply conj.
  - intros ->. apply CopyData_empty_handle.
  - intros dst Hdst Hnull. apply image_of_some in Hdst as (o & n & -> & Ho).
    destruct Hnull as [Hn|Hn].
    + now apply CopyData_null_source.
    + eapply CopyData_null_destination; eauto.
  - intros dst Hdst Hs Hd Hdiff. apply image_of_some in Hdst as (o & n & -> & Ho).
    eapply CopyData_mismatch; eauto. now apply same_parameters_false.
  - intros dst bs os bd od sbuf dbuf bpp Hdst Hs Hd Hw Hh Hf Hb Hsb Hdb Hne Hrs Hrd.
    apply image_of_some in Hdst as (o & n & -> & Ho).
    destruct (copy_rows_defined (Z.to_nat (mHeight self)) W bd od bs os
                (XImageBytesPerLine (bits_per_line (mWidth self) bpp))
                (mStride self) (mStride dst) sbuf dbuf)
      as (dbuf' & Hrun & _); auto using rows_in_to_nat.
    { apply XImageBytesPerLine_range. }
    eexists. rewrite (CopyData_loop self W o dst n bpp); auto.
    + rewrite Hs, Hd, Hrun. reflexivity.
    + now rewrite Hs.
    + now rewrite Hd.
    + now apply same_parameters_true.
  - intros r W'. apply CopyData_failure_unchanged.
Qed.

(** A source of one size and a destination of another: the mismatch is
    reported and nothing is written. *)
Lemma CopyData_result_mismatch :
  CopyData (mkXImage (Ptr 0 0) 2 1 4 1 false) (Some 0%nat)
           (mkWorld [Some (replicate 4 (Val Byte.x01)); Some (replicate 4 Undef)]
                    [Some (mkXImage (Ptr 1 0) 1 1 4 1 false, 1%nat)] [])
    = Some (ImageParametersMismatch,
            mkWorld [Some (replicate 4 (Val Byte.x01)); Some (replicate 4 Undef)]
                    [Some (mkXImage (Ptr 1 0) 1 1 4 1 false, 1%nat)] []).
Proof.
  destruct (CopyData_result (mkXImage (Ptr 0 0) 2 1 4 1 false) (Some 0%nat)
              (mkWorld [Some (replicate 4 (Val Byte.x01)); Some (replicate 4 Undef)]
                       [Some (mkXImage (Ptr 1 0) 1 1 4 1 false, 1%nat)] []))
    as (_ & _ & Hmis & _).
  apply (Hmis (mkXImage (Ptr 1 0) 1 1 4 1 false)); try reflexivity.
  left. cbn. lia.
Defined.

(** What the loop of [CopyData] leaves in the destination. *)
Lemma CopyData_copies self W o dst n bs os bd od sbuf dbuf bpp :
  objs W !! o = Some (Some (dst, n)) ->
  mData self = Ptr bs os -> mData dst = Ptr bd od ->
  same_parameters self dst = true ->
  XImageBitsPerPixel (mFormat self) = Some bpp ->
  mem W !! bs = Some (Some sbuf) -> mem W !! bd = Some (Some dbuf) -> bs <> bd ->
  let line := XImageBytesPerLine (bits_per_line (mWidth self) bpp) in
  rows_in sbuf os (mStride self) line (mHeight self) ->
  rows_in dbuf od (mStride dst) line (mHeight self) ->
  line <= mStride dst ->
  exists dbuf',
    CopyData self (Some o) W
      = Some (Success, mkWorld (<[bd := Some dbuf']> (mem W)) (objs W) (grants W))
    /\ length dbuf' = length dbuf
    /\ (forall y k, 0 <= y < mHeight self -> 0 <= k < line ->
          dbuf' !! Z.to_nat (od + y * mStride dst + k)
            = sbuf !! Z.to_nat (os + y * mStride self + k))
    /\ (forall i, outside_rows od (mStride dst) line (mHeight self) i ->
          dbuf' !! i = dbuf !! i).
Proof.
  intros Ho Hs Hd Hp Hb Hsb Hdb Hne line Hrs Hrd Hline.
  destruct (copy_rows_distinct (Z.to_nat (mHeight self)) W bd od bs os line
              (mStride self) (mStride dst) sbuf dbuf)
    as (dbuf' & Hrun & Hlen & Hrows & Hout); auto using rows_in_to_nat.
  { pose proof (XImageBytesPerLine_range (bits_per_line (mWidth self) bpp)).
    fold line in H. lia. }
  exists dbuf'. split; [|split; [exact Hlen|split]].
  - rewrite (CopyData_loop self W o dst n bpp); auto.
    + fold line. rewrite Hs, Hd, Hrun. reflexivity.
    + now rewrite Hs.
    + now rewrite Hd.
  - intros y k Hy Hk. apply Hrows; lia.
  - intros i Hi. apply Hout. intros y Hy. apply Hi. lia.
Qed.


(** Twelve bytes a row go to the offsets 0, 16 and 32; the four bytes of
    padding after each row keep their 0xff. *)
Example scenario_outcome :
  CopyData scenario_source (Some 0%nat) scenario_world
    = Some (Success,
            mkWorld [Some scenario_source_bytes;
                     Some (take 12 scenario_source_bytes
                           ++ replicate 4 (Val Byte.xff)
                           ++ take 12 (drop 12 scenario_source_bytes)
                           ++ replicate 4 (Val Byte.xff)
                           ++ take 12 (drop 24 scenario_source_bytes)
                           ++ replicate 4 (Val Byte.xff))]
                    [Some (scenario_destination, 1%nat)] []).
Proof. vm_compute. reflexivity. Qed.


(** ** Cloning *)

Section CloneOutcome.

Variables (self : XImage) (W : World).

(** After a successful [Allocate] the row copy of [Clone] cannot report
    an error: the fresh image has a buffer and the parameters of the
    source. *)
Lemma Clone_copy_succeeds c W1 r W2 :
  is_null (mData self) = false ->
  Allocate (mWidth self) (mHeight self) (mFormat self) false W = Some (Some c, W1) ->
  CopyData self (Some c) W1 = Some (r, W2) ->
  r = Success.
Proof.
  intros Hn Ha Hc. apply Allocate_inv in Ha as (bpp & gs & Hb & _ & -> & ->).
  rewrite (CopyData_loop self _ _ (clone_image self W bpp) 1%nat bpp) in Hc;
    [|apply Allocate_world_object|exact Hn|reflexivity| |exact Hb].
  - destruct (copy_rows _ _ _ _ _ _ _) as [[[] W']|]; [|discriminate].
    now injection Hc as <- _.
  - apply same_parameters_true. cbn. auto.
Qed.


(** A non-empty result of [Clone] is a new object with one holder, which
    owns its buffer and has the width, height and format of the source. *)
Lemma Clone_inv c W1 :
  Clone self W = Some (Some c, W1) ->
  c = length (objs W)
  /\ exists bpp,
       XImageBitsPerPixel (mFormat self) = Some bpp
       /\ objs W1 = objs W ++ [Some (clone_image self W bpp, 1%nat)]
       /\ length (mem W1) = S (length (mem W)).
Proof.
  unfold Clone. destruct (is_null (mData self)) eqn:Hn; [discriminate|].
  intros H. apply bind_inv in H as (clone & Wa & Ha & H).
  destruct clone as [c'|]; [|discriminate].
  apply bind_inv in H as (r & Wc & Hc & H).
  pose proof (Clone_copy_succeeds _ _ _ _ Hn Ha Hc) as ->.
  injection H as <- <-.
  apply Allocate_inv in Ha as (bpp & gs & Hb & _ & -> & ->).
  split; [reflexivity|]. exists bpp. split; [exact Hb|].
  destruct (CopyData_same_allocation _ _ _ _ _ Hc) as (Ho & _ & Hl).
  rewrite Ho, Hl. cbn. rewrite length_app. cbn. split; [reflexivity|lia].
Qed.

(** An empty result of [Clone] has created no object. *)
Lemma Clone_empty W1 :
  Clone self W = Some (None, W1) ->
  objs W1 = objs W \/ exists x, objs W1 = objs W ++ [x].
Proof.
  unfold Clone. destruct (is_null (mData self)) eqn:Hn.
  { intros [= <-]. now left. }
  intros H. apply bind_inv in H as (clone & Wa & Ha & H).
  destruct clone as [c'|].
  - apply bind_inv in H as (r & Wc & Hc & H).
    pose proof (Clone_copy_succeeds _ _ _ _ Hn Ha Hc) as ->. discriminate.
  - injection H as <-. left. eapply Allocate_refused; eauto.
Qed.

End CloneOutcome.

(** *** A run that ends has stayed inside its blocks *)

Lemma load_bytes_inv buf ofs n bytes :
  load_bytes buf ofs n = Some bytes ->
  0 <= ofs /\ 0 <= n /\ ofs + n <= Z.of_nat (length buf)
  /\ length bytes = Z.to_nat n.
Proof.
  unfold load_bytes. destruct (in_bounds buf ofs n) eqn:E; [|discriminate].
  apply in_bounds_spec in E. intros [= <-].
  rewrite length_take, length_drop. lia.
Qed.

Lemma store_bytes_inv buf ofs bytes buf' :
  store_bytes buf ofs bytes = Some buf' ->
  0 <= ofs /\ ofs + Z.of_nat (length bytes) <= Z.of_nat (length buf)
  /\ length buf' = length buf.
Proof.
  intros H. unfold store_bytes in H.
  destruct (in_bounds buf ofs (Z.of_nat (length bytes))) eqn:E; [|discriminate].
  apply in_bounds_spec in E.
  destruct (store_bytes_some buf ofs bytes) as (buf2 & H2 & Hlen & _); try lia.
  unfold store_bytes in H2. rewrite (proj2 (in_bounds_spec _ _ _) E) in H2.
  rewrite H in H2. injection H2 as <-. lia.
Qed.

Lemma memcpy_inv bd od bs os n W W' sbuf dbuf :
  mem W !! bs = Some (Some sbuf) -> mem W !! bd = Some (Some dbuf) ->
  memcpy (Ptr bd od) (Ptr bs os) n W = Some (tt, W') ->
  (0 <= n /\ 0 <= os /\ os + n <= Z.of_nat (length sbuf)
   /\ 0 <= od /\ od + n <= Z.of_nat (length dbuf))
  /\ exists dbuf', length dbuf' = length dbuf
       /\ W' = mkWorld (<[bd := Some dbuf']> (mem W)) (objs W) (grants W).
Proof.
  intros Hs Hd H. unfold memcpy in H.
  destruct (overlap bd od bs os n); [discriminate|].
  unfold mbind, M_bind, read_block, write_block in H. rewrite Hs in H. cbn in H.
  unfold lift at 1 in H.
  destruct (load_bytes sbuf os n) as [bytes|] eqn:Hl; [|discriminate].
  rewrite Hd in H. cbn in H.
  destruct (store_bytes dbuf od bytes) as [dbuf'|] eqn:Hst; [|discriminate].
  injection H as <-.
  apply load_bytes_inv in Hl as (? & ? & ? & Hlen).
  apply store_bytes_inv in Hst as (? & ? & Hlen').
  split; [lia|]. exists dbuf'. auto.
Qed.

Lemma copy_rows_inv rows :
  forall W bd od bs os line ss ds sbuf dbuf W',
  bs <> bd ->
  mem W !! bs = Some (Some sbuf) -> mem W !! bd = Some (Some dbuf) ->
  copy_rows rows (Ptr bd od) (Ptr bs os) line ss ds W = Some (tt, W') ->
  rows_in sbuf os ss line (Z.of_nat rows) /\ rows_in dbuf od ds line (Z.of_nat rows).
Proof.
  induction rows as [|rows IH]; intros W bd od bs os line ss ds sbuf dbuf W' Hne Hs Hd H.
  - split; intros y Hy; lia.
  - cbn [copy_rows ptr_add] in H. apply bind_inv in H as ([] & W1 & Hcpy & H).
    destruct (memcpy_inv _ _ _ _ _ _ _ _ _ Hs Hd Hcpy) as (Hb & dbuf1 & Hlen & ->).
    assert (bd < length (mem W))%nat as Hbd by (eapply lookup_lt_Some; eauto).
    destruct (IH (mkWorld (<[bd := Some dbuf1]> (mem W)) (objs W) (grants W))
                bd (od + ds) bs (os + ss) line ss ds sbuf dbuf1 W' Hne) as [H1 H2].
    + cbn. rewrite list_lookup_insert_ne by congruence. exact Hs.
    + cbn. now apply list_lookup_insert_eq.
    + exact H.
    + split; intros y Hy; destruct (Z.eq_dec y 0) as [->|Hy0]; try lia.
      * specialize (H1 (y - 1) ltac:(lia)). lia.
      * specialize (H2 (y - 1) ltac:(lia)). rewrite Hlen in H2. lia.
Qed.

(** The stride is 0 (when [bits + 31] wraps) or covers the line. *)
Lemma stride_zero_or_covers bits :
  0 <= bits < 2 ^ 32 ->
  XImageBytesPerStride bits = 0
  \/ XImageBytesPerLine bits <= XImageBytesPerStride bits.
Proof.
  intros Hb. destruct (Z_lt_dec (bits + 31) (2 ^ 32)) as [Hlt|Hge].
  - right. apply stride_covers_line; lia.
  - left. rewrite XImageBytesPerStride_eq. unfold u32.
    rewrite <- (Z.mod_add (bits + 31) (-1)) by lia.
    rewrite Z.mod_small by lia. rewrite Z.div_small; lia.
Qed.

(** A buffer [Allocate] has made and that holds one row holds all the rows
    [CopyData] writes. *)
Lemma one_row_holds_rows width height bpp :
  0 < height ->
  rows_in (fresh_content false (Allocate_size width height bpp)) 0
          (Allocate_stride width bpp)
          (XImageBytesPerLine (bits_per_line width bpp)) height ->
  allocation_holds_rows width height bpp.
Proof.
  intros Hh Hrows. split; [|exact Hrows].
  pose proof (Hrows 0 ltac:(lia)) as [_ H0].
  unfold fresh_content in H0. rewrite length_replicate in H0.
  rewrite (Allocate_stride_fits width bpp) in *.
  destruct (stride_zero_or_covers (bits_per_line width bpp)
              (bits_per_line_range width bpp)) as [Hz|Hc]; [|exact Hc].
  unfold Allocate_size in H0.
  rewrite (Allocate_stride_fits width bpp), Hz, !Z.mul_0_r in H0.
  change (Z.of_nat (Z.to_nat (usize (i32 0)))) with 0 in H0. rewrite Hz. lia.
Qed.

(** Every non-empty result of [Clone] on an image whose buffer is a live
    block is the world of a clone whose rows are the rows of the image. *)
Lemma Clone_faithful self W bs os sbuf c W' :
  mData self = Ptr bs os ->
  mem W !! bs = Some (Some sbuf) ->
  Clone self W = Some (Some c, W') ->
  exists bpp cbuf gs,
    XImageBitsPerPixel (mFormat self) = Some bpp
    /\ c = length (objs W)
    /\ W' = Clone_world self W bpp cbuf gs
    /\ (forall y k, 0 <= y < mHeight self ->
          0 <= k < XImageBytesPerLine (bits_per_line (mWidth self) bpp) ->
          cbuf !! Z.to_nat (0 + y * Allocate_stride (mWidth self) bpp + k)
            = sbuf !! Z.to_nat (os + y * mStride self + k)).
Proof.
  intros Hd Hs H.
  assert (is_null (mData self) = false) as Hn by now rewrite Hd.
  assert (bs < length (mem W))%nat as Hbs by (eapply lookup_lt_Some; eauto).
  pose proof H as Hrun. unfold Clone in H. rewrite Hn in H.
  apply bind_inv in H as (clone & Wa & Ha & H).
  destruct clone as [c'|]; [|discriminate].
  apply bind_inv in H as (r & Wc & Hc & H).
  pose proof (Clone_copy_succeeds _ _ _ _ _ _ Hn Ha Hc) as ->.
  injection H as <- <-.
  apply Allocate_inv in Ha as (bpp & gs & Hb & Hg & -> & ->).
  exists bpp.
  rewrite (CopyData_loop self _ _ (clone_image self W bpp) 1%nat bpp) in Hc;
    [|apply Allocate_world_object|exact Hn|reflexivity| |exact Hb].
  2:{ apply same_parameters_true. cbn. auto. }
  destruct (copy_rows _ _ _ _ _ _ _) as [[[] Wr]|] eqn:Hrows; [|discriminate].
  injection Hc as <-.
  destruct (Z_lt_dec 0 (mHeight self)) as [Hpos|Hnonpos].
  - cbn [mData clone_image] in Hrows. rewrite Hd in Hrows.
    destruct (copy_rows_inv (Z.to_nat (mHeight self))
                (Allocate_world (mWidth self) (mHeight self) (mFormat self) false W bpp gs)
                (length (mem W)) 0 bs os
                (XImageBytesPerLine (bits_per_line (mWidth self) bpp))
                (mStride self) (Allocate_stride (mWidth self) bpp) sbuf
                (fresh_content false (Allocate_size (mWidth self) (mHeight self) bpp))
                Wr) as [Hsrc Hdst];
      [lia | cbn; now apply lookup_app_l_Some | cbn; now apply list_lookup_middle
      | exact Hrows |].
    rewrite Z2Nat.id in Hsrc, Hdst by lia.
    destruct (Clone_success self W bs os sbuf bpp gs Hd Hs Hb Hsrc
                (one_row_holds_rows _ _ _ Hpos Hdst) Hg) as (cbuf & Hclone & _ & Hcopied).
    rewrite Hclone in Hrun. injection Hrun as <-.
    exists cbuf, gs. auto.
  - replace (Z.to_nat (mHeight self)) with 0%nat in Hrows by lia.
    injection Hrows as <-.
    exists (fresh_content false (Allocate_size (mWidth self) (mHeight self) bpp)), gs.
    split; [exact Hb|]. split; [reflexivity|]. split; [reflexivity|].
    intros y k Hy. lia.
Qed.

(** *** Outside 32 bits *)






Lemma sample_rows_in : rows_in sample_bytes 0 4 2 2.
Proof. intros y Hy. cbn. lia. Qed.

Lemma sample_fits : fits_allocation 2 2 8.
Proof. split; reflexivity. Qed.


(** ** Copy or clone *)

Section CopyDataOrCloneCases.

Variables (self : XImage) (copyTo : handle) (W : World).

Lemma CopyDataOrClone_replace :
  must_replace W self copyTo ->
  CopyDataOrClone self copyTo W =
    match Clone self W with
    | Some (clone, W1) =>
        match release copyTo W1 with
        | Some (_, W2) =>
            Some ((match clone with None => OutOfMemory | Some _ => Success end,
                   clone), W2)
        | None => None
        end
    | None => None
    end.
Proof.
  intros Hr. unfold CopyDataOrClone.
  assert ((match copyTo with
           | None => mret true
           | Some o => dst ← deref o; mret (negb (same_parameters dst self))
           end : M bool) W = Some (true, W)) as Htest.
  { destruct Hr as [->|(dst & Hd & Hdiff)]; [reflexivity|].
    apply image_of_some in Hd as (o & n & -> & Ho).
    rewrite (bind_run _ _ _ _ _ (deref_run _ _ _ _ Ho)).
    apply same_parameters_false in Hdiff. now rewrite Hdiff. }
  rewrite (bind_run _ _ _ _ _ Htest). unfold mbind, M_bind.
  destruct (Clone self W) as [[clone W1]|]; [|reflexivity].
  destruct (release copyTo W1) as [[[] W2]|]; reflexivity.
Qed.

Lemma CopyDataOrClone_keep dst :
  image_of W copyTo = Some dst ->
  mWidth dst = mWidth self -> mHeight dst = mHeight self -> mFormat dst = mFormat self ->
  CopyDataOrClone self copyTo W =
    match CopyData self copyTo W with
    | Some (r, W') => Some ((r, copyTo), W')
    | None => None
    end.
Proof.
  intros Hd Hw Hh Hf. apply image_of_some in Hd as (o & n & -> & Ho).
  unfold CopyDataOrClone.
  assert (same_parameters dst self = true) as Hp by (apply same_parameters_true; auto).
  assert ((dst ← deref o; mret (negb (same_parameters dst self)) : M bool) W
          = Some (false, W)) as Htest.
  { rewrite (bind_run _ _ _ _ _ (deref_run _ _ _ _ Ho)). now rewrite Hp. }
  rewrite (bind_run _ _ _ _ _ Htest). unfold mbind, M_bind.
  now destruct (CopyData self (Some o) W) as [[r W']|].
Qed.

End CopyDataOrCloneCases.

(** Letting go of a handle touches no other object. *)
Lemma release_other h W W' o :
  release h W = Some (tt, W') -> h <> Some o -> objs W' !! o = objs W !! o.
Proof.
  destruct h as [o'|]; [|intros [= <-]; reflexivity].
  intros H Hne. unfold release in H.
  destruct (objs W !! o') as [[[img [|[|n]]]|]|] eqn:Ho; try discriminate.
  - apply XImage_destroy_memory in H as [-> _]. cbn.
    apply list_lookup_insert_ne. congruence.
  - injection H as <-. cbn. apply list_lookup_insert_ne. congruence.
Qed.

(** A live handle is not the object a coming [new] creates. *)
Lemma image_of_old W h img : image_of W h = Some img -> h <> Some (length (objs W)).
Proof.
  intros H. apply image_of_some in H as (o & n & -> & Ho).
  apply lookup_lt_Some in Ho. intros [=]. lia.
Qed.

Lemma must_replace_old W self h : must_replace W self h -> h <> Some (length (objs W)).
Proof.
  intros [->|(dst & Hd & _)]; [discriminate|]. eapply image_of_old; eauto.
Qed.

(** Letting go of a handle of [W] in a world that has grown from [W] by
    new objects and new blocks: the new objects and blocks stay, and so
    does every block the handle's image does not own. *)
Lemma release_extended W W1 h xs ys :
  releasable W h ->
  objs W1 = objs W ++ xs -> mem W1 = mem W ++ ys ->
  exists W2,
    release h W1 = Some (tt, W2)
    /\ grants W2 = grants W1
    /\ (forall o, h <> Some o -> objs W2 !! o = objs W1 !! o)
    /\ (forall o, (length (objs W) <= o)%nat -> objs W2 !! o = objs W1 !! o)
    /\ (forall b, (length (mem W) <= b)%nat -> mem W2 !! b = mem W1 !! b)
    /\ (forall b,
          (forall o img, h = Some o -> objs W !! o = Some (Some (img, 1%nat)) ->
             mOwnMemory img = true -> mData img <> Ptr b 0) ->
          mem W2 !! b = mem W1 !! b).
Proof.
  intros Hrel Hobjs Hmem.
  assert (releasable W1 h) as Hrel1.
  { apply (releasable_mono W); [| |exact Hrel].
    - intros o x Ho. rewrite Hobjs. now apply lookup_app_l_Some.
    - intros b buf Hb. exists buf. rewrite Hmem. now apply lookup_app_l_Some. }
  destruct (release_spec W1 h Hrel1) as (W2 & Hrun & Hg & _ & _ & Hother & _ & Hkeep).
  assert (forall o img n, h = Some o -> objs W1 !! o = Some (Some (img, n)) ->
            objs W !! o = Some (Some (img, n))) as Hback.
  { intros o img n -> Ho. destruct Hrel as (img' & n' & Ho' & _).
    rewrite Hobjs, (lookup_app_l_Some _ _ _ _ Ho') in Ho. congruence. }
  exists W2. split; [exact Hrun|]. split; [exact Hg|]. split; [exact Hother|].
  split; [|split].
  - intros o Ho. apply Hother. intros ->.
    destruct Hrel as (img & n & Hl & _). apply lookup_lt_Some in Hl. lia.
  - intros b Hb. apply Hkeep. intros o img -> Ho Hown Hd.
    pose proof (Hback o img 1%nat eq_refl Ho) as Ho'.
    destruct Hrel as (img' & n' & Hl & Hfree). rewrite Hl in Ho'.
    injection Ho' as -> ->.
    destruct (Hfree eq_refl Hown) as (b' & buf & Hd' & Hlive); [now rewrite Hd|].
    rewrite Hd in Hd'. injection Hd' as <-. apply lookup_lt_Some in Hlive. lia.
  - intros b Hb. apply Hkeep. intros o img -> Ho. apply (Hb o img eq_refl).
    now apply (Hback o img 1%nat).
Qed.

Section CopyDataOrCloneOutcome.

Variables (self : XImage) (copyTo : handle) (W : World).
Hypothesis Hreplace : must_replace W self copyTo.

(** The replaced destination is the clone, whatever it is. *)
Lemma CopyDataOrClone_replaced clone W1 W2 :
  Clone self W = Some (clone, W1) ->
  release copyTo W1 = Some (tt, W2) ->
  CopyDataOrClone self copyTo W
    = Some ((match clone with None => OutOfMemory | Some _ => Success end, clone), W2)
  /\ (forall c, clone = Some c ->
        objs W !! c = None
        /\ exists img, objs W2 !! c = Some (Some (img, 1%nat))
             /\ mWidth img = mWidth self /\ mHeight img = mHeight self
             /\ mFormat img = mFormat self /\ mOwnMemory img = true).
Proof.
  intros Hc Hr. split.
  - rewrite (CopyDataOrClone_replace _ _ _ Hreplace), Hc, Hr. reflexivity.
  - intros c ->. apply Clone_inv in Hc as (-> & bpp & _ & Ho & _).
    split; [now apply lookup_ge_None_2|].
    exists (clone_image self W bpp).
    rewrite (release_other _ _ _ _ Hr) by now apply must_replace_old with (self := self).
    rewrite Ho. split; [now apply list_lookup_middle|]. cbn. auto.
Qed.

Hypothesis Hrel : releasable W copyTo.

(** The allocation of the clone is refused. *)
Lemma CopyDataOrClone_refused W1 :
  is_null (mData self) = false ->
  Allocate (mWidth self) (mHeight self) (mFormat self) false W = Some (None, W1) ->
  exists W2, CopyDataOrClone self copyTo W = Some ((OutOfMemory, None), W2).
Proof.
  intros Hn Ha. pose proof (Clone_refused _ _ _ Hn Ha) as Hc.
  apply Allocate_refused in Ha as [Ho Hm].
  assert (exists ys, mem W1 = mem W ++ ys) as [ys Hys].
  { destruct Hm as [->|[x ->]]; [exists []; now rewrite app_nil_r|eauto]. }
  destruct (release_extended W W1 copyTo [] ys Hrel) as (W2 & Hr & _);
    [now rewrite app_nil_r|exact Hys|].
  exists W2. rewrite (CopyDataOrClone_replace _ _ _ Hreplace), Hc, Hr. reflexivity.
Qed.

(** The source has no buffer. *)
Lemma CopyDataOrClone_null :
  is_null (mData self) = true ->
  exists W', release copyTo W = Some (tt, W')
             /\ CopyDataOrClone self copyTo W = Some ((OutOfMemory, None), W').
Proof.
  intros Hn. destruct (release_spec W copyTo Hrel) as (W' & Hr & _).
  exists W'. split; [exact Hr|].
  rewrite (CopyDataOrClone_replace _ _ _ Hreplace), (Clone_null _ _ Hn), Hr.
  reflexivity.
Qed.

(** The clone is made. *)
Lemma CopyDataOrClone_cloned bs os sbuf bpp gs :
  mData self = Ptr bs os ->
  mem W !! bs = Some (Some sbuf) ->
  XImageBitsPerPixel (mFormat self) = Some bpp ->
  rows_in sbuf os (mStride self)
          (XImageBytesPerLine (bits_per_line (mWidth self) bpp)) (mHeight self) ->
  allocation_holds_rows (mWidth self) (mHeight self) bpp ->
  grants W = true :: true :: gs ->
  exists W' cbuf,
    CopyDataOrClone self copyTo W = Some ((Success, Some (length (objs W))), W')
    /\ grants W' = gs
    /\ (forall o, copyTo <> Some o ->
          objs W' !! o = (objs W ++ [Some (clone_image self W bpp, 1%nat)]) !! o)
    /\ objs W' !! length (objs W) = Some (Some (clone_image self W bpp, 1%nat))
    /\ mem W' !! length (mem W) = Some (Some cbuf)
    /\ rows_in cbuf 0 (Allocate_stride (mWidth self) bpp)
               (XImageBytesPerLine (bits_per_line (mWidth self) bpp)) (mHeight self)
    /\ (forall y k, 0 <= y < mHeight self ->
          0 <= k < XImageBytesPerLine (bits_per_line (mWidth self) bpp) ->
          cbuf !! Z.to_nat (0 + y * Allocate_stride (mWidth self) bpp + k)
            = sbuf !! Z.to_nat (os + y * mStride self + k))
    /\ (forall b,
          (forall o img, copyTo = Some o -> objs W !! o = Some (Some (img, 1%nat)) ->
             mOwnMemory img = true -> mData img <> Ptr b 0) ->
          mem W' !! b = (mem W ++ [Some cbuf]) !! b).
Proof.
  intros Hd Hs Hb Hrows Hfits Hg.
  destruct (Clone_success self W bs os sbuf bpp gs Hd Hs Hb Hrows Hfits Hg)
    as (cbuf & Hc & Hin & Hcopied).
  destruct (release_extended W (Clone_world self W bpp cbuf gs) copyTo
              [Some (clone_image self W bpp, 1%nat)] [Some cbuf] Hrel eq_refl eq_refl)
    as (W' & Hr & Hgr & Hother & Hobjs & Hmem & Hkeep).
  exists W', cbuf.
  split; [rewrite (CopyDataOrClone_replace _ _ _ Hreplace), Hc, Hr; reflexivity|].
  split; [exact Hgr|]. split; [exact Hother|].
  split; [rewrite Hobjs by lia; cbn; now apply list_lookup_middle|].
  split; [rewrite Hmem by lia; cbn; now apply list_lookup_middle|].
  split; [exact Hin|]. split; [exact Hcopied|]. exact Hkeep.
Qed.

End CopyDataOrCloneOutcome.

(** C1. When the destination handle is empty or its image differs from
    the source in width, height or format, [CopyDataOrClone] makes a
    [Clone] of the source, lets go of the old handle and leaves the clone
    in the handle: the result is [OutOfMemory] with the empty handle when
    the clone is empty (as when its allocation is refused) and [Success]
    with a new object of exactly the width, height and format of the
    source otherwise. When the image of the handle has the width, height
    and format of the source, the handle is kept and the outcome is that
    of [CopyData] into it: no object is created or destroyed, no block is
    allocated, and the rows are written into the buffer the destination
    already had. *)
Theorem CopyDataOrClone_result (self : XImage) (copyTo : handle) (W : World) :
  (must_replace W self copyTo ->
     (forall clone W1 W2,
        Clone self W = Some (clone, W1) -> release copyTo W1 = Some (tt, W2) ->
        CopyDataOrClone self copyTo W
          = Some ((match clone with None => OutOfMemory | Some _ => Success end,
                   clone), W2)
        /\ (forall c, clone = Some c ->
              objs W !! c = None
              /\ exists img, objs W2 !! c = Some (Some (img, 1%nat))
                   /\ mWidth img = mWidth self /\ mHeight img = mHeight self
                   /\ mFormat img = mFormat self /\ mOwnMemory img = true))
     /\ (releasable W copyTo ->
         forall W1,
           is_null (mData self) = false ->
           Allocate (mWidth self) (mHeight self) (mFormat self) false W
             = Some (None, W1) ->
           exists W2, CopyDataOrClone self copyTo W = Some ((OutOfMemory, None), W2))
     /\ (releasable W copyTo ->
         forall bs os sbuf bpp gs,
           mData self = Ptr bs os ->
           mem W !! bs = Some (Some sbuf) ->
           XImageBitsPerPixel (mFormat self) = Some bpp ->
           rows_in sbuf os (mStride self)
                   (XImageBytesPerLine (bits_per_line (mWidth self) bpp))
                   (mHeight self) ->
           fits_allocation (mWidth self) (mHeight self) bpp ->
           grants W = true :: true :: gs ->
           exists c W' img,
             CopyDataOrClone self copyTo W = Some ((Success, Some c), W')
             /\ objs W !! c = None
             /\ objs W' !! c = Some (Some (img, 1%nat))
             /\ mWidth img = mWidth self /\ mHeight img = mHeight self
             /\ mFormat img = mFormat self /\ mOwnMemory img = true))
  /\ (forall dst,
        image_of W copyTo = Some dst ->
        mWidth dst = mWidth self -> mHeight dst = mHeight self ->
        mFormat dst = mFormat self ->
        (forall r W',
           CopyData self copyTo W = Some (r, W') ->
           CopyDataOrClone self copyTo W = Some ((r, copyTo), W')
           /\ objs W' = objs W /\ grants W' = grants W
           /\ length (mem W') = length (mem W))
        /\ (forall bs os bd od sbuf dbuf bpp,
              mData self = Ptr bs os -> mData dst = Ptr bd od ->
              XImageBitsPerPixel (mFormat self) = Some bpp ->
              mem W !! bs = Some (Some sbuf) -> mem W !! bd = Some (Some dbuf) ->
              bs <> bd ->
              rows_in sbuf os (mStride self)
                      (XImageBytesPerLine (bits_per_line (mWidth self) bpp))
                      (mHeight self) ->
              rows_in dbuf od (mStride dst)
                      (XImageBytesPerLine (bits_per_line (mWidth self) bpp))
                      (mHeight self) ->
              XImageBytesPerLine (bits_per_line (mWidth self) bpp) <= mStride dst ->
              exists dbuf',
                CopyDataOrClone self copyTo W
                  = Some ((Success, copyTo),
                          mkWorld (<[bd := Some dbuf']> (mem W)) (objs W) (grants W))
                /\ length dbuf' = length dbuf
                /\ (forall y k, 0 <= y < mHeight self ->
                      0 <= k < XImageBytesPerLine (bits_per_line (mWidth self) bpp) ->
                      dbuf' !! Z.to_nat (od + y * mStride dst + k)
                        = sbuf !! Z.to_nat (os + y * mStride self + k)))).
Proof.
  split.
  - intros Hreplace. repeat apply conj.
    + intros clone W1 W2. now apply CopyDataOrClone_replaced.
    + intros Hrel W1. now apply CopyDataOrClone_refused.
    + intros Hrel bs os sbuf bpp gs Hd Hs Hb Hrows Hfits Hg.
      destruct (CopyDataOrClone_cloned self copyTo W Hreplace Hrel bs os sbuf bpp gs
                  Hd Hs Hb Hrows (fits_allocation_holds_rows _ _ _ Hfits) Hg)
        as (W' & cbuf & Hrun & _ & _ & Ho & _).
      exists (length (objs W)), W', (clone_image self W bpp).
      split; [exact Hrun|]. split; [now apply lookup_ge_None_2|].
      split; [exact Ho|]. cbn. auto.
  - intros dst Hdst Hw Hh Hf. split.
    + intros r W' Hc. rewrite (CopyDataOrClone_keep _ _ _ dst Hdst Hw Hh Hf), Hc.
      split; [reflexivity|]. exact (CopyData_same_allocation _ _ _ _ _ Hc).
    + intros bs os bd od sbuf dbuf bpp Hs Hd Hb Hsb Hdb Hne Hrs Hrd Hline.
      pose proof Hdst as Hdst'. apply image_of_some in Hdst' as (o & n & -> & Ho).
      destruct (CopyData_copies self W o dst n bs os bd od sbuf dbuf bpp)
        as (dbuf' & Hrun & Hlen & Hrows & _); auto.
      { apply same_parameters_true. auto. }
      exists dbuf'. split; [|split; [exact Hlen|exact Hrows]].
      now rewrite (CopyDataOrClone_keep _ _ _ dst Hdst Hw Hh Hf), Hrun.
Qed.

(** The sample image is cloned into an empty handle. *)
Lemma CopyDataOrClone_result_sample :
  exists c W' img,
    CopyDataOrClone sample_image None (sample_world [true; true])
      = Some ((Success, Some c), W')
    /\ objs (sample_world [true; true]) !! c = None
    /\ objs W' !! c = Some (Some (img, 1%nat))
    /\ mWidth img = 2 /\ mHeight img = 2 /\ mFormat img = 1 /\ mOwnMemory img = true.
Proof.
  destruct (CopyDataOrClone_result sample_image None (sample_world [true; true]))
    as [Hreplace _].
  destruct (Hreplace (or_introl eq_refl)) as (_ & _ & H).
  exact (H I 0%nat 0 sample_bytes 8 [] eq_refl eq_refl eq_refl sample_rows_in sample_fits
           eq_refl).
Defined.

(** C10. When the buffer of the source is null and the destination handle
    is empty or holds an image that differs from the source in width,
    height or format, [CopyDataOrClone] returns [OutOfMemory] and leaves
    the handle empty. [Clone] has returned the empty handle without asking
    the allocator for anything; letting go of the old handle is the only
    effect. *)
Theorem CopyDataOrClone_without_data (self : XImage) (copyTo : handle) (W : World) :
  is_null (mData self) = true ->
  must_replace W self copyTo ->
  releasable W copyTo ->
  exists W',
    CopyDataOrClone self copyTo W = Some ((OutOfMemory, None), W')
    /\ Clone self W = Some (None, W)
    /\ release copyTo W = Some (tt, W')
    /\ grants W' = grants W.
Proof.
  intros Hn Hreplace Hrel.
  destruct (CopyDataOrClone_null self copyTo W Hreplace Hrel Hn) as (W' & Hr & Hrun).
  exists W'. split; [exact Hrun|]. split; [now apply Clone_null|].
  split; [exact Hr|].
  destruct (release_spec W copyTo Hrel) as (W2 & Hr2 & Hg & _).
  rewrite Hr in Hr2. now injection Hr2 as <-.
Qed.

(** A source without buffer and a destination of another size. *)
Lemma CopyDataOrClone_without_data_sample :
  exists W',
    CopyDataOrClone (mkXImage Null 4 4 4 1 false) (Some 0%nat)
                    (mkWorld [Some sample_bytes] [Some (sample_image, 1%nat)] [true; true])
      = Some ((OutOfMemory, None), W')
    /\ Clone (mkXImage Null 4 4 4 1 false)
             (mkWorld [Some sample_bytes] [Some (sample_image, 1%nat)] [true; true])
       = Some (None,
               mkWorld [Some sample_bytes] [Some (sample_image, 1%nat)] [true; true])
    /\ release (Some 0%nat)
               (mkWorld [Some sample_bytes] [Some (sample_image, 1%nat)] [true; true])
       = Some (tt, W')
    /\ grants W' = [true; true].
Proof.
  apply CopyDataOrClone_without_data.
  - reflexivity.
  - right. exists sample_image. split; [reflexivity|]. left. cbn. lia.
  - exists sample_image, 0%nat. split; [reflexivity|]. intros _ Hown. discriminate Hown.
Defined.

(** ** Round trip *)

Section RoundTrip.

Variables (I : XImage) (I2 : handle) (W : World).
Variables (bI : nat) (oI : Z) (ibuf : list memval) (bpp : Z) (gs : list bool).

Hypothesis HdI : mData I = Ptr bI oI.
Hypothesis HbI : mem W !! bI = Some (Some ibuf).
Hypothesis Hbpp : XImageBitsPerPixel (mFormat I) = Some bpp.
Hypothesis Hrows : rows_in ibuf oI (mStride I)
                     (XImageBytesPerLine (bits_per_line (mWidth I) bpp)) (mHeight I).
Hypothesis Hfits : allocation_holds_rows (mWidth I) (mHeight I) bpp.
Hypothesis Hrel : releasable W I2.
Hypothesis Hapart : apart_from W I2 bI.

Local Abbreviation c := (length (objs W)).
Local Abbreviation bc := (length (mem W)).
Local Abbreviation cimg := (clone_image I W bpp).

Lemma image_of_grown W1 xs h img :
  objs W1 = objs W ++ xs -> image_of W h = Some img -> image_of W1 h = Some img.
Proof.
  intros Ho H. apply image_of_some in H as (o & n & -> & Hl). cbn.
  rewrite Ho, (lookup_app_l_Some _ _ _ _ Hl). reflexivity.
Qed.

(** The last holder of an owning image in [W] owns a block of [W], not
    the block the next allocation creates. *)
Lemma owner_is_old o img :
  I2 = Some o -> objs W !! o = Some (Some (img, 1%nat)) ->
  mOwnMemory img = true -> mData img <> Ptr bc 0.
Proof.
  intros -> Ho Hown Hd. destruct Hrel as (img' & n & Hl & Hfree).
  rewrite Hl in Ho. injection Ho as -> ->.
  destruct (Hfree eq_refl Hown) as (b' & buf & Hd' & Hlive); [now rewrite Hd|].
  rewrite Hd in Hd'. injection Hd' as <-. apply lookup_lt_Some in Hlive.
  lia.
Qed.

Lemma owner_is_apart o img :
  I2 = Some o -> objs W !! o = Some (Some (img, 1%nat)) ->
  mOwnMemory img = true -> mData img <> Ptr bI 0.
Proof.
  intros -> Ho _. apply (Hapart img 0). cbn. now rewrite Ho.
Qed.

(** The destination is replaced by a clone of the clone. *)
Lemma clone_then_copy_replace :
  must_replace W I I2 ->
  grants W = true :: true :: true :: true :: gs ->
  exists o2 W',
    clone_then_copy I I2 W = Some ((Success, Some o2), W')
    /\ copy_of W' I bpp oI ibuf o2
    /\ mem W' !! bI = Some (Some ibuf).
Proof.
  intros Hreplace Hg.
  assert (bI < bc)%nat as HbIlt by (eapply lookup_lt_Some; eauto).
  destruct (Clone_success I W bI oI ibuf bpp (true :: true :: gs)
              HdI HbI Hbpp Hrows Hfits Hg) as (cbuf & Hc & Hin & Hcopied).
  set (W1 := Clone_world I W bpp cbuf (true :: true :: gs)) in *.
  assert (objs W1 !! c = Some (Some (cimg, 1%nat))) as Hoc
    by (cbn; now apply list_lookup_middle).
  assert (mem W1 !! bc = Some (Some cbuf)) as Hmc
    by (cbn; now apply list_lookup_middle).
  assert (must_replace W1 cimg I2) as Hreplace1.
  { destruct Hreplace as [->|(dst & Hd & Hdiff)]; [now left|].
    right. exists dst. split; [|exact Hdiff].
    now apply image_of_grown with (xs := [Some (cimg, 1%nat)]). }
  assert (releasable W1 I2) as Hrel1.
  { apply (releasable_mono W); [| |exact Hrel].
    - intros o x Ho. cbn. now apply lookup_app_l_Some.
    - intros b buf Hb. exists buf. cbn. now apply lookup_app_l_Some. }
  destruct (CopyDataOrClone_cloned cimg I2 W1 Hreplace1 Hrel1 bc 0 cbuf bpp gs)
    as (W2 & c2buf & Hrun & Hg2 & Hother & Ho2 & Hm2 & _ & Hcopied2 & Hkeep);
    try reflexivity; try assumption.
  assert (forall o img, I2 = Some o -> objs W1 !! o = Some (Some (img, 1%nat)) ->
            objs W !! o = Some (Some (img, 1%nat))) as Hback.
  { intros o img -> Ho. destruct Hrel as (img' & n & Hl & _).
    cbn in Ho. rewrite (lookup_app_l_Some _ _ _ _ Hl) in Ho. congruence. }
  assert (objs W2 !! c = Some (Some (cimg, 1%nat))) as Hoc2.
  { rewrite Hother.
    - apply lookup_app_l_Some. exact Hoc.
    - intros ->. destruct Hrel as (img' & n & Hl & _).
      apply lookup_lt_Some in Hl. lia. }
  assert (mem W2 !! bc = Some (Some cbuf)) as Hmc2.
  { rewrite Hkeep.
    - apply lookup_app_l_Some. exact Hmc.
    - intros o img Hi Ho. apply owner_is_old with (o := o); auto. }
  assert (mem W2 !! bI = Some (Some ibuf)) as HmI2.
  { rewrite Hkeep.
    - apply lookup_app_l_Some. cbn. now apply lookup_app_l_Some.
    - intros o img Hi Ho. apply owner_is_apart with (o := o); auto. }
  assert (length (objs W1) = S c) as Hlo by (cbn; rewrite length_app; cbn; lia).
  assert (length (mem W1) = S bc) as Hlm by (cbn; rewrite length_app; cbn; lia).
  exists (S c). eexists. split; [|split].
  - unfold clone_then_copy. rewrite (bind_run _ _ _ _ _ Hc).
    rewrite (bind_run _ _ _ _ _ (deref_run _ _ _ _ Hoc)).
    rewrite (bind_run _ _ _ _ _ Hrun).
    rewrite (bind_run _ _ _ _ _
               (release_last_owned W2 c cimg bc cbuf Hoc2 eq_refl eq_refl Hmc2)).
    rewrite Hlo. reflexivity.
  - exists (clone_image cimg W1 bpp), (S bc), 0, c2buf. cbn [image_of objs mem].
    rewrite list_lookup_insert_ne by lia. rewrite <- Hlo, Ho2.
    split; [reflexivity|]. do 3 (split; [reflexivity|]).
    split; [change (mData (clone_image cimg W1 bpp)) with (Ptr (length (mem W1)) 0);
            now rewrite Hlm|].
    split; [rewrite list_lookup_insert_ne by lia; now rewrite <- Hlm|].
    intros y k Hy Hk.
    change (mStride (clone_image cimg W1 bpp)) with (Allocate_stride (mWidth I) bpp).
    rewrite <- (Hcopied y k Hy Hk). apply (Hcopied2 y k Hy Hk).
  - cbn. rewrite list_lookup_insert_ne by lia. exact HmI2.
Qed.

(** The destination is kept and written. *)
Lemma clone_then_copy_keep :
  has_room W I bpp I2 ->
  grants W = true :: true :: gs ->
  exists o2 W',
    clone_then_copy I I2 W = Some ((Success, Some o2), W')
    /\ I2 = Some o2
    /\ copy_of W' I bpp oI ibuf o2
    /\ mem W' !! bI = Some (Some ibuf).
Proof.
  intros (dst & bd & od & dbuf & Hdst & Hw & Hh & Hf & Hd & Hbd & Hroom & Hline) Hg.
  assert (bI < bc)%nat as HbIlt by (eapply lookup_lt_Some; eauto).
  assert (bd < bc)%nat as Hbdlt by (eapply lookup_lt_Some; eauto).
  assert (bd <> bI) as Hbd_bI.
  { intros ->. apply (Hapart dst od Hdst). exact Hd. }
  destruct (Clone_success I W bI oI ibuf bpp gs HdI HbI Hbpp Hrows Hfits Hg)
    as (cbuf & Hc & Hin & Hcopied).
  set (W1 := Clone_world I W bpp cbuf gs) in *.
  assert (objs W1 !! c = Some (Some (cimg, 1%nat))) as Hoc
    by (cbn; now apply list_lookup_middle).
  assert (mem W1 !! bc = Some (Some cbuf)) as Hmc
    by (cbn; now apply list_lookup_middle).
  assert (image_of W1 I2 = Some dst) as Hdst1
    by now apply image_of_grown with (xs := [Some (cimg, 1%nat)]).
  pose proof Hdst as Hdst'. apply image_of_some in Hdst' as (o & n & -> & Ho).
  assert (o < c)%nat as Holt by (eapply lookup_lt_Some; eauto).
  assert (objs W1 !! o = Some (Some (dst, n))) as Ho1
    by (cbn; now apply lookup_app_l_Some).
  destruct (CopyData_copies cimg W1 o dst n bc 0 bd od cbuf dbuf bpp)
    as (dbuf' & Hrun & Hlen & Hcopied2 & _); try assumption; try reflexivity.
  { apply same_parameters_true. cbn. auto. }
  { cbn. now apply lookup_app_l_Some. }
  { lia. }
  set (W2 := mkWorld (<[bd := Some dbuf']> (mem W1)) (objs W1) (grants W1)) in *.
  assert (mem W2 !! bc = Some (Some cbuf)) as Hmc2
    by (cbn [W2 mem]; rewrite list_lookup_insert_ne by lia; exact Hmc).
  exists o. eexists. split; [|split; [reflexivity|split]].
  - unfold clone_then_copy. rewrite (bind_run _ _ _ _ _ Hc).
    rewrite (bind_run _ _ _ _ _ (deref_run _ _ _ _ Hoc)).
    assert (CopyDataOrClone cimg (Some o) W1 = Some ((Success, Some o), W2)) as Hcdc.
    { rewrite (CopyDataOrClone_keep cimg (Some o) W1 dst Hdst1) by (cbn; auto).
      now rewrite Hrun. }
    rewrite (bind_run _ _ _ _ _ Hcdc).
    rewrite (bind_run _ _ _ _ _
               (release_last_owned W2 c cimg bc cbuf Hoc eq_refl eq_refl Hmc2)).
    reflexivity.
  - exists dst, bd, od, dbuf'. cbn [image_of objs mem W2].
    rewrite list_lookup_insert_ne by lia. rewrite Ho1.
    split; [reflexivity|]. do 3 (split; [assumption|]).
    split; [exact Hd|].
    split.
    { rewrite list_lookup_insert_ne by lia. apply list_lookup_insert_eq.
      cbn. rewrite length_app. cbn. lia. }
    intros y k Hy Hk.
    rewrite <- (Hcopied y k Hy Hk). apply (Hcopied2 y k Hy Hk).
  - cbn [mem W2]. rewrite !list_lookup_insert_ne by lia.
    cbn. now apply lookup_app_l_Some.
Qed.

End RoundTrip.

(** C8, as stated for every owned image and every handle, fails in two
    ways. A handle that holds an image of the width, height and format
    of [I] without a buffer is kept, not replaced: [CopyData] returns
    [NullPointer] and the image of the handle has no rows afterwards, as
    before. And the owned image [Allocate( 536870909, 1, Grayscale8 )]
    returns has a buffer of 0 bytes for a line of 536870909: its [Clone]
    does not return. *)
Lemma clone_then_copy_fails :
  clone_then_copy sample_owned (Some 1%nat)
                  (sample_without_data_world [true; true; true; true])
    = Some ((NullPointer, Some 1%nat),
            mkWorld [Some sample_bytes; None]
                    [Some (sample_owned, 1%nat); Some (sample_without_data, 1%nat); None]
                    [true; true])
  /\ Allocate 536870909 1 1 false (mkWorld [] [] [true; true; true; true; true; true])
     = Some (Some 0%nat,
             mkWorld [Some []] [Some (mkXImage (Ptr 0 0) 536870909 1 0 1 true, 1%nat)]
                     [true; true; true; true])
  /\ clone_then_copy (mkXImage (Ptr 0 0) 536870909 1 0 1 true) None
       (mkWorld [Some []] [Some (mkXImage (Ptr 0 0) 536870909 1 0 1 true, 1%nat)]
                [true; true; true; true])
     = None
  /\ ~ (forall I I2 W bI ibuf bpp gs,
          mOwnMemory I = true ->
          mData I = Ptr bI 0 ->
          mem W !! bI = Some (Some ibuf) ->
          XImageBitsPerPixel (mFormat I) = Some bpp ->
          mStride I = Allocate_stride (mWidth I) bpp ->
          length ibuf = Z.to_nat (Allocate_size (mWidth I) (mHeight I) bpp) ->
          XImageBytesPerLine (bits_per_line (mWidth I) bpp) <= mStride I ->
          rows_in ibuf 0 (mStride I)
                  (XImageBytesPerLine (bits_per_line (mWidth I) bpp)) (mHeight I) ->
          releasable W I2 ->
          apart_from W I2 bI ->
          grants W = true :: true :: true :: true :: gs ->
          exists r o2 W' img2 b2 ofs2 buf2,
            clone_then_copy I I2 W = Some ((r, Some o2), W')
            /\ image_of W' (Some o2) = Some img2
            /\ mWidth img2 = mWidth I /\ mHeight img2 = mHeight I
            /\ mFormat img2 = mFormat I
            /\ mData img2 = Ptr b2 ofs2
            /\ mem W' !! b2 = Some (Some buf2)
            /\ (forall y k, 0 <= y < mHeight I ->
                  0 <= k < XImageBytesPerLine (bits_per_line (mWidth I) bpp) ->
                  buf2 !! Z.to_nat (ofs2 + y * mStride img2 + k)
                    = ibuf !! Z.to_nat (0 + y * mStride I + k))).
Proof.
  assert (clone_then_copy sample_owned (Some 1%nat)
                          (sample_without_data_world [true; true; true; true])
          = Some ((NullPointer, Some 1%nat),
                  mkWorld [Some sample_bytes; None]
                          [Some (sample_owned, 1%nat); Some (sample_without_data, 1%nat);
                           None]
                          [true; true])) as Hrun by (vm_compute; reflexivity).
  split; [exact Hrun|]. split; [vm_compute; reflexivity|].
  split; [vm_compute; reflexivity|].
  intros Hall.
  destruct (Hall sample_owned (Some 1%nat)
              (sample_without_data_world [true; true; true; true])
              0%nat sample_bytes 8 [] eq_refl eq_refl eq_refl eq_refl eq_refl eq_refl)
    as (r & o2 & W' & img2 & b2 & ofs2 & buf2 & Hrun' & Hi & _ & _ & _ & Hd & _).
  - vm_compute. discriminate.
  - exact sample_rows_in.
  - exists sample_without_data, 0%nat. split; [reflexivity|].
    intros _ Hown. discriminate Hown.
  - intros dst ofs Hdst. injection Hdst as <-. discriminate.
  - reflexivity.
  - rewrite Hrun in Hrun'. injection Hrun' as <- <- <-.
    injection Hi as <-. discriminate Hd.
Qed.

(** C8, amended. Let [I] be an owned image with a buffer that meets the
    invariants of the data model: its pointer is the start of a live block
    that has the size, and its stride the value, that [Allocate] computes
    for its width, height and format, the stride covers a line and the rows
    lie inside the block. Let [I2] be a handle that can be let go and that
    is empty, or holds an image that differs from [I] in width, height or
    format, or holds an image of the width, height and format of [I] with a
    buffer that has room for the rows at a stride that covers a line, in no
    case one that points into the block of [I]. Then, the allocator
    granting what is asked (two requests for the clone, and two more where
    [I2] is replaced), [I.Clone( )->CopyDataOrClone( I2 )] returns
    [Success], and afterwards [I2] holds an image with the width, height
    and format of [I] whose rows, up to [XImageBytesPerLine] bytes a row,
    are the rows of [I], which is still in memory as it was. *)
Theorem clone_then_copy_round_trip (I : XImage) (I2 : handle) (W : World)
    (bI : nat) (ibuf : list memval) (bpp : Z) (gs : list bool) :
  mData I = Ptr bI 0 ->
  mem W !! bI = Some (Some ibuf) ->
  XImageBitsPerPixel (mFormat I) = Some bpp ->
  mStride I = Allocate_stride (mWidth I) bpp ->
  length ibuf = Z.to_nat (Allocate_size (mWidth I) (mHeight I) bpp) ->
  XImageBytesPerLine (bits_per_line (mWidth I) bpp) <= mStride I ->
  rows_in ibuf 0 (mStride I)
          (XImageBytesPerLine (bits_per_line (mWidth I) bpp)) (mHeight I) ->
  releasable W I2 ->
  apart_from W I2 bI ->
  (must_replace W I I2 /\ grants W = true :: true :: true :: true :: gs)
    \/ (has_room W I bpp I2 /\ grants W = true :: true :: gs) ->
  exists o2 W' img2 b2 ofs2 buf2,
    clone_then_copy I I2 W = Some ((Success, Some o2), W')
    /\ image_of W' (Some o2) = Some img2
    /\ mWidth img2 = mWidth I /\ mHeight img2 = mHeight I /\ mFormat img2 = mFormat I
    /\ mData img2 = Ptr b2 ofs2
    /\ mem W' !! b2 = Some (Some buf2)
    /\ mem W' !! bI = Some (Some ibuf)
    /\ (forall y k, 0 <= y < mHeight I ->
          0 <= k < XImageBytesPerLine (bits_per_line (mWidth I) bpp) ->
          buf2 !! Z.to_nat (ofs2 + y * mStride img2 + k)
            = ibuf !! Z.to_nat (0 + y * mStride I + k)).
Proof.
  intros HdI HbI Hbpp Hstride Hlen Hline Hrows Hrel Hapart Hcase.
  assert (allocation_holds_rows (mWidth I) (mHeight I) bpp) as Hholds.
  { split; [now rewrite <- Hstride|]. rewrite <- Hstride.
    apply (rows_in_length ibuf); [|exact Hrows].
    unfold fresh_content. now rewrite length_replicate. }
  assert (exists o2 W',
            clone_then_copy I I2 W = Some ((Success, Some o2), W')
            /\ copy_of W' I bpp 0 ibuf o2
            /\ mem W' !! bI = Some (Some ibuf))
    as (o2 & W' & Hrun & (img2 & b2 & ofs2 & buf2 & Hi & Hw & Hh & Hf & Hd & Hm & Hr) & HI).
  { destruct Hcase as [[Hreplace Hg]|[Hroom Hg]].
    - eapply clone_then_copy_replace; eauto.
    - destruct (clone_then_copy_keep I I2 W bI 0 ibuf bpp gs)
        as (o2 & W' & Hrun & _ & Hcopy & HI); eauto. }
  exists o2, W', img2, b2, ofs2, buf2. auto 10.
Qed.

(** An owned image through an empty handle. *)
Lemma clone_then_copy_round_trip_sample :
  exists o2 W' img2 b2 ofs2 buf2,
    clone_then_copy sample_owned None (sample_owned_world [true; true; true; true])
      = Some ((Success, Some o2), W')
    /\ image_of W' (Some o2) = Some img2
    /\ mWidth img2 = 2 /\ mHeight img2 = 2 /\ mFormat img2 = 1
    /\ mData img2 = Ptr b2 ofs2
    /\ mem W' !! b2 = Some (Some buf2)
    /\ mem W' !! 0%nat = Some (Some sample_bytes)
    /\ (forall y k, 0 <= y < 2 -> 0 <= k < 2 ->
          buf2 !! Z.to_nat (ofs2 + y * mStride img2 + k)
            = sample_bytes !! Z.to_nat (0 + y * 4 + k)).
Proof.
  apply (clone_then_copy_round_trip sample_owned None
           (sample_owned_world [true; true; true; true]) 0%nat sample_bytes 8 []);
    try reflexivity.
  - vm_compute. discriminate.
  - exact sample_rows_in.
  - intros dst ofs Hd. discriminate Hd.
  - left. split; [now left|reflexivity].
Defined.

(** The round trip on the owned sample, run: the handle holds object 2,
    whose block 2 has the two pixels of each row and indeterminate padding;
    the block of the temporary clone is freed. *)
Example clone_then_copy_sample_run :
  clone_then_copy sample_owned None (sample_owned_world [true; true; true; true])
    = Some ((Success, Some 2%nat),
            mkWorld [Some sample_bytes; None;
                     Some [Val Byte.x01; Val Byte.x02; Undef; Undef;
                           Val Byte.x03; Val Byte.x04; Undef; Undef]]
                    [Some (sample_owned, 1%nat); None;
                     Some (mkXImage (Ptr 2 0) 2 2 4 1 true, 1%nat)] []).
Proof. vm_compute. reflexivity. Qed.

(** * Further properties *)

(** ** Strides and lines *)

(** X1. For every [uint32_t] bit count the stride is a multiple of 4 below
    2^29; it is 0 exactly when the count is 0 or [bitsPerLine + 31] wraps
    (the count exceeds 2^32 - 32), and in every other case it covers the
    bytes of the line. *)
Theorem XImageBytesPerStride_aligned (bits : Z) :
  0 <= bits < 2 ^ 32 ->
  XImageBytesPerStride bits mod 4 = 0
  /\ 0 <= XImageBytesPerStride bits < 2 ^ 29
  /\ (XImageBytesPerStride bits = 0 <-> bits = 0 \/ 2 ^ 32 - 32 < bits)
  /\ (XImageBytesPerStride bits <> 0 ->
      XImageBytesPerLine bits <= XImageBytesPerStride bits).
Proof.
  intros Hb. split; [|split; [apply XImageBytesPerStride_range|split]].
  - rewrite XImageBytesPerStride_eq, Z.mul_comm. apply Z.mod_mul. lia.
  - rewrite XImageBytesPerStride_eq.
    destruct (Z_lt_dec (bits + 31) (2 ^ 32)) as [Hlt|Hge].
    + rewrite u32_small by lia.
      pose proof (Z.div_mod (bits + 31) 32 ltac:(lia)) as Hdm.
      pose proof (Z.mod_pos_bound (bits + 31) 32 ltac:(lia)) as Hmb.
      split; intros H; lia.
    + unfold u32. rewrite <- (Z.mod_add (bits + 31) (-1)) by lia.
      rewrite Z.mod_small by lia. rewrite Z.div_small by lia. split; intros; lia.
  - intros Hnz. destruct (stride_zero_or_covers bits Hb) as [Hz|Hc]; [contradiction|exact Hc].
Qed.

Lemma XImageBytesPerStride_aligned_120 :
  XImageBytesPerStride 120 mod 4 = 0
  /\ 0 <= XImageBytesPerStride 120 < 2 ^ 29
  /\ (XImageBytesPerStride 120 = 0 <-> 120 = 0 \/ 2 ^ 32 - 32 < 120)
  /\ (XImageBytesPerStride 120 <> 0 ->
      XImageBytesPerLine 120 <= XImageBytesPerStride 120).
Proof. apply XImageBytesPerStride_aligned. lia. Defined.

(** X2. While [bitsPerLine + 31] does not wrap, the line is the least
    number of bytes that holds the bits and the stride adds at most 3
    bytes of padding to it. *)
Theorem line_and_padding (bits : Z) :
  0 <= bits -> bits + 31 < 2 ^ 32 ->
  (bits <= 8 * XImageBytesPerLine bits < bits + 8)
  /\ 0 <= XImageBytesPerStride bits - XImageBytesPerLine bits <= 3.
Proof.
  intros H0 H1. rewrite XImageBytesPerStride_eq, XImageBytesPerLine_eq.
  rewrite !u32_small by lia.
  pose proof (Z.div_mod (bits + 31) 32 ltac:(lia)) as E1.
  pose proof (Z.mod_pos_bound (bits + 31) 32 ltac:(lia)) as B1.
  pose proof (Z.div_mod (bits + 7) 8 ltac:(lia)) as E2.
  pose proof (Z.mod_pos_bound (bits + 7) 8 ltac:(lia)) as B2.
  lia.
Qed.

Lemma line_and_padding_120 :
  (120 <= 8 * XImageBytesPerLine 120 < 120 + 8)
  /\ 0 <= XImageBytesPerStride 120 - XImageBytesPerLine 120 <= 3.
Proof. apply line_and_padding; lia. Defined.

(** ** More on [Allocate] *)

(** X3. Every cell of the buffer of a freshly allocated image is the zero
    byte when [zeroInitialize] is set and indeterminate otherwise. *)
Theorem Allocate_content (width height : Z) (format : XPixelFormat) (zi : bool)
    (W W' : World) (o : nat) :
  Allocate width height format zi W = Some (Some o, W') ->
  exists img b buf,
    objs W' !! o = Some (Some (img, 1%nat))
    /\ mData img = Ptr b 0
    /\ mem W' !! b = Some (Some buf)
    /\ forall i x, buf !! i = Some x -> x = if zi then Val Byte.x00 else Undef.
Proof.
  intros H. apply Allocate_inv in H as (bpp & gs & _ & _ & -> & ->).
  eexists _, (length (mem W)), _.
  split; [apply Allocate_world_object|]. split; [reflexivity|].
  split; [apply Allocate_world_block|].
  intros i x Hi. unfold fresh_content in Hi.
  apply lookup_replicate in Hi as [-> _]. reflexivity.
Qed.

Lemma Allocate_content_zeroed :
  exists img b buf,
    objs (Allocate_world 2 2 1 true (mkWorld [] [] [true; true]) 8 []) !! 0%nat
      = Some (Some (img, 1%nat))
    /\ mData img = Ptr b 0
    /\ mem (Allocate_world 2 2 1 true (mkWorld [] [] [true; true]) 8 []) !! b
       = Some (Some buf)
    /\ forall i x, buf !! i = Some x -> x = Val Byte.x00.
Proof.
  exact (Allocate_content 2 2 1 true (mkWorld [] [] [true; true]) _ 0%nat eq_refl).
Defined.

(** X4. When the buffer is granted and the object is refused, [Allocate]
    returns the empty handle and does not free the buffer: the block it
    has just allocated stays live, and no object has been created that
    could ever release it. *)
Theorem Allocate_leaks_buffer (width height : Z) (format : XPixelFormat) (zi : bool)
    (W : World) (gs : list bool) :
  is_int32 format = true ->
  grants W = true :: false :: gs \/ grants W = [true] ->
  exists W' buf,
    Allocate width height format zi W = Some (None, W')
    /\ objs W' = objs W
    /\ mem W !! length (mem W) = None
    /\ mem W' !! length (mem W) = Some (Some buf)
    /\ forall b, (b < length (mem W))%nat -> mem W' !! b = mem W !! b.
Proof.
  intros Hf Hg. destruct (XImageBitsPerPixel_some format Hf) as [bpp Hb].
  assert (exists gs', Allocate width height format zi W
            = Some (None, Allocate_leak width height zi W bpp gs')) as [gs' Hrun].
  { rewrite (Allocate_cases width height format zi W bpp Hb).
    destruct Hg as [-> | ->]; eauto. }
  eexists _, _. split; [exact Hrun|]. split; [reflexivity|].
  split; [now apply lookup_ge_None_2|].
  split; [cbn; now apply list_lookup_middle|].
  intros b Hlt. cbn. now apply lookup_app_l.
Qed.

Lemma Allocate_leaks_buffer_sample :
  exists W' buf,
    Allocate 2 2 1 false (mkWorld [] [] [true; false]) = Some (None, W')
    /\ objs W' = []
    /\ (@nil (option (list memval))) !! 0%nat = None
    /\ mem W' !! 0%nat = Some (Some buf)
    /\ forall b, (b < 0)%nat -> mem W' !! b = (@nil (option (list memval))) !! b.
Proof.
  apply (Allocate_leaks_buffer 2 2 1 false (mkWorld [] [] [true; false]) []).
  - reflexivity.
  - left. reflexivity.
Defined.

(** X5. Whatever [Allocate] returns, every block and every object that
    existed before the call is as it was; a non-empty result is a new
    object number, and an empty result has created no object. *)
Theorem Allocate_frame (width height : Z) (format : XPixelFormat) (zi : bool)
    (W W' : World) (r : handle) :
  Allocate width height format zi W = Some (r, W') ->
  (forall b, (b < length (mem W))%nat -> mem W' !! b = mem W !! b)
  /\ (forall o, (o < length (objs W))%nat -> objs W' !! o = objs W !! o)
  /\ (r = None -> objs W' = objs W)
  /\ (forall o, r = Some o -> objs W !! o = None /\ is_Some (objs W' !! o)).
Proof.
  intros H. destruct (Allocate_defined _ _ _ _ _ _ _ H) as [bpp Hb].
  rewrite (Allocate_cases width height format zi W bpp Hb) in H.
  destruct (grants W) as [|[] [|[] gs]]; injection H as <- <-; cbn;
    (split; [intros b Hlt; try reflexivity; now apply lookup_app_l|]);
    (split; [intros o Hlt; try reflexivity; now apply lookup_app_l|]);
    (split; [try reflexivity; discriminate|]);
    try (intros o; discriminate).
  intros o [= <-]. split; [now apply lookup_ge_None_2|].
  exists (Some (mkXImage (Ptr (length (mem W)) 0) width height
                         (Allocate_stride width bpp) format true, 1%nat)).
  now apply list_lookup_middle.
Qed.

Lemma Allocate_frame_sample :
  (forall b, (b < 1)%nat ->
     mem (Allocate_world 2 2 1 false (sample_world [true; true]) 8 []) !! b
       = [Some sample_bytes] !! b)
  /\ (forall o, (o < 0)%nat ->
        objs (Allocate_world 2 2 1 false (sample_world [true; true]) 8 []) !! o
          = (@nil (option (XImage * nat))) !! o)
  /\ (Some 0%nat = None ->
      objs (Allocate_world 2 2 1 false (sample_world [true; true]) 8 []) = [])
  /\ (forall o, Some 0%nat = Some o ->
        (@nil (option (XImage * nat))) !! o = None
        /\ is_Some (objs (Allocate_world 2 2 1 false (sample_world [true; true]) 8 [])
                      !! o)).
Proof.
  exact (Allocate_frame 2 2 1 false (sample_world [true; true]) _ (Some 0%nat) eq_refl).
Defined.

(** ** More on [CopyData] *)

(** An offset lies in one of the rows or outside all of them. *)
Lemma row_or_outside ofs stride line rows (i : nat) :
  (exists y, 0 <= y < rows
             /\ ofs + y * stride <= Z.of_nat i < ofs + y * stride + line)
  \/ outside_rows ofs stride line rows i.
Proof.
  assert (forall n : nat,
            (exists y, 0 <= y < Z.of_nat n
                       /\ ofs + y * stride <= Z.of_nat i < ofs + y * stride + line)
            \/ outside_rows ofs stride line (Z.of_nat n) i) as Hnat.
  { induction n as [|n IH].
    - right. intros y Hy. lia.
    - destruct IH as [(y & Hy & Hin)|Hout].
      + left. exists y. split; [lia|exact Hin].
      + destruct (Z_le_dec (ofs + Z.of_nat n * stride) (Z.of_nat i)) as [Hle|Hgt];
          [destruct (Z_lt_dec (Z.of_nat i) (ofs + Z.of_nat n * stride + line))
             as [Hlt|Hge]|].
        * left. exists (Z.of_nat n). split; [lia|lia].
        * right. intros y Hy. destruct (Z.eq_dec y (Z.of_nat n)) as [->|Hne];
            [lia|apply Hout; lia].
        * right. intros y Hy. destruct (Z.eq_dec y (Z.of_nat n)) as [->|Hne];
            [lia|apply Hout; lia]. }
  destruct (Z_le_dec rows 0) as [Hle|Hgt].
  - right. intros y Hy. lia.
  - specialize (Hnat (Z.to_nat rows)). rewrite Z2Nat.id in Hnat by lia. exact Hnat.
Qed.

(** A destination that already holds the rows of the source is left as it
    is, byte for byte. *)
Lemma CopyData_noop self W o dst n bs os bd od sbuf dbuf bpp :
  objs W !! o = Some (Some (dst, n)) ->
  mData self = Ptr bs os -> mData dst = Ptr bd od ->
  same_parameters self dst = true ->
  XImageBitsPerPixel (mFormat self) = Some bpp ->
  mem W !! bs = Some (Some sbuf) -> mem W !! bd = Some (Some dbuf) -> bs <> bd ->
  rows_in sbuf os (mStride self)
          (XImageBytesPerLine (bits_per_line (mWidth self) bpp)) (mHeight self) ->
  rows_in dbuf od (mStride dst)
          (XImageBytesPerLine (bits_per_line (mWidth self) bpp)) (mHeight self) ->
  XImageBytesPerLine (bits_per_line (mWidth self) bpp) <= mStride dst ->
  (forall y k, 0 <= y < mHeight self ->
     0 <= k < XImageBytesPerLine (bits_per_line (mWidth self) bpp) ->
     dbuf !! Z.to_nat (od + y * mStride dst + k)
       = sbuf !! Z.to_nat (os + y * mStride self + k)) ->
  CopyData self (Some o) W = Some (Success, W).
Proof.
  intros Ho Hs Hd Hp Hb Hsb Hdb Hne Hrs Hrd Hline Hsame.
  destruct (CopyData_copies self W o dst n bs os bd od sbuf dbuf bpp
              Ho Hs Hd Hp Hb Hsb Hdb Hne Hrs Hrd Hline)
    as (dbuf' & Hrun & Hlen & Hrows & Hout).
  assert (dbuf' = dbuf) as ->.
  { apply list_eq. intros i.
    destruct (row_or_outside od (mStride dst)
                (XImageBytesPerLine (bits_per_line (mWidth self) bpp))
                (mHeight self) i) as [(y & Hy & Hin)|Houtside].
    - pose proof (Hrd y Hy) as [Hod _].
      specialize (Hrows y (Z.of_nat i - (od + y * mStride dst)) Hy ltac:(lia)).
      specialize (Hsame y (Z.of_nat i - (od + y * mStride dst)) Hy ltac:(lia)).
      replace (Z.to_nat (od + y * mStride dst + (Z.of_nat i - (od + y * mStride dst))))
        with i in Hrows, Hsame by lia.
      congruence.
    - now apply Hout. }
  rewrite Hrun, list_insert_id by exact Hdb. now rewrite World_eta.
Qed.

(** X6. [CopyData] is idempotent: once the rows are copied, copying them
    again succeeds and changes nothing. *)
Theorem CopyData_idempotent (self dst : XImage) (W : World) (o n bs bd : nat)
    (os od : Z) (sbuf dbuf : list memval) (bpp : Z) :
  objs W !! o = Some (Some (dst, n)) ->
  mData self = Ptr bs os -> mData dst = Ptr bd od ->
  mWidth self = mWidth dst -> mHeight self = mHeight dst -> mFormat self = mFormat dst ->
  XImageBitsPerPixel (mFormat self) = Some bpp ->
  mem W !! bs = Some (Some sbuf) -> mem W !! bd = Some (Some dbuf) -> bs <> bd ->
  rows_in sbuf os (mStride self)
          (XImageBytesPerLine (bits_per_line (mWidth self) bpp)) (mHeight self) ->
  rows_in dbuf od (mStride dst)
          (XImageBytesPerLine (bits_per_line (mWidth self) bpp)) (mHeight self) ->
  XImageBytesPerLine (bits_per_line (mWidth self) bpp) <= mStride dst ->
  exists W1,
    CopyData self (Some o) W = Some (Success, W1)
    /\ CopyData self (Some o) W1 = Some (Success, W1).
Proof.
  intros Ho Hs Hd Hw Hh Hf Hb Hsb Hdb Hne Hrs Hrd Hline.
  assert (same_parameters self dst = true) as Hp by (apply same_parameters_true; auto).
  destruct (CopyData_copies self W o dst n bs os bd od sbuf dbuf bpp
              Ho Hs Hd Hp Hb Hsb Hdb Hne Hrs Hrd Hline)
    as (dbuf' & Hrun & Hlen & Hrows & _).
  assert (bd < length (mem W))%nat as Hbd by (eapply lookup_lt_Some; eauto).
  eexists. split; [exact Hrun|].
  apply (CopyData_noop self _ o dst n bs os bd od sbuf dbuf' bpp); try assumption.
  - cbn. rewrite list_lookup_insert_ne by congruence. exact Hsb.
  - cbn. now apply list_lookup_insert_eq.
  - exact (rows_in_length _ _ _ _ _ _ Hlen Hrd).
Qed.

Lemma CopyData_idempotent_scenario :
  exists W1,
    CopyData scenario_source (Some 0%nat) scenario_world = Some (Success, W1)
    /\ CopyData scenario_source (Some 0%nat) W1 = Some (Success, W1).
Proof.
  apply (CopyData_idempotent scenario_source scenario_destination scenario_world
           0%nat 1%nat 0%nat 1%nat 0 0
           scenario_source_bytes (replicate 48 (Val Byte.xff)) 32);
    try reflexivity.
  - discriminate.
  - intros y Hy. change (mHeight scenario_source) with 3 in Hy.
    vm_compute length. change (mStride scenario_source) with 12.
    change (XImageBytesPerLine (bits_per_line (mWidth scenario_source) 32)) with 12.
    lia.
  - intros y Hy. change (mHeight scenario_source) with 3 in Hy.
    vm_compute length. change (mStride scenario_destination) with 16.
    change (XImageBytesPerLine (bits_per_line (mWidth scenario_source) 32)) with 12.
    lia.
  - vm_compute. discriminate.
Defined.

(** X7. Copying an image into another and then back disturbs nothing: the
    second copy succeeds and leaves the world of the first, the buffer of
    the first image being byte for byte what it was, padding included. *)
Theorem CopyData_there_and_back (a b : XImage) (W : World) (oa na ob nb ba bb : nat)
    (ofa ofb : Z) (abuf bbuf : list memval) (bpp : Z) :
  objs W !! oa = Some (Some (a, na)) -> objs W !! ob = Some (Some (b, nb)) ->
  mData a = Ptr ba ofa -> mData b = Ptr bb ofb ->
  mWidth a = mWidth b -> mHeight a = mHeight b -> mFormat a = mFormat b ->
  XImageBitsPerPixel (mFormat a) = Some bpp ->
  mem W !! ba = Some (Some abuf) -> mem W !! bb = Some (Some bbuf) -> ba <> bb ->
  rows_in abuf ofa (mStride a)
          (XImageBytesPerLine (bits_per_line (mWidth a) bpp)) (mHeight a) ->
  rows_in bbuf ofb (mStride b)
          (XImageBytesPerLine (bits_per_line (mWidth a) bpp)) (mHeight a) ->
  XImageBytesPerLine (bits_per_line (mWidth a) bpp) <= mStride a ->
  XImageBytesPerLine (bits_per_line (mWidth a) bpp) <= mStride b ->
  exists W1,
    CopyData a (Some ob) W = Some (Success, W1)
    /\ CopyData b (Some oa) W1 = Some (Success, W1)
    /\ mem W1 !! ba = Some (Some abuf).
Proof.
  intros Hoa Hob Hda Hdb Hw Hh Hf Hb Hma Hmb Hne Hra Hrb Hla Hlb.
  assert (same_parameters a b = true) as Hp by (apply same_parameters_true; auto).
  destruct (CopyData_copies a W ob b nb ba ofa bb ofb abuf bbuf bpp
              Hob Hda Hdb Hp Hb Hma Hmb Hne Hra Hrb Hlb)
    as (bbuf' & Hrun & Hlen & Hrows & _).
  assert (bb < length (mem W))%nat as Hbb by (eapply lookup_lt_Some; eauto).
  assert (mem (mkWorld (<[bb := Some bbuf']> (mem W)) (objs W) (grants W)) !! ba
          = Some (Some abuf)) as Hma1
    by (cbn; rewrite list_lookup_insert_ne by congruence; exact Hma).
  eexists. split; [exact Hrun|]. split; [|exact Hma1].
  apply (CopyData_noop b _ oa a na bb ofb ba ofa bbuf' abuf bpp).
  - exact Hoa.
  - exact Hdb.
  - exact Hda.
  - now rewrite same_parameters_sym.
  - now rewrite <- Hf.
  - cbn. now apply list_lookup_insert_eq.
  - exact Hma1.
  - congruence.
  - rewrite <- Hw, <- Hh. exact (rows_in_length _ _ _ _ _ _ Hlen Hrb).
  - rewrite <- Hw, <- Hh. exact Hra.
  - rewrite <- Hw. exact Hla.
  - intros y k Hy Hk. rewrite <- Hw in Hk. rewrite <- Hh in Hy.
    symmetry. now apply Hrows.
Qed.

Lemma scenario_rows_source : rows_in scenario_source_bytes 0 12 12 3.
Proof. intros y Hy. vm_compute length. lia. Qed.

Lemma scenario_rows_destination : rows_in (replicate 48 (Val Byte.xff)) 0 16 12 3.
Proof. intros y Hy. vm_compute length. lia. Qed.

(** The scenario with a handle on the source as well. *)
Lemma CopyData_there_and_back_scenario :
  exists W1,
    CopyData scenario_source (Some 1%nat)
             (mkWorld [Some scenario_source_bytes; Some (replicate 48 (Val Byte.xff))]
                      [Some (scenario_source, 1%nat); Some (scenario_destination, 1%nat)]
                      [])
      = Some (Success, W1)
    /\ CopyData scenario_destination (Some 0%nat) W1 = Some (Success, W1)
    /\ mem W1 !! 0%nat = Some (Some scenario_source_bytes).
Proof.
  apply (CopyData_there_and_back scenario_source scenario_destination _
           0%nat 1%nat 1%nat 1%nat 0%nat 1%nat 0 0
           scenario_source_bytes (replicate 48 (Val Byte.xff)) 32);
    try reflexivity.
  - discriminate.
  - exact scenario_rows_source.
  - exact scenario_rows_destination.
  - vm_compute. discriminate.
Defined.

(** [memcpy] and the row loop write into the block of the destination
    pointer, and nowhere else. *)
Lemma memcpy_frame bd od src n W W' :
  memcpy (Ptr bd od) src n W = Some (tt, W') ->
  objs W' = objs W /\ grants W' = grants W /\ length (mem W') = length (mem W)
  /\ forall b, b <> bd -> mem W' !! b = mem W !! b.
Proof.
  unfold memcpy. destruct src as [|bs os]; [discriminate|].
  destruct (overlap bd od bs os n); [discriminate|].
  intros H.
  apply bind_inv in H as (sbuf & W1 & H1 & H).
  unfold read_block in H1. destruct (mem W !! bs) as [[sb|]|]; try discriminate.
  injection H1 as <- <-.
  apply bind_inv in H as (bytes & W2 & H2 & H). apply lift_inv in H2 as [_ ->].
  apply bind_inv in H as (dbuf & W3 & H3 & H).
  unfold read_block in H3. destruct (mem W !! bd) as [[db|]|]; try discriminate.
  injection H3 as <- <-.
  apply bind_inv in H as (dbuf' & W4 & H4 & H). apply lift_inv in H4 as [_ ->].
  injection H as <-. cbn. rewrite length_insert. repeat split.
  intros b Hb. apply list_lookup_insert_ne. congruence.
Qed.

Lemma copy_rows_frame rows :
  forall bd od src line ss ds W W',
  copy_rows rows (Ptr bd od) src line ss ds W = Some (tt, W') ->
  objs W' = objs W /\ grants W' = grants W /\ length (mem W') = length (mem W)
  /\ forall b, b <> bd -> mem W' !! b = mem W !! b.
Proof.
  induction rows as [|rows IH]; intros bd od src line ss ds W W' H.
  - injection H as <-. auto.
  - cbn [copy_rows ptr_add] in H. apply bind_inv in H as ([] & W1 & H1 & H).
    apply memcpy_frame in H1 as (Ho1 & Hg1 & Hl1 & Hm1).
    apply IH in H as (Ho & Hg & Hl & Hm).
    repeat split; try congruence.
    intros b Hb. rewrite Hm, Hm1 by exact Hb. reflexivity.
Qed.

(** [CopyData] writes into the block of the destination only. *)
Lemma CopyData_only_destination self o dst n bd od W W' r :
  CopyData self (Some o) W = Some (r, W') ->
  objs W !! o = Some (Some (dst, n)) -> mData dst = Ptr bd od ->
  forall b, b <> bd -> mem W' !! b = mem W !! b.
Proof.
  intros H Ho Hd b Hne. unfold CopyData in H.
  destruct (mData self) as [|bs os]; [now injection H as _ <-|].
  rewrite (bind_run _ _ _ _ _ (deref_run _ _ _ _ Ho)) in H.
  destruct (is_null (mData dst)); [now injection H as _ <-|].
  destruct (negb (same_parameters self dst)); [now injection H as _ <-|].
  apply bind_inv in H as (bpp & W2 & Hb & H). apply lift_inv in Hb as [_ ->].
  apply bind_inv in H as ([] & W3 & Hrows & H). injection H as _ <-.
  rewrite Hd in Hrows. apply copy_rows_frame in Hrows as (_ & _ & _ & Hm).
  now apply Hm.
Qed.

(** X8. Whatever [CopyData] returns, it has created and destroyed no
    object, asked the allocator for nothing and added no block; only the
    block the destination points into can have changed. It never returns
    [OutOfMemory], and it returns [Success] only if both buffers are not
    null and the destination has the width, height and format of the
    source. *)
Theorem CopyData_frame (self : XImage) (copyTo : handle) (W W' : World) (r : XError) :
  CopyData self copyTo W = Some (r, W') ->
  r <> OutOfMemory
  /\ objs W' = objs W /\ grants W' = grants W /\ length (mem W') = length (mem W)
  /\ (forall dst bd od b,
        image_of W copyTo = Some dst -> mData dst = Ptr bd od -> b <> bd ->
        mem W' !! b = mem W !! b)
  /\ (r = Success ->
      is_null (mData self) = false
      /\ exists dst, image_of W copyTo = Some dst
           /\ is_null (mData dst) = false
           /\ mWidth self = mWidth dst /\ mHeight self = mHeight dst
           /\ mFormat self = mFormat dst).
Proof.
  intros H.
  destruct (CopyData_same_allocation _ _ _ _ _ H) as (Ho & Hg & Hl).
  unfold CopyData in H. destruct (mData self) as [|bs os] eqn:Hs.
  { injection H as <- <-. repeat split; auto; discriminate. }
  destruct copyTo as [o|]; [|injection H as <- <-; repeat split; auto; discriminate].
  apply bind_inv in H as (dst & W1 & Hde & H).
  unfold deref in Hde. destruct (objs W !! o) as [[[img n]|]|] eqn:Hobj; try discriminate.
  injection Hde as -> <-.
  destruct (is_null (mData dst)) eqn:Hn.
  { injection H as <- <-. repeat split; auto; discriminate. }
  destruct (negb (same_parameters self dst)) eqn:Hp.
  { injection H as <- <-. repeat split; auto; discriminate. }
  apply bind_inv in H as (bpp & W2 & Hb & H). apply lift_inv in Hb as [Hb ->].
  apply bind_inv in H as ([] & W3 & Hrows & H). injection H as <- <-.
  split; [discriminate|]. split; [exact Ho|]. split; [exact Hg|].
  split; [exact Hl|]. split.
  - intros dst' bd od b Hi Hd Hne. cbn in Hi. rewrite Hobj in Hi.
    injection Hi as <-. rewrite Hd in Hrows.
    apply copy_rows_frame in Hrows as (_ & _ & _ & Hm). now apply Hm.
  - intros _. split; [reflexivity|]. exists dst. cbn. rewrite Hobj.
    apply negb_false_iff, same_parameters_true in Hp. tauto.
Qed.

Lemma CopyData_frame_sample :
  Success <> OutOfMemory
  /\ objs sample_pair_copied = objs sample_pair_world
  /\ grants sample_pair_copied = grants sample_pair_world
  /\ length (mem sample_pair_copied) = length (mem sample_pair_world)
  /\ (forall dst bd od b,
        image_of sample_pair_world (Some 0%nat) = Some dst -> mData dst = Ptr bd od ->
        b <> bd -> mem sample_pair_copied !! b = mem sample_pair_world !! b)
  /\ (Success = Success ->
      is_null (mData sample_image) = false
      /\ exists dst, image_of sample_pair_world (Some 0%nat) = Some dst
           /\ is_null (mData dst) = false
           /\ mWidth sample_image = mWidth dst /\ mHeight sample_image = mHeight dst
           /\ mFormat sample_image = mFormat dst).
Proof.
  exact (CopyData_frame sample_image (Some 0%nat) sample_pair_world sample_pair_copied
           Success eq_refl).
Defined.

(** X9. An image of height 0 or less has no rows: between two images of
    equal width, height and format with non-null pointers, [CopyData]
    returns [Success] without reading or writing a byte, whatever the
    pointers point to. *)
Theorem CopyData_no_rows (self dst : XImage) (W : World) (o n : nat) :
  objs W !! o = Some (Some (dst, n)) ->
  is_null (mData self) = false -> is_null (mData dst) = false ->
  mWidth self = mWidth dst -> mHeight self = mHeight dst -> mFormat self = mFormat dst ->
  is_int32 (mFormat self) = true ->
  mHeight self <= 0 ->
  CopyData self (Some o) W = Some (Success, W).
Proof.
  intros Ho Hs Hd Hw Hh Hf Hfmt Hrows.
  destruct (XImageBitsPerPixel_some _ Hfmt) as [bpp Hb].
  rewrite (CopyData_loop self W o dst n bpp Ho Hs Hd) by
    (try apply same_parameters_true; auto).
  replace (Z.to_nat (mHeight self)) with 0%nat by lia. reflexivity.
Qed.

(** Two images of height 0 whose pointers lead nowhere. *)
Lemma CopyData_no_rows_sample :
  CopyData (mkXImage (Ptr 7 0) 4 0 4 1 false) (Some 0%nat)
           (mkWorld [] [Some (mkXImage (Ptr 9 0) 4 0 4 1 false, 1%nat)] [])
    = Some (Success, mkWorld [] [Some (mkXImage (Ptr 9 0) 4 0 4 1 false, 1%nat)] []).
Proof.
  apply (CopyData_no_rows _ (mkXImage (Ptr 9 0) 4 0 4 1 false) _ 0%nat 1%nat);
    reflexivity.
Defined.

(** ** More on [Clone] *)

(** X10. A clone does not take over the stride of its source: whatever the
    stride of the image, a non-empty result of [Clone] has the stride
    [XImageBytesPerStride] gives for its width and format, a multiple of
    4, and its pointer is the start of a block that did not exist before. *)
Theorem Clone_stride (self : XImage) (W W' : World) (c : nat) :
  Clone self W = Some (Some c, W') ->
  exists bpp img b,
    XImageBitsPerPixel (mFormat self) = Some bpp
    /\ objs W' !! c = Some (Some (img, 1%nat))
    /\ mStride img = XImageBytesPerStride (bits_per_line (mWidth self) bpp)
    /\ mStride img mod 4 = 0
    /\ mData img = Ptr b 0
    /\ mem W !! b = None
    /\ is_Some (mem W' !! b).
Proof.
  intros H. apply Clone_inv in H as (-> & bpp & Hb & Ho & Hl).
  exists bpp, (clone_image self W bpp), (length (mem W)).
  split; [exact Hb|]. rewrite Ho. split; [now apply list_lookup_middle|].
  cbn [mStride mData clone_image]. rewrite (Allocate_stride_fits (mWidth self) bpp).
  split; [reflexivity|]. split.
  { rewrite XImageBytesPerStride_eq, Z.mul_comm. apply Z.mod_mul. lia. }
  split; [reflexivity|]. split; [now apply lookup_ge_None_2|].
  apply lookup_lt_is_Some. lia.
Qed.

(** The sample has stride 4; a wrapped copy of it with stride 6 clones to
    stride 4 as well. *)
Lemma Clone_stride_sample :
  exists bpp img b,
    XImageBitsPerPixel 1 = Some bpp
    /\ objs (Clone_world (mkXImage (Ptr 0 0) 2 1 6 1 false) (sample_world [true; true])
                         8 [Val Byte.x01; Val Byte.x02; Undef; Undef] []) !! 0%nat
       = Some (Some (img, 1%nat))
    /\ mStride img = XImageBytesPerStride (bits_per_line 2 bpp)
    /\ mStride img mod 4 = 0
    /\ mData img = Ptr b 0
    /\ mem (sample_world [true; true]) !! b = None
    /\ is_Some (mem (Clone_world (mkXImage (Ptr 0 0) 2 1 6 1 false)
                                 (sample_world [true; true])
                                 8 [Val Byte.x01; Val Byte.x02; Undef; Undef] []) !! b).
Proof.
  exact (Clone_stride (mkXImage (Ptr 0 0) 2 1 6 1 false) (sample_world [true; true])
           _ 0%nat eq_refl).
Defined.

(** X11. Whatever [Clone] returns, every block and every object that
    existed before the call is as it was: the source is read, never
    written, and nothing is freed. *)
Theorem Clone_frame (self : XImage) (W W' : World) (r : handle) :
  Clone self W = Some (r, W') ->
  (forall b, (b < length (mem W))%nat -> mem W' !! b = mem W !! b)
  /\ (forall o, (o < length (objs W))%nat -> objs W' !! o = objs W !! o).
Proof.
  unfold Clone. destruct (is_null (mData self)) eqn:Hn.
  { intros [= _ <-]. auto. }
  intros H. apply bind_inv in H as (clone & Wa & Ha & H).
  destruct clone as [c|].
  - apply bind_inv in H as (res & Wc & Hc & H).
    pose proof (Clone_copy_succeeds _ _ _ _ _ _ Hn Ha Hc) as ->.
    injection H as _ <-.
    apply Allocate_inv in Ha as (bpp & gs & _ & _ & -> & ->).
    destruct (CopyData_same_allocation _ _ _ _ _ Hc) as (Ho & _ & _).
    split.
    + intros b Hb.
      rewrite (CopyData_only_destination _ _ _ _ _ _ _ _ _ Hc
                 (Allocate_world_object _ _ _ _ _ _ _) eq_refl) by lia.
      cbn. now apply lookup_app_l.
    + intros o Hlt. rewrite Ho. cbn. now apply lookup_app_l.
  - injection H as _ <-. apply Allocate_refused in Ha as [Ho Hm]. split.
    + intros b Hb. destruct Hm as [->|[x ->]]; [reflexivity|now apply lookup_app_l].
    + intros o _. now rewrite Ho.
Qed.

Lemma Clone_frame_sample :
  (forall b, (b < 1)%nat ->
     mem (Clone_world sample_image (sample_world [true; true]) 8
                      [Val Byte.x01; Val Byte.x02; Undef; Undef;
                       Val Byte.x03; Val Byte.x04; Undef; Undef] []) !! b
       = [Some sample_bytes] !! b)
  /\ (forall o, (o < 0)%nat ->
        objs (Clone_world sample_image (sample_world [true; true]) 8
                          [Val Byte.x01; Val Byte.x02; Undef; Undef;
                           Val Byte.x03; Val Byte.x04; Undef; Undef] []) !! o
          = (@nil (option (XImage * nat))) !! o).
Proof.
  exact (Clone_frame sample_image (sample_world [true; true]) _ (Some 0%nat) eq_refl).
Defined.

(** Whatever [Clone] returns, a block or an object that was there before
    the call is there as it was. *)
Lemma Clone_keeps_old self W r W' :
  Clone self W = Some (r, W') ->
  (forall b x, mem W !! b = Some x -> mem W' !! b = Some x)
  /\ (forall o x, objs W !! o = Some x -> objs W' !! o = Some x).
Proof.
  unfold Clone. destruct (is_null (mData self)) eqn:Hn.
  { intros [= _ <-]. auto. }
  intros H. apply bind_inv in H as (clone & Wa & Ha & H).
  destruct clone as [c|].
  - apply bind_inv in H as (res & Wc & Hc & H).
    pose proof (Clone_copy_succeeds _ _ _ _ _ _ Hn Ha Hc) as ->.
    injection H as _ <-.
    apply Allocate_inv in Ha as (bpp & gs & _ & _ & -> & ->).
    destruct (CopyData_same_allocation _ _ _ _ _ Hc) as (Ho & _ & _).
    split.
    + intros b x Hb. pose proof (lookup_lt_Some _ _ _ Hb) as Hlt.
      rewrite (CopyData_only_destination _ _ _ _ _ _ _ _ _ Hc
                 (Allocate_world_object _ _ _ _ _ _ _) eq_refl) by lia.
      cbn. now apply lookup_app_l_Some.
    + intros o x Hx. rewrite Ho. cbn. now apply lookup_app_l_Some.
  - injection H as _ <-. apply Allocate_refused in Ha as [Ho Hm]. split.
    + intros b x Hb. destruct Hm as [->|[y ->]]; [exact Hb|now apply lookup_app_l_Some].
    + intros o x Hx. now rewrite Ho.
Qed.

(** X12. A clone that is dropped leaves no trace but its numbers. Whenever
    [Clone] of an image whose buffer lies in a live block returns a
    non-empty handle, letting go of that handle frees the block of the
    clone and destroys its object: the blocks and the objects are those
    before the clone, followed by one freed block and one destroyed object.
    The requests [Clone] has made of the allocator stay made. *)
Theorem Clone_then_release (self : XImage) (W W1 : World) (bs : nat) (os : Z)
    (sbuf : list memval) (c : nat) :
  mData self = Ptr bs os ->
  mem W !! bs = Some (Some sbuf) ->
  Clone self W = Some (Some c, W1) ->
  release (Some c) W1
    = Some (tt, mkWorld (mem W ++ [None]) (objs W ++ [None]) (grants W1)).
Proof.
  intros Hd Hs Hrun.
  destruct (Clone_faithful self W bs os sbuf c W1 Hd Hs Hrun)
    as (bpp & cbuf & gs & _ & -> & -> & _).
  rewrite (release_last_owned _ (length (objs W)) (clone_image self W bpp)
             (length (mem W)) cbuf).
  - cbn. f_equal. f_equal. f_equal.
    + replace (length (mem W)) with (length (mem W) + 0)%nat at 1 by lia.
      now rewrite insert_app_r.
    + replace (length (objs W)) with (length (objs W) + 0)%nat at 1 by lia.
      now rewrite insert_app_r.
  - cbn. now apply list_lookup_middle.
  - reflexivity.
  - reflexivity.
  - cbn. now apply list_lookup_middle.
Qed.

(** The clone of the sample is dropped. *)
Lemma Clone_then_release_sample :
  release (Some 0%nat)
          (Clone_world sample_image (sample_world [true; true]) 8
                       [Val Byte.x01; Val Byte.x02; Undef; Undef;
                        Val Byte.x03; Val Byte.x04; Undef; Undef] [])
    = Some (tt, mkWorld [Some sample_bytes; None] [None] []).
Proof.
  exact (Clone_then_release sample_image (sample_world [true; true]) _ 0%nat 0
           sample_bytes 0%nat eq_refl eq_refl eq_refl).
Defined.

(** ** More on [CopyDataOrClone] *)

(** Into a destination of its own parameters [CopyData] reports a null
    pointer or succeeds. *)
Lemma CopyData_same_parameters_codes self o dst n W W' r :
  CopyData self (Some o) W = Some (r, W') ->
  objs W !! o = Some (Some (dst, n)) ->
  same_parameters self dst = true ->
  r = NullPointer \/ r = Success.
Proof.
  intros H Ho Hp. unfold CopyData in H.
  destruct (mData self) as [|bs os]; [injection H as <- _; now left|].
  rewrite (bind_run _ _ _ _ _ (deref_run _ _ _ _ Ho)) in H.
  destruct (is_null (mData dst)); [injection H as <- _; now left|].
  rewrite Hp in H. cbn [negb] in H.
  apply bind_inv in H as (bpp & W2 & _ & H).
  apply bind_inv in H as ([] & W3 & _ & H). injection H as <- _. now right.
Qed.

(** X13. Whatever [CopyDataOrClone] returns: the result is never
    [ImageParametersMismatch]; it is [OutOfMemory] exactly when the handle
    comes back empty; a handle that comes back non-empty holds a live
    image with the width, height and format of the source, also when the
    result is an error; and [NullPointer] means that the handle and the
    world are what they were. *)
Theorem CopyDataOrClone_outcome (self : XImage) (copyTo h : handle) (W W' : World)
    (r : XError) :
  CopyDataOrClone self copyTo W = Some ((r, h), W') ->
  r <> ImageParametersMismatch
  /\ (r = OutOfMemory <-> h = None)
  /\ (forall o, h = Some o ->
        exists img, image_of W' (Some o) = Some img
          /\ mWidth img = mWidth self /\ mHeight img = mHeight self
          /\ mFormat img = mFormat self)
  /\ (r = NullPointer -> h = copyTo /\ W' = W).
Proof.
  intros H. unfold CopyDataOrClone in H.
  apply bind_inv in H as (replace & W0 & Htest & H).
  assert (W0 = W
          /\ (copyTo = None
              \/ exists o dst n, copyTo = Some o /\ objs W !! o = Some (Some (dst, n))
                   /\ replace = negb (same_parameters dst self))) as [-> Hcase].
  { destruct copyTo as [o|]; [|injection Htest as _ <-; auto].
    apply bind_inv in Htest as (dst & Wd & Hde & Htest).
    unfold deref in Hde. destruct (objs W !! o) as [[[img n]|]|] eqn:Ho; try discriminate.
    injection Hde as -> <-. injection Htest as <- <-.
    split; [reflexivity|]. right. exists o, dst, n. auto. }
  destruct replace.
  - apply bind_inv in H as (clone & W1 & Hc & H).
    apply bind_inv in H as ([] & W2 & Hr & H). injection H as <- <- <-.
    assert (forall c, clone = Some c -> copyTo <> Some c) as Hfresh.
    { intros c -> ->. apply Clone_inv in Hc as (Hlen & _).
      destruct Hcase as [[=]|(o & dst & n & [= <-] & Ho & _)].
      apply lookup_lt_Some in Ho. lia. }
    split; [destruct clone; discriminate|].
    split; [destruct clone; split; congruence|]. split.
    + intros c ->. pose proof (Hfresh c eq_refl) as Hne.
      apply Clone_inv in Hc as (-> & bpp & _ & Ho & _).
      exists (clone_image self W bpp). cbn [image_of].
      rewrite (release_other _ _ _ _ Hr Hne), Ho.
      rewrite (list_lookup_middle _ _ _ _ eq_refl). cbn. auto.
    + destruct clone; discriminate.
  - destruct Hcase as [->|(o & dst & n & -> & Ho & Hp)]; [discriminate|].
    symmetry in Hp. apply negb_false_iff in Hp.
    apply bind_inv in H as (res & W1 & Hc & H). injection H as <- <- <-.
    destruct (CopyData_same_allocation _ _ _ _ _ Hc) as (Hobjs & _ & _).
    assert (res = NullPointer \/ res = Success) as Hres.
    { eapply CopyData_same_parameters_codes; eauto. now rewrite same_parameters_sym. }
    split; [destruct Hres as [-> | ->]; discriminate|].
    split; [split; [destruct Hres as [-> | ->]; discriminate|discriminate]|]. split.
    + intros o' [= <-]. exists dst. cbn. rewrite Hobjs, Ho.
      apply same_parameters_true in Hp. tauto.
    + intros ->. split; [reflexivity|].
      eapply CopyData_failure_unchanged; [exact Hc|discriminate].
Qed.

Lemma CopyDataOrClone_outcome_sample :
  Success <> ImageParametersMismatch
  /\ (Success = OutOfMemory <-> Some 0%nat = @None nat)
  /\ (forall o, Some 0%nat = Some o ->
        exists img, image_of sample_pair_copied (Some o) = Some img
          /\ mWidth img = mWidth sample_image /\ mHeight img = mHeight sample_image
          /\ mFormat img = mFormat sample_image)
  /\ (Success = NullPointer ->
      Some 0%nat = Some 0%nat /\ sample_pair_copied = sample_pair_world).
Proof.
  exact (CopyDataOrClone_outcome sample_image (Some 0%nat) (Some 0%nat)
           sample_pair_world sample_pair_copied Success eq_refl).
Defined.

Section Twice.

Variables (self : XImage) (copyTo : handle) (W : World).
Variables (bs : nat) (os : Z) (sbuf : list memval) (bpp : Z) (gs : list bool).

Hypothesis Hd : mData self = Ptr bs os.
Hypothesis Hs : mem W !! bs = Some (Some sbuf).
Hypothesis Hb : XImageBitsPerPixel (mFormat self) = Some bpp.
Hypothesis Hrows : rows_in sbuf os (mStride self)
                     (XImageBytesPerLine (bits_per_line (mWidth self) bpp))
                     (mHeight self).
Hypothesis Hapart : apart_from W copyTo bs.

(** The destination was replaced: the second call finds the clone. *)
Lemma CopyDataOrClone_twice_replace :
  must_replace W self copyTo -> releasable W copyTo ->
  fits_allocation (mWidth self) (mHeight self) bpp ->
  grants W = true :: true :: gs ->
  exists c W1,
    CopyDataOrClone self copyTo W = Some ((Success, Some c), W1)
    /\ CopyDataOrClone self (Some c) W1 = Some ((Success, Some c), W1)
    /\ grants W1 = gs.
Proof.
  intros Hreplace Hrel Hfits Hg.
  pose proof (fits_allocation_holds_rows _ _ _ Hfits) as [Hline Hroom].
  assert (bs < length (mem W))%nat as Hbs by (eapply lookup_lt_Some; eauto).
  destruct (CopyDataOrClone_cloned self copyTo W Hreplace Hrel bs os sbuf bpp gs
              Hd Hs Hb Hrows (conj Hline Hroom) Hg)
    as (W1 & cbuf & Hrun & Hg1 & _ & Ho & Hm & Hin & Hcopied & Hkeep).
  exists (length (objs W)), W1. split; [exact Hrun|]. split; [|exact Hg1].
  assert (mem W1 !! bs = Some (Some sbuf)) as Hs1.
  { rewrite Hkeep.
    - now apply lookup_app_l_Some.
    - intros o img -> Hobj _. apply (Hapart img 0). cbn. now rewrite Hobj. }
  assert (image_of W1 (Some (length (objs W))) = Some (clone_image self W bpp)) as Hi
    by (cbn; now rewrite Ho).
  rewrite (CopyDataOrClone_keep self _ W1 _ Hi) by reflexivity.
  rewrite (CopyData_noop self W1 (length (objs W)) (clone_image self W bpp) 1%nat
             bs os (length (mem W)) 0 sbuf cbuf bpp); try assumption; try reflexivity.
  - apply same_parameters_true. cbn. auto.
  - lia.
Qed.

(** The destination was kept: the second call writes the same bytes. *)
Lemma CopyDataOrClone_twice_keep :
  has_room W self bpp copyTo ->
  exists W1,
    CopyDataOrClone self copyTo W = Some ((Success, copyTo), W1)
    /\ CopyDataOrClone self copyTo W1 = Some ((Success, copyTo), W1)
    /\ grants W1 = grants W.
Proof.
  intros (dst & bd & od & dbuf & Hdst & Hw & Hh & Hf & Hdd & Hbd & Hroom & Hline).
  pose proof Hdst as Hdst'. apply image_of_some in Hdst' as (o & n & -> & Ho).
  assert (bs <> bd) as Hne by (intros ->; apply (Hapart dst od Hdst); exact Hdd).
  assert (same_parameters self dst = true) as Hp by (apply same_parameters_true; auto).
  destruct (CopyData_copies self W o dst n bs os bd od sbuf dbuf bpp
              Ho Hd Hdd Hp Hb Hs Hbd Hne Hrows Hroom Hline)
    as (dbuf' & Hrun & Hlen & Hcopied & _).
  assert (bd < length (mem W))%nat as Hbdlt by (eapply lookup_lt_Some; eauto).
  eexists. split; [|split].
  - rewrite (CopyDataOrClone_keep self _ W dst Hdst Hw Hh Hf), Hrun. reflexivity.
  - rewrite (CopyDataOrClone_keep self _ _ dst) by (cbn; rewrite ?Ho; auto).
    rewrite (CopyData_noop self _ o dst n bs os bd od sbuf dbuf' bpp);
      try assumption; try reflexivity.
    + cbn. rewrite list_lookup_insert_ne by congruence. exact Hs.
    + cbn. now apply list_lookup_insert_eq.
    + exact (rows_in_length _ _ _ _ _ _ Hlen Hroom).
  - reflexivity.
Qed.

End Twice.

(** X14. [CopyDataOrClone] is idempotent. Let the rows of the source lie
    inside a live block, and let the image of the destination handle, if
    any, not point into that block. Where the handle holds an image of the
    width, height and format of the source whose buffer has room for the
    rows at a stride that covers a line, the call returns [Success] with
    the same handle, and a second call returns [Success] with the same
    handle and leaves the state as the first left it. Where the handle is
    empty or holds an image of other parameters, and can be let go, the
    computations of [Allocate] stay within 32 bits and the allocator grants
    the next two requests, the call returns [Success] with a new handle,
    and a second call with that handle returns [Success] with the same
    handle and leaves the state as it is: nothing is asked of the
    allocator and no byte changes. *)
Theorem CopyDataOrClone_twice (self : XImage) (copyTo : handle) (W : World)
    (bs : nat) (os : Z) (sbuf : list memval) (bpp : Z) :
  mData self = Ptr bs os ->
  mem W !! bs = Some (Some sbuf) ->
  XImageBitsPerPixel (mFormat self) = Some bpp ->
  rows_in sbuf os (mStride self)
          (XImageBytesPerLine (bits_per_line (mWidth self) bpp)) (mHeight self) ->
  apart_from W copyTo bs ->
  (has_room W self bpp copyTo ->
     exists W1,
       CopyDataOrClone self copyTo W = Some ((Success, copyTo), W1)
       /\ CopyDataOrClone self copyTo W1 = Some ((Success, copyTo), W1)
       /\ grants W1 = grants W)
  /\ (forall gs,
        must_replace W self copyTo ->
        releasable W copyTo ->
        fits_allocation (mWidth self) (mHeight self) bpp ->
        grants W = true :: true :: gs ->
        exists c W1,
          CopyDataOrClone self copyTo W = Some ((Success, Some c), W1)
          /\ CopyDataOrClone self (Some c) W1 = Some ((Success, Some c), W1)
          /\ grants W1 = gs).
Proof.
  intros Hd Hs Hb Hrows Hapart. split.
  - intros Hroom.
    exact (CopyDataOrClone_twice_keep self copyTo W bs os sbuf bpp
             Hd Hs Hb Hrows Hapart Hroom).
  - intros gs Hreplace Hrel Hfits Hg.
    exact (CopyDataOrClone_twice_replace self copyTo W bs os sbuf bpp gs
             Hd Hs Hb Hrows Hapart Hreplace Hrel Hfits Hg).
Qed.

(** The sample through an empty handle, and into a destination of its
    parameters. *)
Lemma CopyDataOrClone_twice_sample :
  (exists c W1,
     CopyDataOrClone sample_image None (sample_world [true; true])
       = Some ((Success, Some c), W1)
     /\ CopyDataOrClone sample_image (Some c) W1 = Some ((Success, Some c), W1)
     /\ grants W1 = [])
  /\ (exists W1,
        CopyDataOrClone sample_image (Some 0%nat) sample_pair_world
          = Some ((Success, Some 0%nat), W1)
        /\ CopyDataOrClone sample_image (Some 0%nat) W1
           = Some ((Success, Some 0%nat), W1)
        /\ grants W1 = grants sample_pair_world).
Proof.
  split.
  - destruct (CopyDataOrClone_twice sample_image None (sample_world [true; true])
                0%nat 0 sample_bytes 8 eq_refl eq_refl eq_refl sample_rows_in)
      as [_ Hreplace].
    + intros dst ofs Hi. discriminate Hi.
    + apply (Hreplace []).
      * now left.
      * exact I.
      * exact sample_fits.
      * reflexivity.
  - destruct (CopyDataOrClone_twice sample_image (Some 0%nat) sample_pair_world
                0%nat 0 sample_bytes 8 eq_refl eq_refl eq_refl sample_rows_in)
      as [Hkeep _].
    + intros dst ofs Hi. injection Hi as <-. discriminate.
    + apply Hkeep.
      exists sample_destination, 1%nat, 0, (replicate 8 Undef).
      split; [reflexivity|]. do 5 (split; [reflexivity|]).
      split; [|vm_compute; discriminate].
      intros y Hy. change (mHeight sample_image) with 2 in Hy.
      change (mStride sample_destination) with 4.
      change (XImageBytesPerLine (bits_per_line (mWidth sample_image) 8)) with 2.
      cbn. lia.
Defined.

Section ReplacedDestination.

Variables (self dst : XImage) (W : World) (o : nat).
Variables (clone : handle) (W1 : World).

Hypothesis Hdiff : mWidth dst <> mWidth self \/ mHeight dst <> mHeight self
                   \/ mFormat dst <> mFormat self.
Hypothesis Hclone : Clone self W = Some (clone, W1).

(** The call as far as the clone, for a destination of other parameters
    that has [n] holders. *)
Lemma CopyDataOrClone_until_release n :
  objs W !! o = Some (Some (dst, n)) ->
  CopyDataOrClone self (Some o) W =
    match release (Some o) W1 with
    | Some (_, W2) =>
        Some ((match clone with None => OutOfMemory | Some _ => Success end, clone), W2)
    | None => None
    end
  /\ objs W1 !! o = Some (Some (dst, n))
  /\ clone <> Some o.
Proof.
  intros Ho. split; [|split].
  - rewrite CopyDataOrClone_replace, Hclone; [reflexivity|].
    right. exists dst. split; [cbn; now rewrite Ho|exact Hdiff].
  - now apply (Clone_keeps_old _ _ _ _ Hclone).
  - intros ->. apply Clone_inv in Hclone as [-> _].
    apply lookup_lt_Some in Ho. lia.
Qed.

End ReplacedDestination.

(** X15. A destination that is replaced is not leaked, and it is lost even
    when no clone takes its place. Let the handle be the only holder of an
    owned image whose width, height or format differs from the source's
    and whose buffer is the start of a live block. Then, for whatever
    [Clone] of the source returns, the empty handle included,
    [CopyDataOrClone] returns that handle in place of the old one, with
    [Success] when it is not empty and [OutOfMemory] when it is; the old
    image is destroyed and its buffer freed; every other block and object
    that was there before the call is as it was. *)
Theorem CopyDataOrClone_frees_replaced (self dst : XImage) (W W1 : World) (o bd : nat)
    (dbuf : list memval) (clone : handle) :
  objs W !! o = Some (Some (dst, 1%nat)) ->
  mOwnMemory dst = true -> mData dst = Ptr bd 0 ->
  mem W !! bd = Some (Some dbuf) ->
  mWidth dst <> mWidth self \/ mHeight dst <> mHeight self
    \/ mFormat dst <> mFormat self ->
  Clone self W = Some (clone, W1) ->
  exists W',
    CopyDataOrClone self (Some o) W
      = Some ((match clone with None => OutOfMemory | Some _ => Success end, clone), W')
    /\ clone <> Some o
    /\ objs W' !! o = Some None
    /\ mem W' !! bd = Some None
    /\ (forall b x, b <> bd -> mem W !! b = Some x -> mem W' !! b = Some x)
    /\ (forall o' x, o' <> o -> objs W !! o' = Some x -> objs W' !! o' = Some x)
    /\ (forall c, clone = Some c -> objs W' !! c = objs W1 !! c)
    /\ grants W' = grants W1.
Proof.
  intros Ho Hown Hdd Hbd Hdiff Hclone.
  destruct (CopyDataOrClone_until_release self dst W o clone W1 Hdiff Hclone 1%nat Ho)
    as (Hrun & Ho1 & Hne).
  destruct (Clone_keeps_old _ _ _ _ Hclone) as [Hmem Hobjs].
  pose proof (Hmem _ _ Hbd) as Hbd1.
  rewrite (release_last_owned _ o dst bd dbuf Ho1 Hown Hdd Hbd1) in Hrun.
  eexists. split; [exact Hrun|]. cbn [objs mem grants]. split; [exact Hne|].
  split; [apply list_lookup_insert_eq; eapply lookup_lt_Some; eauto|].
  split; [apply list_lookup_insert_eq; eapply lookup_lt_Some; eauto|].
  split; [|split; [|split; [|reflexivity]]].
  - intros b x Hb Hx. rewrite list_lookup_insert_ne by congruence. now apply Hmem.
  - intros o' x Hneo Hx. rewrite list_lookup_insert_ne by congruence. now apply Hobjs.
  - intros c ->. apply list_lookup_insert_ne. congruence.
Qed.

(** The allocator refuses the clone of the sample: the owned 1x1
    destination is gone all the same. *)
Lemma CopyDataOrClone_frees_replaced_sample :
  exists W',
    CopyDataOrClone sample_image (Some 0%nat)
      (mkWorld [Some sample_bytes; Some (replicate 4 Undef)]
               [Some (mkXImage (Ptr 1 0) 1 1 4 1 true, 1%nat)] [false])
      = Some ((OutOfMemory, None), W')
    /\ @None nat <> Some 0%nat
    /\ objs W' !! 0%nat = Some None
    /\ mem W' !! 1%nat = Some None
    /\ (forall b x, b <> 1%nat ->
          [Some sample_bytes; Some (replicate 4 Undef)] !! b = Some x ->
          mem W' !! b = Some x)
    /\ (forall o' x, o' <> 0%nat ->
          [Some (mkXImage (Ptr 1 0) 1 1 4 1 true, 1%nat)] !! o' = Some x ->
          objs W' !! o' = Some x)
    /\ (forall c, @None nat = Some c ->
          objs W' !! c
            = [Some (mkXImage (Ptr 1 0) 1 1 4 1 true, 1%nat)] !! c)
    /\ grants W' = [].
Proof.
  apply (CopyDataOrClone_frees_replaced sample_image (mkXImage (Ptr 1 0) 1 1 4 1 true)
           (mkWorld [Some sample_bytes; Some (replicate 4 Undef)]
                    [Some (mkXImage (Ptr 1 0) 1 1 4 1 true, 1%nat)] [false])
           (mkWorld [Some sample_bytes; Some (replicate 4 Undef)]
                    [Some (mkXImage (Ptr 1 0) 1 1 4 1 true, 1%nat)] [])
           0%nat 1%nat (replicate 4 Undef) None); try reflexivity.
  left. cbn. lia.
Defined.

(** X16. A destination that other holders share survives its replacement.
    Let the handle be one of two or more holders of an image whose width,
    height or format differs from the source's. Then, for whatever [Clone]
    of the source returns, the empty handle included, [CopyDataOrClone]
    returns that handle in place of the old one, with [Success] when it is
    not empty and [OutOfMemory] when it is; the old image stays alive with
    one holder fewer and its data members as they were, and every block
    and every other object that was there before the call is as it was. *)
Theorem CopyDataOrClone_spares_shared (self dst : XImage) (W W1 : World) (o n : nat)
    (clone : handle) :
  objs W !! o = Some (Some (dst, S (S n))) ->
  mWidth dst <> mWidth self \/ mHeight dst <> mHeight self
    \/ mFormat dst <> mFormat self ->
  Clone self W = Some (clone, W1) ->
  exists W',
    CopyDataOrClone self (Some o) W
      = Some ((match clone with None => OutOfMemory | Some _ => Success end, clone), W')
    /\ clone <> Some o
    /\ objs W' !! o = Some (Some (dst, S n))
    /\ (forall b x, mem W !! b = Some x -> mem W' !! b = Some x)
    /\ (forall o' x, o' <> o -> objs W !! o' = Some x -> objs W' !! o' = Some x)
    /\ (forall c, clone = Some c -> objs W' !! c = objs W1 !! c)
    /\ grants W' = grants W1.
Proof.
  intros Ho Hdiff Hclone.
  destruct (CopyDataOrClone_until_release self dst W o clone W1 Hdiff Hclone _ Ho)
    as (Hrun & Ho1 & Hne).
  destruct (Clone_keeps_old _ _ _ _ Hclone) as [Hmem Hobjs].
  rewrite (release_shared _ o dst n Ho1) in Hrun.
  eexists. split; [exact Hrun|]. cbn [objs mem grants]. split; [exact Hne|].
  split; [apply list_lookup_insert_eq; eapply lookup_lt_Some; eauto|].
  split; [exact Hmem|]. split; [|split; [|reflexivity]].
  - intros o' x Hneo Hx. rewrite list_lookup_insert_ne by congruence. now apply Hobjs.
  - intros c ->. apply list_lookup_insert_ne. congruence.
Qed.

(** The 1x1 destination has two holders and is replaced by a clone of the
    sample. *)
Lemma CopyDataOrClone_spares_shared_sample :
  exists W',
    CopyDataOrClone sample_image (Some 0%nat)
      (mkWorld [Some sample_bytes; Some (replicate 4 Undef)]
               [Some (mkXImage (Ptr 1 0) 1 1 4 1 true, 2%nat)] [true; true])
      = Some ((Success, Some 1%nat), W')
    /\ Some 1%nat <> Some 0%nat
    /\ objs W' !! 0%nat = Some (Some (mkXImage (Ptr 1 0) 1 1 4 1 true, 1%nat))
    /\ (forall b x,
          [Some sample_bytes; Some (replicate 4 Undef)] !! b = Some x ->
          mem W' !! b = Some x)
    /\ (forall o' x, o' <> 0%nat ->
          [Some (mkXImage (Ptr 1 0) 1 1 4 1 true, 2%nat)] !! o' = Some x ->
          objs W' !! o' = Some x)
    /\ (forall c, Some 1%nat = Some c ->
          objs W' !! c
            = [Some (mkXImage (Ptr 1 0) 1 1 4 1 true, 2%nat);
               Some (mkXImage (Ptr 2 0) 2 2 4 1 true, 1%nat)] !! c)
    /\ grants W' = [].
Proof.
  apply (CopyDataOrClone_spares_shared sample_image (mkXImage (Ptr 1 0) 1 1 4 1 true)
           (mkWorld [Some sample_bytes; Some (replicate 4 Undef)]
                    [Some (mkXImage (Ptr 1 0) 1 1 4 1 true, 2%nat)] [true; true])
           (mkWorld [Some sample_bytes; Some (replicate 4 Undef);
                     Some [Val Byte.x01; Val Byte.x02; Undef; Undef;
                           Val Byte.x03; Val Byte.x04; Undef; Undef]]
                    [Some (mkXImage (Ptr 1 0) 1 1 4 1 true, 2%nat);
                     Some (mkXImage (Ptr 2 0) 2 2 4 1 true, 1%nat)] [])
           0%nat 0%nat (Some 1%nat)); try reflexivity.
  left. cbn. lia.
Defined.

(** ** Wrapping *)

(** X17. Pixels copied into a wrapped buffer stay with the owner of the
    buffer. After [Create] over a block with room for the rows,
    [CopyData] into the new image writes the rows of the source into that
    very block, and dropping the only handle of the image afterwards
    leaves the block live with the rows in it. *)
Theorem Create_CopyData_release (self : XImage) (W : World) (bs bd : nat) (os od : Z)
    (stride : Z) (sbuf dbuf : list memval) (bpp : Z) (gs : list bool) :
  mData self = Ptr bs os ->
  XImageBitsPerPixel (mFormat self) = Some bpp ->
  mem W !! bs = Some (Some sbuf) -> mem W !! bd = Some (Some dbuf) -> bs <> bd ->
  rows_in sbuf os (mStride self)
          (XImageBytesPerLine (bits_per_line (mWidth self) bpp)) (mHeight self) ->
  rows_in dbuf od stride
          (XImageBytesPerLine (bits_per_line (mWidth self) bpp)) (mHeight self) ->
  XImageBytesPerLine (bits_per_line (mWidth self) bpp) <= stride ->
  grants W = true :: gs ->
  exists o W1 W2 W3 dbuf',
    Create (Ptr bd od) (mWidth self) (mHeight self) stride (mFormat self) W
      = Some (Some o, W1)
    /\ mem W1 = mem W
    /\ CopyData self (Some o) W1 = Some (Success, W2)
    /\ release (Some o) W2 = Some (tt, W3)
    /\ mem W3 = <[bd := Some dbuf']> (mem W)
    /\ length dbuf' = length dbuf
    /\ (forall y k, 0 <= y < mHeight self ->
          0 <= k < XImageBytesPerLine (bits_per_line (mWidth self) bpp) ->
          dbuf' !! Z.to_nat (od + y * stride + k)
            = sbuf !! Z.to_nat (os + y * mStride self + k))
    /\ objs W3 !! o = Some None.
Proof.
  intros Hd Hb Hs Hbd Hne Hrs Hrd Hline Hg.
  set (img := mkXImage (Ptr bd od) (mWidth self) (mHeight self) stride (mFormat self)
                       false).
  set (W1 := mkWorld (mem W) (objs W ++ [Some (img, 1%nat)]) gs).
  assert (Create (Ptr bd od) (mWidth self) (mHeight self) stride (mFormat self) W
          = Some (Some (length (objs W)), W1)) as Hcreate
    by (rewrite Create_cases, Hg; reflexivity).
  assert (objs W1 !! length (objs W) = Some (Some (img, 1%nat))) as Ho
    by (cbn; now apply list_lookup_middle).
  destruct (CopyData_copies self W1 (length (objs W)) img 1%nat bs os bd od
              sbuf dbuf bpp Ho Hd eq_refl) as (dbuf' & Hrun & Hlen & Hcopied & _);
    try assumption.
  { apply same_parameters_true. cbn. auto. }
  exists (length (objs W)), W1. eexists _, _, dbuf'.
  split; [exact Hcreate|]. split; [reflexivity|]. split; [exact Hrun|].
  split; [apply (release_last_borrowed _ _ img); [exact Ho|reflexivity]|].
  cbn [mem objs]. split; [reflexivity|]. split; [exact Hlen|]. split; [exact Hcopied|].
  apply list_lookup_insert_eq. subst W1. cbn [objs]. rewrite length_app. cbn. lia.
Qed.

(** The sample is copied into a wrapped block of 8 bytes. *)
Lemma Create_CopyData_release_sample :
  exists o W1 W2 W3 dbuf',
    Create (Ptr 1 0) 2 2 4 1
           (mkWorld [Some sample_bytes; Some (replicate 8 Undef)] [] [true])
      = Some (Some o, W1)
    /\ mem W1 = [Some sample_bytes; Some (replicate 8 Undef)]
    /\ CopyData sample_image (Some o) W1 = Some (Success, W2)
    /\ release (Some o) W2 = Some (tt, W3)
    /\ mem W3 = <[1%nat := Some dbuf']> [Some sample_bytes; Some (replicate 8 Undef)]
    /\ length dbuf' = 8%nat
    /\ (forall y k, 0 <= y < 2 -> 0 <= k < 2 ->
          dbuf' !! Z.to_nat (0 + y * 4 + k) = sample_bytes !! Z.to_nat (0 + y * 4 + k))
    /\ objs W3 !! o = Some None.
Proof.
  apply (Create_CopyData_release sample_image
           (mkWorld [Some sample_bytes; Some (replicate 8 Undef)] [] [true])
           0%nat 1%nat 0 0 4 sample_bytes (replicate 8 Undef) 8 []);
    try reflexivity.
  - discriminate.
  - exact sample_rows_in.
  - intros y Hy. cbn in Hy. cbn.
    change (XImageBytesPerLine (bits_per_line 2 8)) with 2. lia.
  - vm_compute. discriminate.
Defined.
